(** * Sorted-set engine of blackwidow (src/redis_zsets.cc)

    A shallow embedding of [RedisZSets] over a model of the three column
    families (meta, data, score) of the underlying ordered key-value store,
    and the properties of the engine's commands proved on it.

    Conventions of the embedding.
    - A column family is the list of its rows in the order of the family's
      comparator.  An iterator is the list of rows from its position onward
      in the direction of travel: [Valid] is "not empty", [key]/[value] read
      the head, [Next]/[Prev] drop it.
    - Every command takes the database and the clock reading it observes and
      returns its status, its out-parameters and the database after the
      command.  Mutations collect a [WriteBatch] and commit it with [Write],
      as the source does; reads inside a command see the state before the
      batch.
    - The store is total: a point read answers OK or NotFound and a write
      answers OK.  The branches of the source that propagate any other
      store status are therefore not reachable in the model.
    - [int32_t] counters are integers of [Z]; signed overflow is undefined
      in the source and is outside the model.
    - A [double] is a binary64 value of [spec_float]; the operations are the
      IEEE ones of the standard library ([SFmul], [SFadd], [SFcompare]). *)

From Stdlib Require Import ZArith List String Ascii Bool Lia SpecFloat.
From Stdlib Require Import DecimalString.
Import ListNotations.
Open Scope Z_scope.

(* ================================================================= *)
(** ** Slices, doubles, statuses *)

Definition Slice := string.

Definition double := spec_float.

Definition dmul : double -> double -> double := SFmul 53 1024.
Definition dadd : double -> double -> double := SFadd 53 1024.
(** [a == b], [a < b], [a <= b] on doubles. *)
Definition deq : double -> double -> bool := SFeqb.
Definition dlt : double -> double -> bool := SFltb.
Definition dle : double -> double -> bool := SFleb.

(** Conversion of an integer literal to [double]. *)
Definition double_of_Z (z : Z) : double := binary_normalize 53 1024 z 0 false.

Definition pos_zero : double := S754_zero false.
Definition neg_zero : double := S754_zero true.
Definition neg_infinity : double := S754_infinity true.
Definition pos_infinity : double := S754_infinity false.

(** [std::numeric_limits<double>::max()] and [::lowest()]. *)
Definition double_max : double := SFmax_float 53 1024.
Definition double_lowest : double := SFopp double_max.

(** [std::min(a, b)] is [(b < a) ? b : a]; [std::max(a, b)] is
    [(a < b) ? b : a]. *)
Definition std_min (a b : double) : double := if dlt b a then b else a.
Definition std_max (a b : double) : double := if dlt a b then b else a.

Inductive Status :=
| OK
| NotFound (msg : string)
| Corruption (msg : string).

Definition ok (s : Status) : bool :=
  match s with OK => true | _ => false end.

Definition IsNotFound (s : Status) : bool :=
  match s with NotFound _ => true | _ => false end.

Definition IsCorruption (s : Status) : bool :=
  match s with Corruption _ => true | _ => false end.

Inductive AGGREGATE := SUM | MIN | MAX.

Record ScoreMember := { score : double; member : string }.

Record KeyVersion := { kv_key : string; kv_version : Z }.

(* ================================================================= *)
(** ** Meta values *)

(** The parsed meta row: [version | count | timestamp]. *)
Record ZSetsMetaValue := {
  version : Z;
  count : Z;
  timestamp : Z
}.

(** Modelled from the spec: [ParsedZSetsMetaValue::IsStale] is declared in a
    header outside the sources; section 3 gives it as "timestamp <> 0 and
    timestamp <= now". *)
Definition IsStale (now : Z) (mv : ZSetsMetaValue) : bool :=
  negb (timestamp mv =? 0) && (timestamp mv <=? now).

(** Modelled from the spec: [UpdateVersion] is declared in a header outside
    the sources; section 3 gives the rule [max(clock, prev + 1)]. *)
Definition UpdateVersion (now : Z) (mv : ZSetsMetaValue) : ZSetsMetaValue :=
  {| version := Z.max now (version mv + 1);
     count := count mv;
     timestamp := timestamp mv |}.

(** Modelled from the spec: [InitialMetaValue] "bumps version and zeroes
    count/timestamp" (section 3). *)
Definition InitialMetaValue (now : Z) (mv : ZSetsMetaValue) : ZSetsMetaValue :=
  UpdateVersion now
    {| version := version mv; count := 0; timestamp := 0 |}.

(** Modelled from the spec: the accessors of the parsed meta value are
    declared in a header outside the sources; [ModifyCount] adds to the
    count, [set_count] and [set_timestamp] overwrite the field they name
    (sections 3 and 4.5). *)
Definition ModifyCount (mv : ZSetsMetaValue) (delta : Z) : ZSetsMetaValue :=
  {| version := version mv;
     count := count mv + delta;
     timestamp := timestamp mv |}.

Definition set_count (mv : ZSetsMetaValue) (c : Z) : ZSetsMetaValue :=
  {| version := version mv; count := c; timestamp := timestamp mv |}.

Definition set_timestamp (mv : ZSetsMetaValue) (t : Z) : ZSetsMetaValue :=
  {| version := version mv; count := count mv; timestamp := t |}.

(** Modelled from the spec: the builder [ZSetsMetaValue] is declared in a
    header outside the sources.  [ZSetsMetaValue(Slice(buf, 4))] followed by
    [UpdateVersion()] is a new meta value holding [n] as its count, with
    version 0 and no expiry, whose version is then drawn from the clock
    (section 3: "create meta with count, fresh version"). *)
Definition new_meta_value (now : Z) (n : Z) : ZSetsMetaValue :=
  UpdateVersion now {| version := 0; count := n; timestamp := 0 |}.

(* ================================================================= *)
(** ** Row keys of the data and score column families *)

(** Rows are kept in parsed form: [ParsedZSetsMemberKey] and
    [ParsedZSetsScoreKey] read back the fields the encoders wrote.
    Data row key: [ksize | user-key | version | member]. *)
Record ZSetsMemberKey := {
  mk_key : Slice;
  mk_version : Z;
  mk_member : Slice
}.

(** Score row key: [ksize | user-key | version | score | member]. *)
Record ZSetsScoreKey := {
  sk_key : Slice;
  sk_version : Z;
  sk_score : double;
  sk_member : Slice
}.

(** Modelled from the spec: the fixed-width codec is declared in a header
    outside the sources; section 4.1 gives four bytes, least significant
    first. *)
Definition EncodeFixed32 (z : Z) : string :=
  let b (i : Z) := ascii_of_N (Z.to_N ((z / 2 ^ (8 * i)) mod 256)) in
  String (b 0) (String (b 1) (String (b 2) (String (b 3) EmptyString))).

(** Modelled from the spec: the byte layout of a data row key (section 3);
    the encoder is declared in a header outside the sources. *)
Definition ZSetsMemberKey_Encode (k : ZSetsMemberKey) : string :=
  (EncodeFixed32 (Z.of_nat (String.length (mk_key k))) ++ mk_key k
   ++ EncodeFixed32 (mk_version k) ++ mk_member k)%string.

(** The data family uses the store's bytewise comparator on encoded keys. *)
Definition ZSetsMemberKey_compare (a b : ZSetsMemberKey) : comparison :=
  String.compare (ZSetsMemberKey_Encode a) (ZSetsMemberKey_Encode b).

(** Modelled from the spec: [ZSetsScoreKeyComparatorImpl] is declared in a
    header outside the sources; section 4.2 orders score rows by user key
    (bytes), then version (numeric), then score (numeric, as doubles), then
    member (bytes).  Two scores that are neither less nor equal (a NaN is
    involved) are reported as greater. *)
Definition ZSetsScoreKey_compare (a b : ZSetsScoreKey) : comparison :=
  match String.compare (sk_key a) (sk_key b) with
  | Eq =>
      match Z.compare (sk_version a) (sk_version b) with
      | Eq =>
          match SFcompare (sk_score a) (sk_score b) with
          | Some Eq => String.compare (sk_member a) (sk_member b)
          | Some Lt => Lt
          | _ => Gt
          end
      | c => c
      end
  | c => c
  end.

(* ================================================================= *)
(** ** Column families as ordered row lists *)

Section ColumnFamily.
Context {K V : Type}.
Variable cmp : K -> K -> comparison.

(** Point read: the row whose key the comparator reports equal. *)
Fixpoint cf_get (rows : list (K * V)) (k : K) : option V :=
  match rows with
  | [] => None
  | (k', v) :: rest =>
      match cmp k' k with
      | Eq => Some v
      | _ => cf_get rest k
      end
  end.

(** Put: the new row replaces a row of equal key, else is placed in
    order. *)
Fixpoint cf_put (rows : list (K * V)) (k : K) (v : V) : list (K * V) :=
  match rows with
  | [] => [(k, v)]
  | (k', v') :: rest =>
      match cmp k k' with
      | Lt => (k, v) :: rows
      | Eq => (k, v) :: rest
      | Gt => (k', v') :: cf_put rest k v
      end
  end.

Fixpoint cf_delete (rows : list (K * V)) (k : K) : list (K * V) :=
  match rows with
  | [] => []
  | (k', v') :: rest =>
      match cmp k' k with
      | Eq => cf_delete rest k
      | _ => (k', v') :: cf_delete rest k
      end
  end.

(** [Seek(target)]: the rows from the first one not below [target]. *)
Fixpoint cf_seek (rows : list (K * V)) (target : K) : list (K * V) :=
  match rows with
  | [] => []
  | (k', v') :: rest =>
      match cmp k' target with
      | Lt => cf_seek rest target
      | _ => rows
      end
  end.

(** The rows not above [target], in family order. *)
Fixpoint cf_upto (rows : list (K * V)) (target : K) : list (K * V) :=
  match rows with
  | [] => []
  | (k', v') :: rest =>
      match cmp k' target with
      | Gt => []
      | _ => (k', v') :: cf_upto rest target
      end
  end.

(** [SeekForPrev(target)]: the rows from the last one not above [target],
    travelling backward. *)
Definition cf_seek_for_prev (rows : list (K * V)) (target : K)
  : list (K * V) :=
  rev (cf_upto rows target).
End ColumnFamily.

Record DB := {
  meta_cf : list (Slice * ZSetsMetaValue);
  data_cf : list (ZSetsMemberKey * double);
  score_cf : list (ZSetsScoreKey * Slice)
}.

Definition empty_db : DB := {| meta_cf := []; data_cf := []; score_cf := [] |}.

(** [db_->Get] on [handles_[0]] (the default family) and on [handles_[1]]. *)
Definition Get_meta (db : DB) (key : Slice) : option ZSetsMetaValue :=
  cf_get String.compare (meta_cf db) key.

Definition Get_data (db : DB) (k : ZSetsMemberKey) : option double :=
  cf_get ZSetsMemberKey_compare (data_cf db) k.

(** [NewIterator] on a family followed by [Seek] or [SeekForPrev]. *)
Definition Seek_meta (db : DB) (k : Slice) :=
  cf_seek String.compare (meta_cf db) k.

Definition Seek_data (db : DB) (k : ZSetsMemberKey) :=
  cf_seek ZSetsMemberKey_compare (data_cf db) k.

Definition Seek_score (db : DB) (k : ZSetsScoreKey) :=
  cf_seek ZSetsScoreKey_compare (score_cf db) k.

Definition SeekForPrev_score (db : DB) (k : ZSetsScoreKey) :=
  cf_seek_for_prev ZSetsScoreKey_compare (score_cf db) k.

(* ================================================================= *)
(** ** Write batches *)

Inductive BatchOp :=
| PutMeta (k : Slice) (v : ZSetsMetaValue)
| PutData (k : ZSetsMemberKey) (v : double)
| PutScore (k : ZSetsScoreKey)
| DeleteData (k : ZSetsMemberKey)
| DeleteScore (k : ZSetsScoreKey).

Abbreviation WriteBatch := (list BatchOp).

Definition apply_op (db : DB) (op : BatchOp) : DB :=
  match op with
  | PutMeta k v =>
      {| meta_cf := cf_put String.compare (meta_cf db) k v;
         data_cf := data_cf db; score_cf := score_cf db |}
  | PutData k v =>
      {| meta_cf := meta_cf db;
         data_cf := cf_put ZSetsMemberKey_compare (data_cf db) k v;
         score_cf := score_cf db |}
  | PutScore k =>
      {| meta_cf := meta_cf db; data_cf := data_cf db;
         score_cf := cf_put ZSetsScoreKey_compare (score_cf db) k
                       EmptyString |}
  | DeleteData k =>
      {| meta_cf := meta_cf db;
         data_cf := cf_delete ZSetsMemberKey_compare (data_cf db) k;
         score_cf := score_cf db |}
  | DeleteScore k =>
      {| meta_cf := meta_cf db; data_cf := data_cf db;
         score_cf := cf_delete ZSetsScoreKey_compare (score_cf db) k |}
  end.

(** [db_->Write(options, &batch)]: the operations take effect in order. *)
Definition Write (db : DB) (batch : WriteBatch) : DB :=
  fold_left apply_op batch db.

(* ================================================================= *)
(** ** ZAdd *)

Definition member_key (key : Slice) (v : Z) (m : Slice) : ZSetsMemberKey :=
  {| mk_key := key; mk_version := v; mk_member := m |}.

Definition score_key (key : Slice) (v : Z) (s : double) (m : Slice)
  : ZSetsScoreKey :=
  {| sk_key := key; sk_version := v; sk_score := s; sk_member := m |}.

(** The de-duplication loop that opens ZAdd: [unique] is the set of members
    met so far, the result is [filtered_score_members]. *)
Fixpoint filter_score_members (unique : list string) (sms : list ScoreMember)
  : list ScoreMember :=
  match sms with
  | [] => []
  | sm :: rest =>
      if existsb (String.eqb (member sm)) unique
      then filter_score_members unique rest
      else sm :: filter_score_members (member sm :: unique) rest
  end.

(** One turn of the loop over [filtered_score_members] on an existing meta
    row; the state is the batch and [cnt]. *)
Definition ZAdd_step (db : DB) (key : Slice) (v : Z) (is_stale : bool)
    (st : WriteBatch * Z) (sm : ScoreMember) : WriteBatch * Z :=
  let '(batch, cnt) := st in
  let zsets_member_key := member_key key v (member sm) in
  let puts := [PutData zsets_member_key (score sm);
               PutScore (score_key key v (score sm) (member sm))] in
  if is_stale then (batch ++ puts, cnt + 1)
  else
    match Get_data db zsets_member_key with
    | Some old_score =>
        if deq old_score (score sm) then (batch, cnt)
        else (batch
                ++ [DeleteScore (score_key key v old_score (member sm))]
                ++ puts, cnt)
    | None => (batch ++ puts, cnt + 1)
    end.

(** The batch ZAdd builds, with its status so far and [*ret]. *)
Definition ZAdd_batch (db : DB) (now : Z) (key : Slice)
    (score_members : list ScoreMember) : Status * Z * WriteBatch :=
  let filtered_score_members := filter_score_members [] score_members in
  match Get_meta db key with
  | Some meta_value =>
      let is_stale := IsStale now meta_value in
      let parsed := if is_stale then InitialMetaValue now meta_value
                    else meta_value in
      let '(batch, cnt) :=
        fold_left (ZAdd_step db key (version parsed) is_stale)
          filtered_score_members ([], 0) in
      (OK, cnt, batch ++ [PutMeta key (ModifyCount parsed cnt)])
  | None =>
      let n := Z.of_nat (List.length filtered_score_members) in
      let zsets_meta_value := new_meta_value now n in
      let v := version zsets_meta_value in
      (OK, n,
       PutMeta key zsets_meta_value
         :: flat_map (fun sm =>
              [PutData (member_key key v (member sm)) (score sm);
               PutScore (score_key key v (score sm) (member sm))])
            filtered_score_members)
  end.

Definition ZAdd (db : DB) (now : Z) (key : Slice)
    (score_members : list ScoreMember) : Status * Z * DB :=
  let '(s, ret, batch) := ZAdd_batch db now key score_members in
  (s, ret, Write db batch).

(** A pair whose member the set [unique] already holds. *)
Definition seen (unique : list string) (sm : ScoreMember) : bool :=
  existsb (String.eqb (member sm)) unique.

(** The words of the specification for an input with repeated members: the
    head pair is kept and every later pair with the head's member is
    dropped. *)
Fixpoint first_occurrences (sms : list ScoreMember) : list ScoreMember :=
  match sms with
  | [] => []
  | sm :: rest =>
      sm :: filter (fun x => negb (String.eqb (member x) (member sm)))
              (first_occurrences rest)
  end.

(** What the specification says one input pair contributes to the batch of
    a ZAdd on an existing, non-stale key. *)
Definition pair_contribution (db : DB) (key : Slice) (v : Z)
    (sm : ScoreMember) : WriteBatch :=
  match Get_data db (member_key key v (member sm)) with
  | Some old_score =>
      if deq old_score (score sm) then []
      else [DeleteScore (score_key key v old_score (member sm));
            PutData (member_key key v (member sm)) (score sm);
            PutScore (score_key key v (score sm) (member sm))]
  | None =>
      [PutData (member_key key v (member sm)) (score sm);
       PutScore (score_key key v (score sm) (member sm))]
  end.

Definition absent_from_set (db : DB) (key : Slice) (v : Z)
    (sm : ScoreMember) : bool :=
  match Get_data db (member_key key v (member sm)) with
  | Some _ => false
  | None => true
  end.

(* ================================================================= *)
(** ** Range and rank reads *)

Definition to_score_member (k : ZSetsScoreKey) : ScoreMember :=
  {| score := sk_score k; member := sk_member k |}.

(** The loop shared by ZRange and ZRevrange: rows are visited while
    [cur_index <= stop_index] and collected from [start_index] on. *)
Fixpoint ZRange_loop (iter : list (ZSetsScoreKey * Slice))
    (cur_index start_index stop_index : Z) (out : list ScoreMember)
  : list ScoreMember :=
  match iter with
  | [] => out
  | (k, _) :: iter' =>
      if cur_index <=? stop_index then
        ZRange_loop iter' (cur_index + 1) start_index stop_index
          (if cur_index >=? start_index then out ++ [to_score_member k]
           else out)
      else out
  end.

Definition ZRange (db : DB) (now : Z) (key : Slice) (start stop : Z)
  : Status * list ScoreMember :=
  match Get_meta db key with
  | Some meta_value =>
      if IsStale now meta_value then (NotFound "Stale"%string, [])
      else if count meta_value =? 0 then (NotFound EmptyString, [])
      else
        let count := count meta_value in
        let version := version meta_value in
        let start_index := if start >=? 0 then start else count + start in
        let stop_index := if stop >=? 0 then stop else count + stop in
        let start_index := if start_index <=? 0 then 0 else start_index in
        let stop_index :=
          if stop_index >=? count then count - 1 else stop_index in
        if (start_index >? stop_index) || (start_index >=? count)
           || (stop_index <? 0)
        then (OK, [])
        else
          (OK,
           ZRange_loop
             (Seek_score db (score_key key version double_lowest EmptyString))
             0 start_index stop_index [])
  | None => (NotFound EmptyString, [])
  end.

Definition ZRevrange (db : DB) (now : Z) (key : Slice) (start stop : Z)
  : Status * list ScoreMember :=
  match Get_meta db key with
  | Some meta_value =>
      if IsStale now meta_value then (NotFound "Stale"%string, [])
      else if count meta_value =? 0 then (NotFound EmptyString, [])
      else
        let count := count meta_value in
        let version := version meta_value in
        let start_index := if start >=? 0 then start else count + start in
        let stop_index := if stop >=? 0 then stop else count + stop in
        let start_index := if start_index <=? 0 then 0 else start_index in
        let stop_index :=
          if stop_index >=? count then count - 1 else stop_index in
        if (start_index >? stop_index) || (start_index >=? count)
           || (stop_index <? 0)
        then (OK, [])
        else
          let tmp_sms :=
            ZRange_loop
              (Seek_score db (score_key key version double_lowest EmptyString))
              0 start_index stop_index [] in
          (OK, rev tmp_sms)
  | None => (NotFound EmptyString, [])
  end.

(** The forward search of ZRank: [(found, index)] when the loop ends. *)
Fixpoint ZRank_loop (iter : list (ZSetsScoreKey * Slice))
    (index stop_index : Z) (m : Slice) : bool * Z :=
  match iter with
  | [] => (false, index)
  | (k, _) :: iter' =>
      if index <=? stop_index then
        if String.eqb (sk_member k) m then (true, index)
        else ZRank_loop iter' (index + 1) stop_index m
      else (false, index)
  end.

(** [*rank] is set to -1 on entry and to the index when the member is
    met. *)
Definition ZRank (db : DB) (now : Z) (key m : Slice) : Status * Z :=
  match Get_meta db key with
  | Some meta_value =>
      if IsStale now meta_value then (NotFound "Stale"%string, -1)
      else if count meta_value =? 0 then (NotFound EmptyString, -1)
      else
        let version := version meta_value in
        let stop_index := count meta_value - 1 in
        let '(found, index) :=
          ZRank_loop
            (Seek_score db (score_key key version double_lowest EmptyString))
            0 stop_index m in
        if found then (OK, index) else (NotFound EmptyString, -1)
  | None => (NotFound EmptyString, -1)
  end.

(** The backward search of ZRevrank: rows are visited while
    [left >= 0]. *)
Fixpoint ZRevrank_loop (iter : list (ZSetsScoreKey * Slice))
    (left rev_index : Z) (m : Slice) : bool * Z :=
  match iter with
  | [] => (false, rev_index)
  | (k, _) :: iter' =>
      if left >=? 0 then
        if String.eqb (sk_member k) m then (true, rev_index)
        else ZRevrank_loop iter' (left - 1) (rev_index + 1) m
      else (false, rev_index)
  end.

Definition ZRevrank (db : DB) (now : Z) (key m : Slice) : Status * Z :=
  match Get_meta db key with
  | Some meta_value =>
      if IsStale now meta_value then (NotFound "Stale"%string, -1)
      else if count meta_value =? 0 then (NotFound EmptyString, -1)
      else
        let left := count meta_value in
        let version := version meta_value in
        let '(found, rev_index) :=
          ZRevrank_loop
            (SeekForPrev_score db (score_key key version double_max EmptyString))
            left 0 m in
        if found then (OK, rev_index) else (NotFound EmptyString, -1)
  | None => (NotFound EmptyString, -1)
  end.

Definition ZScore (db : DB) (now : Z) (key m : Slice) : Status * double :=
  match Get_meta db key with
  | Some meta_value =>
      if IsStale now meta_value then (NotFound "Stale"%string, double_of_Z 0)
      else if count meta_value =? 0 then (NotFound EmptyString, double_of_Z 0)
      else
        match Get_data db (member_key key (version meta_value) m) with
        | Some s => (OK, s)
        | None => (NotFound EmptyString, double_of_Z 0)
        end
  | None => (NotFound EmptyString, double_of_Z 0)
  end.

Definition ZCard (db : DB) (now : Z) (key : Slice) : Status * Z :=
  match Get_meta db key with
  | Some meta_value =>
      if IsStale now meta_value then (NotFound "Stale"%string, 0)
      else if count meta_value =? 0 then (NotFound EmptyString, 0)
      else (OK, count meta_value)
  | None => (NotFound EmptyString, 0)
  end.

(* ================================================================= *)
(** ** ZIncrby *)

Definition ZIncrby_batch (db : DB) (now : Z) (key m : Slice)
    (increment : double) : Status * double * WriteBatch :=
  let tail (v : Z) (s : double) :=
    [PutData (member_key key v m) s; PutScore (score_key key v s m)] in
  match Get_meta db key with
  | Some meta_value =>
      let parsed := if IsStale now meta_value
                    then InitialMetaValue now meta_value
                    else meta_value in
      let v := version parsed in
      match Get_data db (member_key key v m) with
      | Some old_score =>
          let s := dadd old_score increment in
          (OK, s, DeleteScore (score_key key v old_score m) :: tail v s)
      | None =>
          let s := increment in
          (OK, s, PutMeta key (ModifyCount parsed 1) :: tail v s)
      end
  | None =>
      let zsets_meta_value := new_meta_value now 1 in
      let s := increment in
      (OK, s,
       PutMeta key zsets_meta_value :: tail (version zsets_meta_value) s)
  end.

Definition ZIncrby (db : DB) (now : Z) (key m : Slice) (increment : double)
  : Status * double * DB :=
  let '(s, ret, batch) := ZIncrby_batch db now key m increment in
  (s, ret, Write db batch).

(* ================================================================= *)
(** ** ZRem and the range removals *)

(** The de-duplication loop that opens ZRem. *)
Fixpoint filter_members (unique : list string) (members : list string)
  : list string :=
  match members with
  | [] => []
  | m :: rest =>
      if existsb (String.eqb m) unique then filter_members unique rest
      else m :: filter_members (m :: unique) rest
  end.

Definition ZRem_step (db : DB) (key : Slice) (v : Z)
    (st : WriteBatch * Z) (m : string) : WriteBatch * Z :=
  let '(batch, del_cnt) := st in
  match Get_data db (member_key key v m) with
  | Some s =>
      (batch ++ [DeleteData (member_key key v m);
                 DeleteScore (score_key key v s m)], del_cnt + 1)
  | None => (batch, del_cnt)
  end.

(** A command that returns before [Write] leaves the database as it was;
    [*ret] is 0 from the first statement on. *)
Definition ZRem (db : DB) (now : Z) (key : Slice) (members : list string)
  : Status * Z * DB :=
  let filtered_members := filter_members [] members in
  match Get_meta db key with
  | Some meta_value =>
      if IsStale now meta_value then (NotFound "Stale"%string, 0, db)
      else if count meta_value =? 0 then (NotFound EmptyString, 0, db)
      else
        let '(batch, del_cnt) :=
          fold_left (ZRem_step db key (version meta_value))
            filtered_members ([], 0) in
        (OK, del_cnt,
         Write db
           (batch ++ [PutMeta key (ModifyCount meta_value (- del_cnt))]))
  | None => (NotFound EmptyString, 0, db)
  end.

Fixpoint ZRemrangebyrank_loop (key : Slice) (v : Z)
    (iter : list (ZSetsScoreKey * Slice))
    (cur_index start_index stop_index : Z) (st : WriteBatch * Z)
  : WriteBatch * Z :=
  match iter with
  | [] => st
  | (k, _) :: iter' =>
      if cur_index <=? stop_index then
        ZRemrangebyrank_loop key v iter' (cur_index + 1) start_index
          stop_index
          (if cur_index >=? start_index then
             (fst st ++ [DeleteData (member_key key v (sk_member k));
                         DeleteScore k], snd st + 1)
           else st)
      else st
  end.

Definition ZRemrangebyrank (db : DB) (now : Z) (key : Slice)
    (start stop : Z) : Status * Z * DB :=
  match Get_meta db key with
  | Some meta_value =>
      if IsStale now meta_value then (NotFound "Stale"%string, 0, db)
      else if count meta_value =? 0 then (NotFound EmptyString, 0, db)
      else
        let count := count meta_value in
        let version := version meta_value in
        let start_index := if start >=? 0 then start else count + start in
        let stop_index := if stop >=? 0 then stop else count + stop in
        let start_index := if start_index <=? 0 then 0 else start_index in
        let stop_index :=
          if stop_index >=? count then count - 1 else stop_index in
        let '(batch, del_cnt) :=
          ZRemrangebyrank_loop key version
            (Seek_score db (score_key key version double_lowest EmptyString))
            0 start_index stop_index ([], 0) in
        (OK, del_cnt,
         Write db
           (batch ++ [PutMeta key (ModifyCount meta_value (- del_cnt))]))
  | None => (NotFound EmptyString, 0, db)
  end.

(** The bound tests of the score ranges. *)
Definition score_left_pass (min : double) (left_close : bool) (s : double)
  : bool :=
  (left_close && dle min s) || (negb left_close && dlt min s).

Definition score_right_pass (max : double) (right_close : bool) (s : double)
  : bool :=
  (right_close && dle s max) || (negb right_close && dlt s max).

Fixpoint ZRemrangebyscore_loop (key : Slice) (v : Z)
    (min max : double) (left_close right_close : bool)
    (iter : list (ZSetsScoreKey * Slice))
    (cur_index stop_index : Z) (st : WriteBatch * Z) : WriteBatch * Z :=
  match iter with
  | [] => st
  | (k, _) :: iter' =>
      if cur_index <=? stop_index then
        let left_pass := score_left_pass min left_close (sk_score k) in
        let right_pass := score_right_pass max right_close (sk_score k) in
        let st' :=
          if left_pass && right_pass then
            (fst st ++ [DeleteData (member_key key v (sk_member k));
                        DeleteScore k], snd st + 1)
          else st in
        if negb right_pass then st'
        else ZRemrangebyscore_loop key v min max left_close right_close
               iter' (cur_index + 1) stop_index st'
      else st
  end.

Definition ZRemrangebyscore (db : DB) (now : Z) (key : Slice)
    (min max : double) (left_close right_close : bool) : Status * Z * DB :=
  match Get_meta db key with
  | Some meta_value =>
      if IsStale now meta_value then (NotFound "Stale"%string, 0, db)
      else if count meta_value =? 0 then (NotFound EmptyString, 0, db)
      else
        let stop_index := count meta_value - 1 in
        let version := version meta_value in
        let '(batch, del_cnt) :=
          ZRemrangebyscore_loop key version min max left_close right_close
            (Seek_score db (score_key key version double_lowest EmptyString))
            0 stop_index ([], 0) in
        (OK, del_cnt,
         Write db
           (batch ++ [PutMeta key (ModifyCount meta_value (- del_cnt))]))
  | None => (NotFound EmptyString, 0, db)
  end.

(** [a.compare(b) <= 0] and friends on slices are the bytewise order. *)
Definition slice_compare (a b : Slice) : comparison := String.compare a b.

Definition lex_left_pass (min : Slice) (left_close : bool) (m : Slice)
  : bool :=
  let left_no_limit := String.eqb min "-"%string in
  left_no_limit
  || (left_close && match slice_compare min m with Gt => false | _ => true end)
  || (negb left_close
      && match slice_compare min m with Lt => true | _ => false end).

Definition lex_right_pass (max : Slice) (right_close : bool) (m : Slice)
  : bool :=
  let right_not_limit := String.eqb max "+"%string in
  right_not_limit
  || (right_close
      && match slice_compare max m with Lt => false | _ => true end)
  || (negb right_close
      && match slice_compare max m with Gt => true | _ => false end).

(** The loop of ZRemrangebylex over the data family. *)
Fixpoint ZRemrangebylex_loop (key : Slice) (v : Z)
    (min max : Slice) (left_close right_close : bool)
    (iter : list (ZSetsMemberKey * double))
    (cur_index stop_index : Z) (st : WriteBatch * Z) : WriteBatch * Z :=
  match iter with
  | [] => st
  | (k, value) :: iter' =>
      if cur_index <=? stop_index then
        let m := mk_member k in
        let left_pass := lex_left_pass min left_close m in
        let right_pass := lex_right_pass max right_close m in
        let st' :=
          if left_pass && right_pass then
            (fst st ++ [DeleteData k; DeleteScore (score_key key v value m)],
             snd st + 1)
          else st in
        if negb right_pass then st'
        else ZRemrangebylex_loop key v min max left_close right_close
               iter' (cur_index + 1) stop_index st'
      else st
  end.

Definition ZRemrangebylex (db : DB) (now : Z) (key : Slice)
    (min max : Slice) (left_close right_close : bool) : Status * Z * DB :=
  match Get_meta db key with
  | Some meta_value =>
      if IsStale now meta_value || (count meta_value =? 0)
      then (NotFound EmptyString, 0, db)
      else
        let version := version meta_value in
        let stop_index := count meta_value - 1 in
        let '(batch, del_cnt) :=
          ZRemrangebylex_loop key version min max left_close right_close
            (Seek_data db (member_key key version EmptyString))
            0 stop_index ([], 0) in
        if del_cnt >? 0 then
          (OK, del_cnt,
           Write db
             (batch ++ [PutMeta key (ModifyCount meta_value (- del_cnt))]))
        else (OK, 0, Write db batch)
  | None => (NotFound EmptyString, 0, db)
  end.

(* ================================================================= *)
(** ** ZUnionstore and ZInterstore *)

(** [(score == -0.0) ? 0 : score] *)
Definition normalize_zero (s : double) : double :=
  if deq s neg_zero then double_of_Z 0 else s.

(** [idx < weights.size() ? weights[idx] : 1] *)
Definition weight_at (weights : list double) (idx : nat) : double :=
  nth idx weights (double_of_Z 1).

Definition aggregate (agg : AGGREGATE) (acc x : double) : double :=
  match agg with
  | SUM => dadd acc x
  | MIN => std_min acc x
  | MAX => std_max acc x
  end.

(** [member_score_map] is a [std::map]: its entries in the order of their
    keys. *)
Definition member_score_map_t := list (string * double).

(** The loop of ZUnionstore over the score rows of one source set. *)
Fixpoint ZUnionstore_scan (iter : list (ZSetsScoreKey * Slice))
    (cur_index stop_index : Z) (weight : double) (agg : AGGREGATE)
    (member_score_map : member_score_map_t) : member_score_map_t :=
  match iter with
  | [] => member_score_map
  | (k, _) :: iter' =>
      if cur_index <=? stop_index then
        let sm := to_score_member k in
        let s :=
          match cf_get String.compare member_score_map (member sm) with
          | None => dmul weight (score sm)
          | Some s0 => aggregate agg s0 (dmul weight (score sm))
          end in
        ZUnionstore_scan iter' (cur_index + 1) stop_index weight agg
          (cf_put String.compare member_score_map (member sm)
             (normalize_zero s))
      else member_score_map
  end.

(** The loop over the source keys, from index [idx]. *)
Fixpoint ZUnionstore_sources (db : DB) (now : Z) (keys : list string)
    (idx : nat) (weights : list double) (agg : AGGREGATE)
    (member_score_map : member_score_map_t) : member_score_map_t :=
  match keys with
  | [] => member_score_map
  | key :: keys' =>
      let map' :=
        match Get_meta db key with
        | Some meta_value =>
            if negb (IsStale now meta_value)
               && negb (count meta_value =? 0)
            then
              ZUnionstore_scan
                (Seek_score db
                   (score_key key (version meta_value) double_lowest
                      EmptyString))
                0 (count meta_value - 1) (weight_at weights idx) agg
                member_score_map
            else member_score_map
        | None => member_score_map
        end in
      ZUnionstore_sources db now keys' (S idx) weights agg map'
  end.

(** The meta row both store commands write for the destination, holding
    [n] members. *)
Definition destination_meta (db : DB) (now : Z) (destination : Slice)
    (n : Z) : ZSetsMetaValue :=
  match Get_meta db destination with
  | Some meta_value => set_count (InitialMetaValue now meta_value) n
  | None => new_meta_value now n
  end.

Definition ZUnionstore_batch (db : DB) (now : Z) (destination : Slice)
    (keys : list string) (weights : list double) (agg : AGGREGATE)
  : Status * Z * WriteBatch :=
  let member_score_map := ZUnionstore_sources db now keys 0 weights agg [] in
  let n := Z.of_nat (List.length member_score_map) in
  let mv := destination_meta db now destination n in
  let v := version mv in
  (OK, n,
   PutMeta destination mv
     :: flat_map (fun sm =>
          [PutData (member_key destination v (fst sm)) (snd sm);
           PutScore (score_key destination v (snd sm) (fst sm))])
        member_score_map).

Definition ZUnionstore (db : DB) (now : Z) (destination : Slice)
    (keys : list string) (weights : list double) (agg : AGGREGATE)
  : Status * Z * DB :=
  let '(s, ret, batch) :=
    ZUnionstore_batch db now destination keys weights agg in
  (s, ret, Write db batch).

(** The first loop of ZInterstore: the state is [have_invalid_zsets],
    [vaild_zsets] and [stop_index]. *)
Fixpoint ZInterstore_sources (db : DB) (now : Z) (keys : list string)
    (idx : nat) (st : bool * list KeyVersion * Z)
  : bool * list KeyVersion * Z :=
  match keys with
  | [] => st
  | key :: keys' =>
      let '(have_invalid_zsets, vaild_zsets, stop_index) := st in
      let st' :=
        match Get_meta db key with
        | Some meta_value =>
            if IsStale now meta_value || (count meta_value =? 0)
            then (true, vaild_zsets, stop_index)
            else
              (have_invalid_zsets,
               vaild_zsets
                 ++ [{| kv_key := key; kv_version := version meta_value |}],
               if Nat.eqb idx 0 then count meta_value - 1 else stop_index)
        | None => (true, vaild_zsets, stop_index)
        end in
      ZInterstore_sources db now keys' (S idx) st'
  end.

(** The rows of the first set, collected while [cur_index <= stop_index]. *)
Fixpoint ZInterstore_scan (iter : list (ZSetsScoreKey * Slice))
    (cur_index stop_index : Z) : list ScoreMember :=
  match iter with
  | [] => []
  | (k, _) :: iter' =>
      if cur_index <=? stop_index
      then to_score_member k :: ZInterstore_scan iter' (cur_index + 1)
                                  stop_index
      else []
  end.

(** The probe of the other sets for one candidate, from index [idx];
    [None] is [reliable = false]. *)
Fixpoint ZInterstore_probe (db : DB) (others : list KeyVersion) (idx : nat)
    (weights : list double) (agg : AGGREGATE) (m : string)
    (item_score : double) : option double :=
  match others with
  | [] => Some item_score
  | kv :: others' =>
      let weight := weight_at weights idx in
      match Get_data db (member_key (kv_key kv) (kv_version kv) m) with
      | Some s =>
          ZInterstore_probe db others' (S idx) weights agg m
            (aggregate agg item_score (dmul weight s))
      | None => None
      end
  end.

Definition ZInterstore_candidates (db : DB) (vaild_zsets : list KeyVersion)
    (stop_index : Z) (weights : list double) (agg : AGGREGATE)
  : list ScoreMember :=
  match vaild_zsets with
  | [] => []
  | first :: others =>
      let score_members :=
        ZInterstore_scan
          (Seek_score db
             (score_key (kv_key first) (kv_version first) double_lowest
                EmptyString))
          0 stop_index in
      flat_map (fun sm =>
          let item_score := dmul (score sm) (weight_at weights 0) in
          match ZInterstore_probe db others 1 weights agg (member sm)
                  item_score with
          | Some s => [{| score := s; member := member sm |}]
          | None => []
          end)
        score_members
  end.

(** [*ret] is [None] while the command has not assigned it. *)
Definition ZInterstore_batch (db : DB) (now : Z) (destination : Slice)
    (keys : list string) (weights : list double) (agg : AGGREGATE)
  : Status * option Z * WriteBatch :=
  if (List.length keys <=? 0)%nat
  then (Corruption "ZInterstore invalid parameter, no keys"%string, None, [])
  else
    let '(have_invalid_zsets, vaild_zsets, stop_index) :=
      ZInterstore_sources db now keys 0 (false, [], 0) in
    let final_score_members :=
      if negb have_invalid_zsets
      then ZInterstore_candidates db vaild_zsets stop_index weights agg
      else [] in
    let n := Z.of_nat (List.length final_score_members) in
    let mv := destination_meta db now destination n in
    let v := version mv in
    (OK, Some n,
     PutMeta destination mv
       :: flat_map (fun sm =>
            [PutData (member_key destination v (member sm)) (score sm);
             PutScore (score_key destination v (score sm) (member sm))])
          final_score_members).

Definition ZInterstore (db : DB) (now : Z) (destination : Slice)
    (keys : list string) (weights : list double) (agg : AGGREGATE)
  : Status * option Z * DB :=
  let '(s, ret, batch) :=
    ZInterstore_batch db now destination keys weights agg in
  (s, ret, Write db batch).

(* ================================================================= *)
(** ** Key lifecycle: Del, TTL, Scan *)

Definition Del (db : DB) (now : Z) (key : Slice) : Status * DB :=
  match Get_meta db key with
  | Some meta_value =>
      if IsStale now meta_value then (NotFound "Stale"%string, db)
      else if count meta_value =? 0 then (NotFound EmptyString, db)
      else (OK, Write db [PutMeta key (InitialMetaValue now meta_value)])
  | None => (NotFound EmptyString, db)
  end.

(** TTL reads the clock twice: [now] is what [IsStale] observes, [curtime]
    what the later [GetCurrentTime] call returns.  The second component is
    [*timestamp]. *)
Definition TTL (db : DB) (now curtime : Z) (key : Slice) : Status * Z :=
  match Get_meta db key with
  | Some meta_value =>
      if IsStale now meta_value then (NotFound "Stale"%string, -2)
      else
        let timestamp := timestamp meta_value in
        if timestamp =? 0 then (OK, -1)
        else
          (OK, if timestamp - curtime >? 0 then timestamp - curtime else -1)
  | None => (NotFound EmptyString, -2)
  end.

Section KeyScan.
(** The glob matcher is an external collaborator: [StringMatch pattern s]. *)
Variable StringMatch : string -> string -> bool.

(** The loop of Scan: the state is the iterator, [*count] and [*keys]. *)
Fixpoint Scan_loop (now : Z) (pattern : string)
    (it : list (Slice * ZSetsMetaValue)) (count : Z) (keys : list string)
  : list (Slice * ZSetsMetaValue) * Z * list string :=
  match it with
  | [] => (it, count, keys)
  | (meta_key, meta_value) :: it' =>
      if count >? 0 then
        if IsStale now meta_value then Scan_loop now pattern it' count keys
        else
          Scan_loop now pattern it' (count - 1)
            (if StringMatch pattern meta_key then keys ++ [meta_key]
             else keys)
      else (it, count, keys)
  end.

Record ScanResult := {
  is_finish : bool;
  scan_keys : list string;
  scan_count : Z;
  next_key : string
}.

Definition Scan (db : DB) (now : Z) (start_key pattern : string)
    (keys : list string) (count : Z) : ScanResult :=
  let '(it, count', keys') :=
    Scan_loop now pattern (Seek_meta db start_key) count keys in
  match it with
  | (k, _) :: _ =>
      {| is_finish := false; scan_keys := keys'; scan_count := count';
         next_key := k |}
  | [] =>
      {| is_finish := true; scan_keys := keys'; scan_count := count';
         next_key := EmptyString |}
  end.
End KeyScan.

(** Modelled from the spec: the pattern matcher is outside the sources;
    section 6 describes a glob matcher.  This one implements the wildcards
    [*] and [?] and literal bytes, which is what the examples below use. *)
Fixpoint glob_match (pattern s : string) : bool :=
  match pattern with
  | EmptyString => match s with EmptyString => true | _ => false end
  | String "*"%char p' =>
      (fix star (t : string) : bool :=
         glob_match p' t
         || match t with
            | EmptyString => false
            | String _ t' => star t'
            end) s
  | String "?"%char p' =>
      match s with
      | EmptyString => false
      | String _ s' => glob_match p' s'
      end
  | String c p' =>
      match s with
      | EmptyString => false
      | String d s' => Ascii.eqb c d && glob_match p' s'
      end
  end.

(* ================================================================= *)
(** ** Counting and ranging by score *)

(** The loop of ZCount: [cnt] when the loop ends. *)
Fixpoint ZCount_loop (min max : double) (left_close right_close : bool)
    (iter : list (ZSetsScoreKey * Slice))
    (cur_index stop_index : Z) (cnt : Z) : Z :=
  match iter with
  | [] => cnt
  | (k, _) :: iter' =>
      if cur_index <=? stop_index then
        let left_pass := score_left_pass min left_close (sk_score k) in
        let right_pass := score_right_pass max right_close (sk_score k) in
        if left_pass && right_pass then
          ZCount_loop min max left_close right_close iter' (cur_index + 1)
            stop_index (cnt + 1)
        else if negb right_pass then cnt
        else ZCount_loop min max left_close right_close iter'
               (cur_index + 1) stop_index cnt
      else cnt
  end.

Definition ZCount (db : DB) (now : Z) (key : Slice) (min max : double)
    (left_close right_close : bool) : Status * Z :=
  match Get_meta db key with
  | Some meta_value =>
      if IsStale now meta_value then (NotFound "Stale"%string, 0)
      else if count meta_value =? 0 then (NotFound EmptyString, 0)
      else
        let version := version meta_value in
        let stop_index := count meta_value - 1 in
        (OK,
         ZCount_loop min max left_close right_close
           (Seek_score db (score_key key version double_lowest EmptyString))
           0 stop_index 0)
  | None => (NotFound EmptyString, 0)
  end.

(** The forward loop of ZRangebyscore. *)
Fixpoint ZRangebyscore_loop (min max : double)
    (left_close right_close : bool) (iter : list (ZSetsScoreKey * Slice))
    (index stop_index : Z) (out : list ScoreMember) : list ScoreMember :=
  match iter with
  | [] => out
  | (k, _) :: iter' =>
      if index <=? stop_index then
        let left_pass := score_left_pass min left_close (sk_score k) in
        let right_pass := score_right_pass max right_close (sk_score k) in
        let out' := if left_pass && right_pass
                    then out ++ [to_score_member k] else out in
        if negb right_pass then out'
        else ZRangebyscore_loop min max left_close right_close iter'
               (index + 1) stop_index out'
      else out
  end.

Definition ZRangebyscore (db : DB) (now : Z) (key : Slice)
    (min max : double) (left_close right_close : bool)
  : Status * list ScoreMember :=
  match Get_meta db key with
  | Some meta_value =>
      if IsStale now meta_value then (NotFound "Stale"%string, [])
      else if count meta_value =? 0 then (NotFound EmptyString, [])
      else
        let version := version meta_value in
        let stop_index := count meta_value - 1 in
        (OK,
         ZRangebyscore_loop min max left_close right_close
           (Seek_score db (score_key key version double_lowest EmptyString))
           0 stop_index [])
  | None => (NotFound EmptyString, [])
  end.

(** The backward loop of ZRevrangebyscore: rows are visited while
    [left > 0], and the loop stops at the first row below the left
    bound. *)
Fixpoint ZRevrangebyscore_loop (min max : double)
    (left_close right_close : bool) (iter : list (ZSetsScoreKey * Slice))
    (left : Z) (out : list ScoreMember) : list ScoreMember :=
  match iter with
  | [] => out
  | (k, _) :: iter' =>
      if left >? 0 then
        let left_pass := score_left_pass min left_close (sk_score k) in
        let right_pass := score_right_pass max right_close (sk_score k) in
        let out' := if left_pass && right_pass
                    then out ++ [to_score_member k] else out in
        if negb left_pass then out'
        else ZRevrangebyscore_loop min max left_close right_close iter'
               (left - 1) out'
      else out
  end.

Definition ZRevrangebyscore (db : DB) (now : Z) (key : Slice)
    (min max : double) (left_close right_close : bool)
  : Status * list ScoreMember :=
  match Get_meta db key with
  | Some meta_value =>
      if IsStale now meta_value then (NotFound "Stale"%string, [])
      else if count meta_value =? 0 then (NotFound EmptyString, [])
      else
        let version := version meta_value in
        let left := count meta_value in
        (OK,
         ZRevrangebyscore_loop min max left_close right_close
           (SeekForPrev_score db
              (score_key key version double_max EmptyString))
           left [])
  | None => (NotFound EmptyString, [])
  end.

(* ================================================================= *)
(** ** Ranging by member *)

Fixpoint ZRangebylex_loop (min max : Slice) (left_close right_close : bool)
    (iter : list (ZSetsMemberKey * double))
    (cur_index stop_index : Z) (members : list string) : list string :=
  match iter with
  | [] => members
  | (k, _) :: iter' =>
      if cur_index <=? stop_index then
        let m := mk_member k in
        let left_pass := lex_left_pass min left_close m in
        let right_pass := lex_right_pass max right_close m in
        let members' := if left_pass && right_pass
                        then members ++ [m] else members in
        if negb right_pass then members'
        else ZRangebylex_loop min max left_close right_close iter'
               (cur_index + 1) stop_index members'
      else members
  end.

Definition ZRangebylex (db : DB) (now : Z) (key : Slice)
    (min max : Slice) (left_close right_close : bool)
  : Status * list string :=
  match Get_meta db key with
  | Some meta_value =>
      if IsStale now meta_value || (count meta_value =? 0)
      then (NotFound EmptyString, [])
      else
        let version := version meta_value in
        let stop_index := count meta_value - 1 in
        (OK,
         ZRangebylex_loop min max left_close right_close
           (Seek_data db (member_key key version EmptyString))
           0 stop_index [])
  | None => (NotFound EmptyString, [])
  end.

Definition ZLexcount (db : DB) (now : Z) (key : Slice)
    (min max : Slice) (left_close right_close : bool) : Status * Z :=
  let '(s, members) :=
    ZRangebylex db now key min max left_close right_close in
  (s, Z.of_nat (List.length members)).

(* ================================================================= *)
(** ** Expiry *)

(** Modelled from the spec: [SetRelativeTimestamp] is declared in a header
    outside the sources; section 4.5 gives "set meta.timestamp = now +
    ttl". *)
Definition SetRelativeTimestamp (now : Z) (mv : ZSetsMetaValue) (ttl : Z)
  : ZSetsMetaValue :=
  set_timestamp mv (now + ttl).

Definition Expire (db : DB) (now : Z) (key : Slice) (ttl : Z)
  : Status * DB :=
  match Get_meta db key with
  | Some meta_value =>
      if IsStale now meta_value then (NotFound EmptyString, db)
      else
        let parsed := if ttl >? 0
                      then SetRelativeTimestamp now meta_value ttl
                      else InitialMetaValue now meta_value in
        (OK, Write db [PutMeta key parsed])
  | None => (NotFound EmptyString, db)
  end.

Definition Expireat (db : DB) (now : Z) (key : Slice) (ts : Z)
  : Status * DB :=
  match Get_meta db key with
  | Some meta_value =>
      if IsStale now meta_value then (NotFound "Stale"%string, db)
      else (OK, Write db [PutMeta key (set_timestamp meta_value ts)])
  | None => (NotFound EmptyString, db)
  end.

Definition Persist (db : DB) (now : Z) (key : Slice) : Status * DB :=
  match Get_meta db key with
  | Some meta_value =>
      if IsStale now meta_value then (NotFound "Stale"%string, db)
      else if timestamp meta_value =? 0
      then (NotFound "Not have an associated timeout"%string, db)
      else (OK, Write db [PutMeta key (set_timestamp meta_value 0)])
  | None => (NotFound EmptyString, db)
  end.

(* ================================================================= *)
(** ** Key counting *)

(** The test shared by ScanKeyNum and ScanKeys: not stale and not empty. *)
Definition countable (now : Z) (row : Slice * ZSetsMetaValue) : bool :=
  negb (IsStale now (snd row)) && negb (count (snd row) =? 0).

Fixpoint ScanKeyNum_loop (now : Z) (iter : list (Slice * ZSetsMetaValue))
    (count : Z) : Z :=
  match iter with
  | [] => count
  | row :: iter' =>
      ScanKeyNum_loop now iter'
        (if countable now row then count + 1 else count)
  end.

(** [SeekToFirst] is the whole family. *)
Definition ScanKeyNum (db : DB) (now : Z) : Status * Z :=
  (OK, ScanKeyNum_loop now (meta_cf db) 0).

Section KeyListing.
Variable StringMatch : string -> string -> bool.

Fixpoint ScanKeys_loop (now : Z) (pattern : string)
    (iter : list (Slice * ZSetsMetaValue)) (keys : list string)
  : list string :=
  match iter with
  | [] => keys
  | row :: iter' =>
      ScanKeys_loop now pattern iter'
        (if countable now row then
           if StringMatch pattern (fst row) then keys ++ [fst row] else keys
         else keys)
  end.

Definition ScanKeys (db : DB) (now : Z) (pattern : string)
    (keys : list string) : Status * list string :=
  (OK, ScanKeys_loop now pattern (meta_cf db) keys).
End KeyListing.

(* ================================================================= *)
(** ** ZScan and its cursor store *)

(** [zscan_cursors_store_]: the map from index keys to resume members, the
    list of index keys in order of use, and the capacity. *)
Record ZScanCursorsStore := {
  map_ : list (string * string);
  list_ : list string;
  max_size_ : nat
}.

Fixpoint map_find (m : list (string * string)) (k : string)
  : option string :=
  match m with
  | [] => None
  | (k', v) :: rest => if String.eqb k' k then Some v else map_find rest k
  end.

Definition map_erase (m : list (string * string)) (k : string)
  : list (string * string) :=
  filter (fun e => negb (String.eqb (fst e) k)) m.

(** [map_[k] = v] *)
Definition map_assign (m : list (string * string)) (k v : string)
  : list (string * string) :=
  (k, v) :: map_erase m k.

(** [list_.remove(k)] drops every element equal to [k]. *)
Definition list_remove (l : list string) (k : string) : list string :=
  filter (fun e => negb (String.eqb e k)) l.

(** [key + "_" + pattern + "_" + std::to_string(cursor)] *)
Definition index_key (key pattern : string) (cursor : Z) : string :=
  (key ++ "_" ++ pattern ++ "_"
   ++ NilZero.string_of_int (Z.to_int cursor))%string.

Definition GetZScanStartMember (store : ZScanCursorsStore)
    (key pattern : string) (cursor : Z) : Status * option string :=
  match map_find (map_ store) (index_key key pattern cursor) with
  | None => (NotFound EmptyString, None)
  | Some start_member => (OK, Some start_member)
  end.

Definition StoreZScanNextMember (store : ZScanCursorsStore)
    (key pattern : string) (cursor : Z) (next_member : string)
  : ZScanCursorsStore :=
  let index_key := index_key key pattern cursor in
  let store1 :=
    if (max_size_ store <? List.length (list_ store))%nat then
      let tail := last (list_ store) EmptyString in
      {| map_ := map_erase (map_ store) tail;
         list_ := removelast (list_ store);
         max_size_ := max_size_ store |}
    else store in
  {| map_ := map_assign (map_ store1) index_key next_member;
     list_ := index_key :: list_remove (list_ store1) index_key;
     max_size_ := max_size_ store1 |}.

Section MemberScan.
Variable StringMatch : string -> string -> bool.

(** The loop of ZScan over the data family: the state is the iterator,
    [rest] and [*score_members]. *)
Fixpoint ZScan_loop (pattern prefix : string)
    (iter : list (ZSetsMemberKey * double)) (rest : Z)
    (out : list ScoreMember)
  : list (ZSetsMemberKey * double) * Z * list ScoreMember :=
  match iter with
  | [] => (iter, rest, out)
  | (k, value) :: iter' =>
      if (rest >? 0) && String.prefix prefix (ZSetsMemberKey_Encode k) then
        ZScan_loop pattern prefix iter' (rest - 1)
          (if StringMatch pattern (mk_member k)
           then out ++ [{| score := value; member := mk_member k |}]
           else out)
      else (iter, rest, out)
  end.

Record ZScanResult := {
  zscan_status : Status;
  zscan_members : list ScoreMember;
  zscan_next_cursor : Z;
  zscan_store : ZScanCursorsStore
}.

(** [step_length] is the argument [count] of the source, which is also
    the initial [rest]. *)
Definition ZScan (db : DB) (store : ZScanCursorsStore) (now : Z)
    (key : Slice) (cursor : Z) (pattern : string) (step_length : Z)
  : ZScanResult :=
  if cursor <? 0 then
    {| zscan_status := OK; zscan_members := []; zscan_next_cursor := 0;
       zscan_store := store |}
  else
    match Get_meta db key with
    | Some meta_value =>
        if IsStale now meta_value || (count meta_value =? 0) then
          {| zscan_status := NotFound EmptyString; zscan_members := [];
             zscan_next_cursor := 0; zscan_store := store |}
        else
          let version := version meta_value in
          let '(cursor, start_member) :=
            match GetZScanStartMember store key pattern cursor with
            | (_, Some start_member) => (cursor, start_member)
            | (_, None) => (0, EmptyString)
            end in
          let prefix :=
            ZSetsMemberKey_Encode (member_key key version EmptyString) in
          let '(iter, _, score_members) :=
            ZScan_loop pattern prefix
              (Seek_data db (member_key key version start_member))
              step_length [] in
          match iter with
          | (k, _) :: _ =>
              if String.prefix prefix (ZSetsMemberKey_Encode k) then
                let next_cursor := cursor + step_length in
                {| zscan_status := OK; zscan_members := score_members;
                   zscan_next_cursor := next_cursor;
                   zscan_store :=
                     StoreZScanNextMember store key pattern next_cursor
                       (mk_member k) |}
              else
                {| zscan_status := OK; zscan_members := score_members;
                   zscan_next_cursor := 0; zscan_store := store |}
          | [] =>
              {| zscan_status := OK; zscan_members := score_members;
                 zscan_next_cursor := 0; zscan_store := store |}
          end
    | None =>
        {| zscan_status := NotFound EmptyString; zscan_members := [];
           zscan_next_cursor := 0; zscan_store := store |}
    end.
End MemberScan.

(* ================================================================= *)
(** ** The claims of the specification that the code departs from, in its
       words, and the databases the examples run on *)

(** The specification on TTL: on a live key (its expiry has not passed
    and its count is not 0) that has an expiry, TTL reports the seconds
    that remain, at least 1. *)
Definition TTL_reports_remaining (db : DB) (now curtime : Z) (key : Slice)
  : Prop :=
  forall mv,
    Get_meta db key = Some mv ->
    IsStale now mv = false ->
    count mv <> 0 ->
    timestamp mv <> 0 ->
    snd (TTL db now curtime key) = timestamp mv - curtime
    /\ 1 <= snd (TTL db now curtime key).

Open Scope string_scope.

Definition one : double := double_of_Z 1.

(** One set [k] of one member that expires at 100. *)
Definition ttl_db : DB :=
  {| meta_cf := [("k", {| version := 90; count := 1; timestamp := 100 |})];
     data_cf := [(member_key "k" 90 "a", one)];
     score_cf := [(score_key "k" 90 one "a", EmptyString)] |}.

Close Scope string_scope.

(** A source of ZInterstore that is absent, stale or empty. *)
Definition source_invalid (db : DB) (now : Z) (key : string) : bool :=
  match Get_meta db key with
  | None => true
  | Some mv => IsStale now mv || (count mv =? 0)
  end.

(** The meta rows a Scan call has visited: those before the position its
    iterator ends on. *)
Definition Scan_visited (StringMatch : string -> string -> bool) (db : DB)
    (now : Z) (start_key pattern : string) (keys : list string) (count : Z)
  : list (Slice * ZSetsMetaValue) :=
  let seek := Seek_meta db start_key in
  let rest := fst (fst (Scan_loop StringMatch now pattern seek count keys)) in
  firstn (List.length seek - List.length rest) seek.

Definition matching_row (StringMatch : string -> string -> bool)
    (pattern : string) (row : Slice * ZSetsMetaValue) : bool :=
  StringMatch pattern (fst row).

(** The specification on the budget of Scan: [count] goes down by one for
    each visited live key that matches the pattern.  A live key is one
    that is not stale and not empty, the test [countable]. *)
Definition Scan_budget_per_match (StringMatch : string -> string -> bool)
    (db : DB) (now : Z) (start_key pattern : string) (keys : list string)
    (count : Z) : Prop :=
  scan_count (Scan StringMatch db now start_key pattern keys count)
  = count
    - Z.of_nat
        (List.length
           (filter (fun row => countable now row
                               && matching_row StringMatch pattern row)
              (Scan_visited StringMatch db now start_key pattern keys
                 count))).

(** The specification on the result of Scan: [is_finish] is true exactly
    when the iterator was exhausted before [count] reached zero, that is
    when every row from [start_key] on was visited and budget is left. *)
Definition Scan_finish_before_budget
    (StringMatch : string -> string -> bool) (db : DB) (now : Z)
    (start_key pattern : string) (keys : list string) (count : Z) : Prop :=
  let r := Scan StringMatch db now start_key pattern keys count in
  is_finish r = true
  <-> Scan_visited StringMatch db now start_key pattern keys count
      = Seek_meta db start_key
      /\ 0 < scan_count r.

Open Scope string_scope.

(** Two live keys, [a] and [b]. *)
Definition scan_db : DB :=
  {| meta_cf := [("a", {| version := 90; count := 1; timestamp := 0 |});
                 ("b", {| version := 90; count := 1; timestamp := 0 |})];
     data_cf := [(member_key "a" 90 "x", one); (member_key "b" 90 "y", one)];
     score_cf := [(score_key "a" 90 one "x", EmptyString);
                  (score_key "b" 90 one "y", EmptyString)] |}.

(** [scan_db] after Del of [a] at clock 1: the meta row of [a] stays,
    with count 0 and no expiry. *)
Definition emptied_db : DB := snd (Del scan_db 1 "a").

Close Scope string_scope.

(** A member lies within the lex bounds when it passes both tests. *)
Definition lex_in_range (min max : Slice) (left_close right_close : bool)
    (m : Slice) : bool :=
  lex_left_pass min left_close m && lex_right_pass max right_close m.

(* ================================================================= *)
(** ** The invariant P1 of the specification *)

Definition data_rows (db : DB) (key : Slice) (v : Z)
  : list (ZSetsMemberKey * double) :=
  filter (fun row => String.eqb (mk_key (fst row)) key
                     && (mk_version (fst row) =? v))
    (data_cf db).

Definition score_rows (db : DB) (key : Slice) (v : Z)
  : list (ZSetsScoreKey * Slice) :=
  filter (fun row => String.eqb (sk_key (fst row)) key
                     && (sk_version (fst row) =? v))
    (score_cf db).

(** A meta row is live when it is not stale and its count is not 0. *)
Definition live (now : Z) (mv : ZSetsMetaValue) : bool :=
  negb (IsStale now mv) && negb (count mv =? 0).

(** P1: for every live meta row, as many data rows and as many score rows
    under its key and version as its count. *)
Definition P1 (db : DB) (now : Z) : Prop :=
  forall key mv,
    Get_meta db key = Some mv ->
    live now mv = true ->
    Z.of_nat (List.length (data_rows db key (version mv))) = count mv
    /\ Z.of_nat (List.length (score_rows db key (version mv))) = count mv.

Open Scope string_scope.

Definition zero : double := double_of_Z 0.

(** The set [k1] holds [a] at minus infinity and [b] at 1; the set [k2]
    holds [c] at 0.  Both are built by ZAdd on the empty database. *)
Definition two_sets_db : DB :=
  let db1 :=
    snd (ZAdd empty_db 100 "k1"
           [{| score := neg_infinity; member := "a" |};
            {| score := one; member := "b" |}]) in
  snd (ZAdd db1 100 "k2" [{| score := zero; member := "c" |}]).

(** The set [k1] holds [a] at 1 and the set [k2] holds [b] at 1. *)
Definition rank_db : DB :=
  let db1 := snd (ZAdd empty_db 100 "k1" [{| score := one; member := "a" |}])
  in snd (ZAdd db1 100 "k2" [{| score := one; member := "b" |}]).

(** The set [s] holds [a] at 0. *)
Definition zero_db : DB :=
  snd (ZAdd empty_db 100 "s" [{| score := zero; member := "a" |}]).

Close Scope string_scope.

Open Scope string_scope.

(** The set [k] holds [a] at 1 and [b] at 2. *)
Definition pair_db : DB :=
  snd (ZAdd empty_db 100 "k"
         [{| score := one; member := "a" |};
          {| score := double_of_Z 2; member := "b" |}]).

(** An input that changes [a], repeats [b] with its score, adds [c] and
    names [a] a second time. *)
Definition pair_input : list ScoreMember :=
  [{| score := double_of_Z 5; member := "a" |};
   {| score := double_of_Z 2; member := "b" |};
   {| score := double_of_Z 3; member := "c" |};
   {| score := double_of_Z 7; member := "a" |}].

Definition pair_meta : ZSetsMetaValue :=
  {| version := 100; count := 2; timestamp := 0 |}.

Close Scope string_scope.

(** The member a score row holds. *)
Definition row_member (row : ZSetsScoreKey * Slice) : Slice :=
  sk_member (fst row).

(* ================================================================= *)
(** ** The seed scenarios of the specification *)

Open Scope string_scope.

Definition scored (z : Z) (m : string) : ScoreMember :=
  {| score := double_of_Z z; member := m |}.

(** [z / 2] as a double. *)
Definition halves (z : Z) : double := binary_normalize 53 1024 z (-1) false.

(** ZADD k 1.0 a 2.0 b 3.0 c *)
Definition scenario_1 : Status * Z * DB :=
  ZAdd empty_db 100 "k" [scored 1 "a"; scored 2 "b"; scored 3 "c"].

(** ZADD k 2.0 a on the above *)
Definition scenario_2 : Status * Z * DB :=
  ZAdd (snd scenario_1) 100 "k" [scored 2 "a"].

(** ZINCRBY k -0.5 b *)
Definition scenario_3 : Status * double * DB :=
  ZIncrby (snd scenario_2) 100 "k" "b" (halves (-1)).

(** ZREMRANGEBYSCORE k (1.5 3 *)
Definition scenario_4 : Status * Z * DB :=
  ZRemrangebyscore (snd scenario_3) 100 "k" (halves 3) (double_of_Z 3)
    false true.

(** ZUNIONSTORE dst 2 s1 s2 WEIGHTS 2 3 AGGREGATE MAX *)
Definition scenario_5 : Status * Z * DB :=
  let db1 := snd (ZAdd empty_db 100 "s1" [scored 1 "x"; scored 2 "y"]) in
  let db2 := snd (ZAdd db1 100 "s2" [scored 1 "y"; scored 4 "z"]) in
  ZUnionstore db2 100 "dst" ["s1"; "s2"] [double_of_Z 2; double_of_Z 3] MAX.

Close Scope string_scope.

(* ================================================================= *)
(** ** The families a batch operation writes to *)

Definition is_meta_op (op : BatchOp) : bool :=
  match op with PutMeta _ _ => true | _ => false end.

Definition is_data_op (op : BatchOp) : bool :=
  match op with PutData _ _ | DeleteData _ => true | _ => false end.

Definition is_score_op (op : BatchOp) : bool :=
  match op with PutScore _ | DeleteScore _ => true | _ => false end.

(** The operation writes no meta row other than the one of [key]. *)
Definition meta_only_on (key : Slice) (op : BatchOp) : bool :=
  match op with PutMeta k _ => String.eqb k key | _ => true end.

(* ================================================================= *)
(** ** Resolved indices and bound tests, for stating the range results *)

(** The index computations of ZRange, ZRevrange and ZRemrangebyrank. *)
Definition start_index_of (count start : Z) : Z :=
  let start_index := if start >=? 0 then start else count + start in
  if start_index <=? 0 then 0 else start_index.

Definition stop_index_of (count stop : Z) : Z :=
  let stop_index := if stop >=? 0 then stop else count + stop in
  if stop_index >=? count then count - 1 else stop_index.

(** The rows of a list from position [first] to position [last]. *)
Definition window {A : Type} (first last : Z) (rows : list A) : list A :=
  firstn (Z.to_nat (last - first + 1)) (skipn (Z.to_nat first) rows).

Definition score_in_range (min max : double) (left_close right_close : bool)
    (s : double) : bool :=
  score_left_pass min left_close s && score_right_pass max right_close s.

(** The longest prefix of a list whose elements all pass [f]. *)
Fixpoint take_while {A : Type} (f : A -> bool) (l : list A) : list A :=
  match l with
  | [] => []
  | x :: rest => if f x then x :: take_while f rest else []
  end.

(** What a scan with a break selects among the rows it may visit: the rows
    that pass [keep], up to the first row that fails [go_on]. *)
Definition scan_select {A : Type} (keep go_on : A -> bool) (n : Z)
    (rows : list A) : list A :=
  filter keep (take_while go_on (firstn (Z.to_nat n) rows)).

(** The bound tests on the rows of the score and data families. *)
Definition score_row_in_range (min max : double)
    (left_close right_close : bool) (row : ZSetsScoreKey * Slice) : bool :=
  score_in_range min max left_close right_close (sk_score (fst row)).

Definition score_row_right_pass (max : double) (right_close : bool)
    (row : ZSetsScoreKey * Slice) : bool :=
  score_right_pass max right_close (sk_score (fst row)).

Definition score_row_left_pass (min : double) (left_close : bool)
    (row : ZSetsScoreKey * Slice) : bool :=
  score_left_pass min left_close (sk_score (fst row)).

Definition lex_row_in_range (min max : Slice) (left_close right_close : bool)
    (row : ZSetsMemberKey * double) : bool :=
  lex_in_range min max left_close right_close (mk_member (fst row)).

Definition lex_row_right_pass (max : Slice) (right_close : bool)
    (row : ZSetsMemberKey * double) : bool :=
  lex_right_pass max right_close (mk_member (fst row)).

(** What one named member contributes to the batch of ZRem. *)
Definition removal_of (db : DB) (key : Slice) (v : Z) (m : string)
  : WriteBatch :=
  match Get_data db (member_key key v m) with
  | Some s => [DeleteData (member_key key v m);
               DeleteScore (score_key key v s m)]
  | None => []
  end.

Definition in_set (db : DB) (key : Slice) (v : Z) (m : string) : bool :=
  match Get_data db (member_key key v m) with
  | Some _ => true
  | None => false
  end.

Definition is_delete (op : BatchOp) : bool :=
  match op with DeleteData _ | DeleteScore _ => true | _ => false end.

(* ================================================================= *)
(** ** Point reads of the data family through a batch *)

(** The operation writes or deletes the data row that a point read of [k]
    returns. *)
Definition touches_data (k : ZSetsMemberKey) (op : BatchOp) : bool :=
  match op with
  | PutData k' _ | DeleteData k' =>
      String.eqb (ZSetsMemberKey_Encode k') (ZSetsMemberKey_Encode k)
  | _ => false
  end.

(** What a point read of [k] returns after [op], from what it returned
    before. *)
Definition data_effect (k : ZSetsMemberKey) (cur : option double)
    (op : BatchOp) : option double :=
  match op with
  | PutData k' s =>
      if String.eqb (ZSetsMemberKey_Encode k') (ZSetsMemberKey_Encode k)
      then Some s else cur
  | DeleteData k' =>
      if String.eqb (ZSetsMemberKey_Encode k') (ZSetsMemberKey_Encode k)
      then None else cur
  | _ => cur
  end.

(** The two puts ZAdd issues for a pair it writes. *)
Definition ZAdd_puts (key : Slice) (v : Z) (sm : ScoreMember) : WriteBatch :=
  [PutData (member_key key v (member sm)) (score sm);
   PutScore (score_key key v (score sm) (member sm))].

(** The meta row ZAdd commits and what each pair it works on contributes to
    the batch, by the state of the key. *)
Definition ZAdd_meta (db : DB) (now : Z) (key : Slice)
    (filtered : list ScoreMember) : ZSetsMetaValue :=
  match Get_meta db key with
  | Some mv =>
      if IsStale now mv
      then ModifyCount (InitialMetaValue now mv)
             (Z.of_nat (List.length filtered))
      else ModifyCount mv
             (Z.of_nat
                (List.length
                   (filter (absent_from_set db key (version mv)) filtered)))
  | None => new_meta_value now (Z.of_nat (List.length filtered))
  end.

Definition ZAdd_contribution (db : DB) (now : Z) (key : Slice)
    (sm : ScoreMember) : WriteBatch :=
  match Get_meta db key with
  | Some mv =>
      if IsStale now mv
      then ZAdd_puts key (version (InitialMetaValue now mv)) sm
      else pair_contribution db key (version mv) sm
  | None => ZAdd_puts key (version (new_meta_value now 0)) sm
  end.

(* ================================================================= *)
(** ** The rows the store commands read *)

(** The score rows a store command scans for the source [key]: the first
    [count] rows from the seek position of the key when it is live and not
    empty, none otherwise. *)
Definition source_rows (db : DB) (now : Z) (key : string)
  : list (ZSetsScoreKey * Slice) :=
  match Get_meta db key with
  | Some mv =>
      if negb (IsStale now mv) && negb (count mv =? 0)
      then firstn (Z.to_nat (count mv))
             (Seek_score db
                (score_key key (version mv) double_lowest EmptyString))
      else []
  | None => []
  end.

(** The keys of a map go up strictly in byte order, as those of a
    [std::map] do. *)
Fixpoint ascending {V : Type} (l : list (string * V)) : Prop :=
  match l with
  | [] => True
  | (k, _) :: rest =>
      Forall (fun row => String.compare k (fst row) = Lt) rest
      /\ ascending rest
  end.

(** An entry of [member_score_map] as a score member. *)
Definition entry_score_member (entry : string * double) : ScoreMember :=
  {| score := snd entry; member := fst entry |}.

(** The entry ZInterstore keeps in [vaild_zsets] for a valid source. *)
Definition key_version (db : DB) (key : string) : KeyVersion :=
  {| kv_key := key;
     kv_version := match Get_meta db key with
                   | Some mv => version mv
                   | None => 0
                   end |}.

(** The member has a data row in every one of the sets [others]. *)
Definition in_all_sets (db : DB) (others : list KeyVersion) (m : string)
  : bool :=
  forallb (fun kv => in_set db (kv_key kv) (kv_version kv) m) others.

(* ================================================================= *)
(** ** The pages of ZScan *)

(** The key of a data row starts with the prefix of the set [key] at
    version [v]. *)
Definition in_set_prefix (key : Slice) (v : Z)
    (row : ZSetsMemberKey * double) : bool :=
  String.prefix (ZSetsMemberKey_Encode (member_key key v EmptyString))
    (ZSetsMemberKey_Encode (fst row)).

(** The cursor and the start member ZScan goes on with after the look-up
    in the cursor store. *)
Definition ZScan_start (store : ZScanCursorsStore) (key pattern : string)
    (cursor : Z) : Z * string :=
  match GetZScanStartMember store key pattern cursor with
  | (_, Some start_member) => (cursor, start_member)
  | (_, None) => (0, EmptyString)
  end.

(** The score member ZScan returns for a data row. *)
Definition data_row_score_member (row : ZSetsMemberKey * double)
  : ScoreMember :=
  {| score := snd row; member := mk_member (fst row) |}.

(** The cursor store holds each index key once in its list, its map has
    an entry exactly for the keys of the list, and the list is at most
    one longer than the capacity. *)
Definition cursor_store_ok (store : ZScanCursorsStore) : Prop :=
  NoDup (list_ store)
  /\ (forall k, map_find (map_ store) k <> None <-> In k (list_ store))
  /\ (List.length (list_ store) <= S (max_size_ store))%nat.

Definition empty_cursor_store (max_size : nat) : ZScanCursorsStore :=
  {| map_ := []; list_ := []; max_size_ := max_size |}.

(** The data family is in the store's order: the encoded keys go up
    strictly. *)
Fixpoint data_ascending (rows : list (ZSetsMemberKey * double)) : Prop :=
  match rows with
  | [] => True
  | (k, _) :: rest =>
      Forall (fun row => ZSetsMemberKey_compare k (fst row) = Lt) rest
      /\ data_ascending rest
  end.

(** A data row whose encoded key starts with the prefix of the set [key]
    at version [v] is a row of that set: parsing the encoded key gives
    back [key] and [v]. *)
Definition prefix_rows_parse (db : DB) (key : Slice) (v : Z) : Prop :=
  Forall (fun row =>
            in_set_prefix key v row = true ->
            mk_key (fst row) = key /\ mk_version (fst row) = v)
    (data_cf db).

(* ================================================================= *)
(** * Properties *)

(* ----------------------------------------------------------------- *)
(** ** The model on the seed scenarios of the specification *)

Local Open Scope string_scope.

Example scenario_1_result :
  fst scenario_1 = (OK, 3)
  /\ ZRange (snd scenario_1) 100 "k" 0 (-1)
     = (OK, [scored 1 "a"; scored 2 "b"; scored 3 "c"])
  /\ ZCard (snd scenario_1) 100 "k" = (OK, 3).
Proof. now vm_compute. Qed.

Example scenario_2_result :
  fst scenario_2 = (OK, 0)
  /\ ZScore (snd scenario_2) 100 "k" "a" = (OK, double_of_Z 2).
Proof. now vm_compute. Qed.

Example scenario_3_result :
  fst scenario_3 = (OK, halves 3)
  /\ ZRange (snd scenario_3) 100 "k" 0 (-1)
     = (OK, [{| score := halves 3; member := "b" |}; scored 2 "a";
             scored 3 "c"]).
Proof. now vm_compute. Qed.

Example scenario_4_result :
  fst scenario_4 = (OK, 2)
  /\ ZRange (snd scenario_4) 100 "k" 0 (-1)
     = (OK, [{| score := halves 3; member := "b" |}]).
Proof. now vm_compute. Qed.

Example scenario_5_result :
  fst scenario_5 = (OK, 3)
  /\ ZRange (snd scenario_5) 100 "dst" 0 (-1)
     = (OK, [scored 2 "x"; scored 4 "y"; scored 12 "z"])
  /\ ZCard (snd scenario_5) 100 "dst" = (OK, 3).
Proof. now vm_compute. Qed.

Local Close Scope string_scope.

(* ----------------------------------------------------------------- *)
(** ** De-duplication of the ZAdd input *)

Lemma filter_filter_ext (A : Type) (f g h : A -> bool) (l : list A) :
  (forall x, h x = f x && g x) ->
  filter f (filter g l) = filter h l.
Proof.
  intros Hh. induction l as [|x l IH]; simpl; [reflexivity|].
  rewrite Hh. destruct (g x); simpl.
  - rewrite andb_true_r. destruct (f x); simpl; now rewrite IH.
  - rewrite andb_false_r. exact IH.
Qed.

Lemma filter_score_members_spec (unique : list string)
    (sms : list ScoreMember) :
  filter_score_members unique sms
  = filter (fun x => negb (seen unique x)) (first_occurrences sms).
Proof.
  revert unique. induction sms as [|sm rest IH]; intros unique; simpl.
  - reflexivity.
  - fold (seen unique sm). destruct (seen unique sm) eqn:Hs; simpl.
    + rewrite IH. symmetry. apply filter_filter_ext.
      intros x. destruct (String.eqb_spec (member x) (member sm)) as [e|n].
      * unfold seen in *. rewrite e, Hs. reflexivity.
      * simpl. now rewrite andb_true_r.
    + f_equal. rewrite IH. symmetry. apply filter_filter_ext.
      intros x. unfold seen. simpl.
      rewrite negb_orb. apply andb_comm.
Qed.

Lemma filter_score_members_first (sms : list ScoreMember) :
  filter_score_members [] sms = first_occurrences sms.
Proof.
  rewrite filter_score_members_spec.
  generalize (first_occurrences sms) as l.
  induction l as [|x l IH]; simpl; [reflexivity|].
  f_equal. exact IH.
Qed.

Lemma first_occurrences_filter (f : ScoreMember -> bool)
    (sms : list ScoreMember) :
  (forall x y, member x = member y -> f x = f y) ->
  first_occurrences (filter f sms) = filter f (first_occurrences sms).
Proof.
  intros Hf. induction sms as [|sm rest IH]; simpl; [reflexivity|].
  destruct (f sm) eqn:E; simpl.
  - rewrite IH. f_equal.
    rewrite (filter_filter_ext _ f _
               (fun x => f x && negb (String.eqb (member x) (member sm))));
      [|reflexivity].
    apply filter_filter_ext. intros x. apply andb_comm.
  - rewrite IH.
    rewrite (filter_filter_ext _ f _ f); [reflexivity|].
    intros x. destruct (String.eqb_spec (member x) (member sm)) as [e|n].
    + rewrite (Hf _ _ e), E. reflexivity.
    + simpl. now rewrite andb_true_r.
Qed.

Lemma first_occurrences_idem (sms : list ScoreMember) :
  first_occurrences (first_occurrences sms) = first_occurrences sms.
Proof.
  induction sms as [|sm rest IH]; simpl; [reflexivity|].
  f_equal. rewrite first_occurrences_filter.
  - rewrite IH.
    apply filter_filter_ext. intros x. now rewrite andb_diag.
  - intros x y e. now rewrite e.
Qed.

Lemma first_occurrences_find (sms : list ScoreMember) (sm : ScoreMember) :
  In sm (first_occurrences sms)
  <-> find (fun x => String.eqb (member x) (member sm)) sms = Some sm.
Proof.
  induction sms as [|sm0 rest IH]; simpl.
  - split; [tauto | discriminate].
  - rewrite filter_In, IH.
    destruct (String.eqb_spec (member sm0) (member sm)) as [e|n].
    + split.
      * intros [-> | [_ H]]; [reflexivity|].
        rewrite e, String.eqb_refl in H. discriminate.
      * intros [= ->]. now left.
    + split.
      * intros [-> | [H _]]; [congruence | exact H].
      * intros H. right. split; [exact H|].
        apply negb_true_iff, String.eqb_neq. congruence.
Qed.

Lemma first_occurrences_members (sms : list ScoreMember) (m : string) :
  In m (map member (first_occurrences sms)) <-> In m (map member sms).
Proof.
  induction sms as [|sm0 rest IH]; simpl; [tauto|].
  rewrite <- IH, !in_map_iff.
  split.
  - intros [e | (x & e & Hx)]; [now left|].
    apply filter_In in Hx. right. exists x. tauto.
  - intros [e | (x & e & Hx)]; [now left|].
    destruct (String.eqb_spec (member x) (member sm0)) as [e'|n].
    + left. congruence.
    + right. exists x. split; [exact e|].
      apply filter_In. split; [exact Hx|].
      now apply negb_true_iff, String.eqb_neq.
Qed.

Lemma NoDup_map_filter (A B : Type) (g : A -> B) (f : A -> bool)
    (l : list A) :
  NoDup (map g l) -> NoDup (map g (filter f l)).
Proof.
  induction l as [|x l IH]; simpl; intros H; [constructor|].
  inversion H as [|? ? Hx Hl]; subst.
  destruct (f x); simpl; [|now apply IH].
  constructor; [|now apply IH].
  intros Hin. apply Hx.
  apply in_map_iff in Hin. destruct Hin as (y & e & Hy).
  apply filter_In in Hy. apply in_map_iff. exists y. tauto.
Qed.

Lemma first_occurrences_NoDup (sms : list ScoreMember) :
  NoDup (map member (first_occurrences sms)).
Proof.
  induction sms as [|sm0 rest IH]; simpl; constructor.
  - intros Hin. apply in_map_iff in Hin. destruct Hin as (y & e & Hy).
    apply filter_In in Hy. destruct Hy as [_ Hy].
    rewrite e, String.eqb_refl in Hy. discriminate.
  - now apply NoDup_map_filter.
Qed.

(* ----------------------------------------------------------------- *)
(** ** Point reads after puts *)

Lemma string_compare_refl (k : string) : String.compare k k = Eq.
Proof.
  pose proof (String.compare_antisym k k) as H.
  destruct (String.compare k k); simpl in H; congruence.
Qed.

Lemma cf_get_put_same (V : Type) (rows : list (string * V)) (k : string)
    (v : V) :
  cf_get String.compare (cf_put String.compare rows k v) k = Some v.
Proof.
  pose proof (string_compare_refl k) as Hrefl.
  induction rows as [|[k' v'] rest IH]; simpl.
  - now rewrite Hrefl.
  - destruct (String.compare k k') eqn:E; simpl.
    + now rewrite Hrefl.
    + now rewrite Hrefl.
    + rewrite String.compare_antisym, E. simpl. exact IH.
Qed.

Lemma Write_app (db : DB) (b1 b2 : WriteBatch) :
  Write db (b1 ++ b2) = Write (Write db b1) b2.
Proof. apply fold_left_app. Qed.

Lemma Get_meta_Write_PutMeta (db : DB) (batch : WriteBatch) (key : Slice)
    (mv : ZSetsMetaValue) :
  Get_meta (Write db (batch ++ [PutMeta key mv])) key = Some mv.
Proof.
  rewrite Write_app. simpl. unfold Get_meta. simpl.
  apply cf_get_put_same.
Qed.

(* ----------------------------------------------------------------- *)
(** ** ZAdd on an existing key *)

Lemma ZAdd_loop_spec (db : DB) (key : Slice) (v : Z)
    (l : list ScoreMember) (batch : WriteBatch) (cnt : Z) :
  fold_left (ZAdd_step db key v false) l (batch, cnt)
  = (batch ++ flat_map (pair_contribution db key v) l,
     cnt + Z.of_nat (List.length (filter (absent_from_set db key v) l))).
Proof.
  revert batch cnt. induction l as [|sm l IH]; intros batch cnt; simpl.
  - now rewrite app_nil_r, Z.add_0_r.
  - unfold pair_contribution at 1, absent_from_set at 1.
    destruct (Get_data db (member_key key v (member sm))) as [old|] eqn:G.
    + destruct (deq old (score sm)); rewrite IH; simpl.
      * reflexivity.
      * now rewrite <- app_assoc.
    + rewrite IH. f_equal.
      * now rewrite <- app_assoc.
      * cbn [List.length]. lia.
Qed.

(** C2.  ZAdd on an existing key that is not stale.  The returned value is
    the number of distinct input members that have no data row in the
    set; the batch holds, for each distinct input member in input order,
    nothing when the member is present with an equal score, the delete of
    the old score row followed by the two puts when it is present with
    another score, and the two puts when it is absent; the batch ends
    with the meta row whose count has grown by the returned value.
    Scores are compared as the source compares them, with [==] on
    doubles. *)
Theorem ZAdd_existing_key (db : DB) (now : Z) (key : Slice)
    (score_members : list ScoreMember) (mv : ZSetsMetaValue) :
  Get_meta db key = Some mv ->
  IsStale now mv = false ->
  let v := version mv in
  let distinct := first_occurrences score_members in
  let new_members :=
    map member (filter (absent_from_set db key v) distinct) in
  let ret := Z.of_nat (List.length new_members) in
  let batch :=
    flat_map (pair_contribution db key v) distinct
      ++ [PutMeta key (ModifyCount mv ret)] in
  ZAdd db now key score_members = (OK, ret, Write db batch)
  /\ ZAdd_batch db now key score_members = (OK, ret, batch)
  /\ NoDup new_members
  /\ (forall m,
        In m new_members
        <-> In m (map member score_members)
            /\ Get_data db (member_key key v m) = None)
  /\ Get_meta (Write db batch) key = Some (ModifyCount mv ret)
  /\ count (ModifyCount mv ret) = count mv + ret.
Proof.
  intros Hget Hstale v distinct new_members ret batch.
  assert (Hb : ZAdd_batch db now key score_members = (OK, ret, batch)).
  { unfold ZAdd_batch. rewrite Hget, Hstale.
    rewrite filter_score_members_first, ZAdd_loop_spec. simpl.
    unfold batch, ret, new_members, distinct, v. now rewrite length_map. }
  split; [unfold ZAdd; now rewrite Hb|].
  split; [exact Hb|].
  split; [apply NoDup_map_filter, first_occurrences_NoDup|].
  split; [|split; [apply Get_meta_Write_PutMeta | reflexivity]].
  intros m. unfold new_members.
  rewrite <- (first_occurrences_members score_members m). fold distinct.
  rewrite !in_map_iff. split.
  - intros (x & e & Hx). apply filter_In in Hx. destruct Hx as [Hx Ha].
    split; [now exists x|].
    unfold absent_from_set in Ha. rewrite e in Ha.
    now destruct (Get_data db (member_key key v m)).
  - intros [(x & e & Hx) Hnone]. exists x. split; [exact e|].
    apply filter_In. split; [exact Hx|].
    unfold absent_from_set. now rewrite e, Hnone.
Qed.

Local Open Scope string_scope.

Lemma ZAdd_existing_key_witness :
  Get_meta pair_db "k" = Some pair_meta
  /\ IsStale 101 pair_meta = false
  /\ ZAdd_batch pair_db 101 "k" pair_input
     = (OK, 1,
        [DeleteScore (score_key "k" 100 one "a");
         PutData (member_key "k" 100 "a") (double_of_Z 5);
         PutScore (score_key "k" 100 (double_of_Z 5) "a");
         PutData (member_key "k" 100 "c") (double_of_Z 3);
         PutScore (score_key "k" 100 (double_of_Z 3) "c");
         PutMeta "k" {| version := 100; count := 3; timestamp := 0 |}]).
Proof.
  split; [reflexivity|]. split; [reflexivity|].
  rewrite (proj1 (proj2 (ZAdd_existing_key pair_db 101 "k" pair_input
                           pair_meta eq_refl eq_refl))).
  reflexivity.
Defined.

Local Close Scope string_scope.


(* ----------------------------------------------------------------- *)
(** ** ZRange and ZRevrange *)

(** C6.  On the same database and at the same clock reading, ZRevrange
    returns the status ZRange returns and the reverse of its list, for
    every key and every pair of indices. *)
Theorem ZRevrange_is_reverse_of_ZRange (db : DB) (now : Z) (key : Slice)
    (start stop : Z) :
  fst (ZRevrange db now key start stop) = fst (ZRange db now key start stop)
  /\ snd (ZRevrange db now key start stop)
     = rev (snd (ZRange db now key start stop)).
Proof.
  unfold ZRevrange, ZRange.
  destruct (Get_meta db key) as [mv|]; [|now split].
  destruct (IsStale now mv); [now split|].
  destruct (count mv =? 0); [now split|].
  match goal with |- context [if ?c then (OK, []) else _] => destruct c end;
    now split.
Qed.

(* ----------------------------------------------------------------- *)
(** ** TTL *)

(** C8, as stated, fails when the clock reaches the expiry between the
    staleness test and the clock reading of TTL: the key, which holds one
    member, passes the test at 99, the clock reads 100, and TTL reports
    -1. *)
Lemma TTL_expiry_reached_counterexample :
  ~ TTL_reports_remaining ttl_db 99 100 "k"%string.
Proof.
  intros H.
  destruct (H {| version := 90; count := 1; timestamp := 100 |}
              eq_refl eq_refl) as [_ H1].
  - discriminate.
  - discriminate.
  - vm_compute in H1. apply H1. reflexivity.
Qed.

(** C8, amended.  TTL sets -2 and returns NotFound when the key is absent
    or its expiry has passed.  On a live key, one whose expiry has not
    passed and whose count is not 0, it returns OK and sets -1 when the
    key has no expiry; otherwise it sets the seconds between its own
    clock reading and the expiry when that is at least 1, and -1 when the
    clock has reached the expiry.  When its own reading is not later than
    the reading of the staleness test, the first case applies: the
    seconds that remain, at least 1. *)
Theorem TTL_spec (db : DB) (now curtime : Z) (key : Slice) :
  match Get_meta db key with
  | None =>
      snd (TTL db now curtime key) = -2
      /\ IsNotFound (fst (TTL db now curtime key)) = true
  | Some mv =>
      if IsStale now mv then
        snd (TTL db now curtime key) = -2
        /\ IsNotFound (fst (TTL db now curtime key)) = true
      else
        count mv <> 0 ->
        fst (TTL db now curtime key) = OK
        /\ (timestamp mv = 0 -> snd (TTL db now curtime key) = -1)
        /\ (timestamp mv <> 0 -> curtime < timestamp mv ->
            snd (TTL db now curtime key) = timestamp mv - curtime
            /\ 1 <= snd (TTL db now curtime key))
        /\ (timestamp mv <> 0 -> timestamp mv <= curtime ->
            snd (TTL db now curtime key) = -1)
        /\ (timestamp mv <> 0 -> curtime <= now ->
            snd (TTL db now curtime key) = timestamp mv - curtime
            /\ 1 <= snd (TTL db now curtime key))
  end.
Proof.
  unfold TTL.
  destruct (Get_meta db key) as [mv|]; [|now split].
  destruct (IsStale now mv) eqn:Hstale; [now split|].
  intros _.
  assert (Hnow : timestamp mv <> 0 -> now < timestamp mv).
  { unfold IsStale in Hstale. intros Hne.
    apply Z.eqb_neq in Hne. rewrite Hne in Hstale. simpl in Hstale.
    now apply Z.leb_gt. }
  destruct (Z.eqb_spec (timestamp mv) 0) as [e|n]; simpl.
  - repeat split; intros; congruence.
  - specialize (Hnow n).
    destruct (Z.gtb_spec (timestamp mv - curtime) 0);
      repeat split; intros; try congruence; lia.
Qed.

Local Open Scope string_scope.

Lemma TTL_spec_witness :
  TTL ttl_db 50 60 "k" = (OK, 40) /\ TTL ttl_db 99 100 "k" = (OK, -1).
Proof.
  pose proof (TTL_spec ttl_db 50 60 "k") as H1.
  pose proof (TTL_spec ttl_db 99 100 "k") as H2.
  cbn in H1, H2.
  destruct (H1 ltac:(discriminate)) as (Hok1 & _ & Hrem & _).
  destruct (H2 ltac:(discriminate)) as (Hok2 & _ & _ & Hexp & _).
  split; apply injective_projections; simpl; try assumption.
  - apply Hrem; [discriminate | reflexivity].
  - apply Hexp; discriminate.
Defined.

Local Close Scope string_scope.

(** TTL tests the expiry of a key and not its count.  On a key that Del
    has emptied, which ZCard, ZScore and a second Del answer with
    NotFound, TTL answers OK and sets -1, at any clock reading. *)
Lemma TTL_on_emptied_key (db : DB) (now now' curtime : Z) (key : Slice)
    (mv : ZSetsMetaValue) :
  Get_meta db key = Some mv ->
  IsStale now mv = false ->
  count mv <> 0 ->
  let db' := snd (Del db now key) in
  TTL db' now' curtime key = (OK, -1)
  /\ ZCard db' now' key = (NotFound EmptyString, 0).
Proof.
  intros Hget Hstale Hcount db'.
  assert (Hdb : db' = Write db [PutMeta key (InitialMetaValue now mv)]).
  { unfold db', Del. rewrite Hget, Hstale.
    now destruct (Z.eqb_spec (count mv) 0). }
  pose proof (Get_meta_Write_PutMeta db [] key (InitialMetaValue now mv))
    as Hg. simpl app in Hg. rewrite <- Hdb in Hg.
  unfold TTL, ZCard. rewrite Hg. now split.
Qed.


(* ----------------------------------------------------------------- *)
(** ** ZInterstore: the empty key list and the invalid sources *)

Lemma ZInterstore_sources_invalid (db : DB) (now : Z) (keys : list string)
    (idx : nat) (st : bool * list KeyVersion * Z) :
  fst (fst (ZInterstore_sources db now keys idx st))
  = fst (fst st) || existsb (source_invalid db now) keys.
Proof.
  revert idx st. induction keys as [|key keys IH]; intros idx st; simpl.
  - now rewrite orb_false_r.
  - destruct st as [[h v] s]. rewrite IH. unfold source_invalid at 2.
    destruct (Get_meta db key) as [mv|]; simpl.
    + destruct (IsStale now mv || (count mv =? 0)); simpl.
      * now rewrite orb_true_r.
      * reflexivity.
    + now rewrite orb_true_r.
Qed.

Lemma InitialMetaValue_fresh (now : Z) (mv : ZSetsMetaValue) :
  version mv < version (InitialMetaValue now mv)
  /\ count (InitialMetaValue now mv) = 0
  /\ timestamp (InitialMetaValue now mv) = 0.
Proof. unfold InitialMetaValue, UpdateVersion. simpl. lia. Qed.

(** C4.  ZInterstore returns a Corruption status exactly when the list of
    source keys is empty, and then leaves the database as it is and does
    not assign [*ret].  With at least one source key, one of which is
    absent, stale or empty, it returns OK, sets [*ret] to 0 and commits a
    batch that only rewrites the destination's meta row: count 0, no
    expiry, and a version above the one the destination had; no data or
    score row is written. *)
Theorem ZInterstore_empty_keys_and_invalid_sources (db : DB) (now : Z)
    (destination : Slice) (keys : list string) (weights : list double)
    (agg : AGGREGATE) :
  (IsCorruption (fst (fst (ZInterstore db now destination keys weights agg)))
   = true <-> keys = [])
  /\ (keys = [] ->
      snd (ZInterstore db now destination keys weights agg) = db
      /\ snd (fst (ZInterstore db now destination keys weights agg)) = None)
  /\ (keys <> [] ->
      existsb (source_invalid db now) keys = true ->
      let mv := destination_meta db now destination 0 in
      let db' := snd (ZInterstore db now destination keys weights agg) in
      fst (ZInterstore db now destination keys weights agg) = (OK, Some 0)
      /\ db' = Write db [PutMeta destination mv]
      /\ Get_meta db' destination = Some mv
      /\ data_cf db' = data_cf db
      /\ score_cf db' = score_cf db
      /\ count mv = 0
      /\ timestamp mv = 0
      /\ (forall old, Get_meta db destination = Some old ->
                      version old < version mv)
      /\ ZCard db' now destination = (NotFound EmptyString, 0)).
Proof.
  unfold ZInterstore, ZInterstore_batch.
  destruct keys as [|key keys].
  - simpl. repeat split; congruence.
  - cbn [List.length Nat.leb].
    split; [|split; [discriminate|]].
    + destruct (ZInterstore_sources db now (key :: keys) 0 (false, [], 0))
        as [[h v] s]. simpl. split; discriminate.
    + intros _ Hinv.
      pose proof (ZInterstore_sources_invalid db now (key :: keys) 0
                    (false, [], 0)) as Hs.
      rewrite Hinv in Hs.
      destruct (ZInterstore_sources db now (key :: keys) 0 (false, [], 0))
        as [[h v] s]. simpl in Hs. subst h.
      cbn [negb fst snd List.length flat_map Z.of_nat].
      set (mv := destination_meta db now destination 0).
      assert (Hg : Get_meta (Write db [PutMeta destination mv]) destination
                   = Some mv)
        by apply (Get_meta_Write_PutMeta db [] destination mv).
      assert (Hc : count mv = 0 /\ timestamp mv = 0).
      { unfold mv, destination_meta.
        destruct (Get_meta db destination) as [old|]; now split. }
      repeat split; try tauto.
      * intros old Hold. unfold mv, destination_meta. rewrite Hold.
        cbn. lia.
      * unfold ZCard. rewrite Hg.
        destruct Hc as [Hc Ht].
        unfold IsStale. rewrite Ht, Hc. reflexivity.
Qed.

Local Open Scope string_scope.

Lemma ZInterstore_empty_keys_and_invalid_sources_witness :
  existsb (source_invalid pair_db 101) ["k"; "missing"] = true
  /\ fst (ZInterstore pair_db 101 "dst" ["k"; "missing"] [] SUM)
     = (OK, Some 0)
  /\ fst (fst (ZInterstore pair_db 101 "dst" [] [] SUM))
     = Corruption "ZInterstore invalid parameter, no keys".
Proof.
  split; [reflexivity|].
  destruct (ZInterstore_empty_keys_and_invalid_sources pair_db 101 "dst"
              ["k"; "missing"] [] SUM) as (_ & _ & H).
  split; [apply H; [discriminate | reflexivity] | reflexivity].
Defined.

Local Close Scope string_scope.


(* ----------------------------------------------------------------- *)
(** ** Scan *)

Section ScanProperties.
Variable StringMatch : string -> string -> bool.

(** The loop of Scan on rows none of which is empty: what it visits, what
    it leaves, and where it stops. *)
Lemma Scan_loop_spec (now : Z) (pattern : string)
    (it : list (Slice * ZSetsMetaValue)) (budget : Z) (keys : list string) :
  Forall (fun row => count (snd row) <> 0) it ->
  exists visited rest,
    it = visited ++ rest
    /\ Scan_loop StringMatch now pattern it budget keys
       = (rest,
          budget - Z.of_nat (List.length (filter (countable now) visited)),
          keys ++ map fst
                    (filter (fun row =>
                               countable now row
                               && matching_row StringMatch pattern row)
                       visited))
    /\ (budget <= 0 -> visited = [])
    /\ (0 < budget ->
        0 <= budget
             - Z.of_nat (List.length (filter (countable now) visited)))
    /\ (rest <> [] -> 0 < budget ->
        budget - Z.of_nat (List.length (filter (countable now) visited)) = 0
        /\ exists front last_row,
             visited = front ++ [last_row]
             /\ countable now last_row = true).
Proof.
  revert budget keys.
  induction it as [|[k mv] it IH]; intros budget keys Hcount.
  - exists [], []. simpl. rewrite app_nil_r, Z.sub_0_r.
    split; [reflexivity|]. split; [reflexivity|].
    split; [reflexivity|]. split; [lia|].
    intros Hrest. now contradiction Hrest.
  - inversion Hcount as [|? ? Hmv Hit]; subst. simpl in Hmv.
    cbn [Scan_loop]. destruct (Z.gtb_spec budget 0) as [Hpos|Hle].
    + destruct (IsStale now mv) eqn:Hst.
      * destruct (IH budget keys Hit)
          as (visited & rest & -> & Hloop & Hnone & Hleft & Hstop).
        exists ((k, mv) :: visited), rest.
        assert (Hl : countable now (k, mv) = false)
          by (unfold countable; simpl; now rewrite Hst).
        cbn [app filter]. rewrite Hl. cbn [andb].
        rewrite Hloop.
        split; [reflexivity|]. split; [reflexivity|].
        split; [lia|]. split; [exact Hleft|].
        intros Hrest Hb.
        destruct (Hstop Hrest Hb) as (Hz & front & last_row & -> & Hlast).
        split; [exact Hz|].
        exists ((k, mv) :: front), last_row. now split.
      * destruct (IH (budget - 1)
                    (if StringMatch pattern k then keys ++ [k] else keys)
                    Hit)
          as (visited & rest & -> & Hloop & Hnone & Hleft & Hstop).
        exists ((k, mv) :: visited), rest.
        assert (Hl : countable now (k, mv) = true).
        { unfold countable. simpl. rewrite Hst.
          now destruct (Z.eqb_spec (count mv) 0). }
        cbn [app filter]. rewrite Hl. cbn [andb List.length].
        unfold matching_row at 1. cbn [fst].
        rewrite Hloop.
        split; [reflexivity|]. split; [|split; [lia|split]].
        -- f_equal; [f_equal; lia|].
           destruct (StringMatch pattern k); simpl;
             [now rewrite <- app_assoc | reflexivity].
        -- intros _. destruct (Z.eq_dec budget 1) as [e|n].
           ++ rewrite (Hnone ltac:(lia)). simpl. lia.
           ++ specialize (Hleft ltac:(lia)). lia.
        -- intros Hrest _. destruct (Z.eq_dec budget 1) as [e|n].
           ++ rewrite (Hnone ltac:(lia)). simpl. split; [lia|].
              exists [], (k, mv). now split.
           ++ destruct (Hstop Hrest ltac:(lia))
                as (Hz & front & last_row & -> & Hlast).
              split; [lia|].
              exists ((k, mv) :: front), last_row. now split.
    + exists [], ((k, mv) :: it). simpl. rewrite app_nil_r, Z.sub_0_r.
      split; [reflexivity|]. split; [reflexivity|].
      split; [reflexivity|]. split; lia.
Qed.

(** C3, amended.  Scan, on a meta family none of whose keys from
    [start_key] on is empty, so that a key is live exactly when it is not
    stale.  The rows from [start_key] split into the rows visited and the
    rest.  The budget goes down by one for each visited live key, whether
    or not the key matches the pattern; a stale key is passed without
    touching the budget; the keys emitted are the visited live keys that
    match, in order.  With a budget that is not positive nothing is
    visited.  With a positive budget, the budget never goes below 0, and
    when rows are left the scan has stopped on the live key that brought
    the budget to 0.  [is_finish] is true exactly when no row is left,
    which includes the case where the last key uses up the budget; then
    [next_key] is empty.  Otherwise [is_finish] is false and [next_key]
    is the first key not visited. *)
Theorem Scan_spec (db : DB) (now : Z) (start_key pattern : string)
    (keys : list string) (budget : Z) :
  Forall (fun row => count (snd row) <> 0) (Seek_meta db start_key) ->
  let r := Scan StringMatch db now start_key pattern keys budget in
  exists visited rest,
    Seek_meta db start_key = visited ++ rest
    /\ scan_count r
       = budget - Z.of_nat (List.length (filter (countable now) visited))
    /\ scan_keys r
       = keys ++ map fst
                   (filter (fun row =>
                              countable now row
                              && matching_row StringMatch pattern row)
                      visited)
    /\ (budget <= 0 -> visited = [])
    /\ (0 < budget -> 0 <= scan_count r)
    /\ match rest with
       | [] => is_finish r = true /\ next_key r = EmptyString
       | (k, _) :: _ =>
           is_finish r = false /\ next_key r = k
           /\ (0 < budget ->
               scan_count r = 0
               /\ exists front last_row,
                    visited = front ++ [last_row]
                    /\ countable now last_row = true)
       end.
Proof.
  intros Hcount. unfold Scan.
  destruct (Scan_loop_spec now pattern (Seek_meta db start_key) budget keys
              Hcount)
    as (visited & rest & Hseek & Hloop & Hnone & Hleft & Hstop).
  rewrite Hloop. exists visited, rest.
  split; [exact Hseek|].
  destruct rest as [|[k mv] rest]; cbn.
  - split; [reflexivity|]. split; [reflexivity|].
    split; [exact Hnone|]. split; [exact Hleft|]. now split.
  - split; [reflexivity|]. split; [reflexivity|].
    split; [exact Hnone|]. split; [exact Hleft|].
    split; [reflexivity|]. split; [reflexivity|].
    apply Hstop. discriminate.
Qed.
End ScanProperties.

Local Open Scope string_scope.

Lemma Scan_spec_witness :
  Forall (fun row => count (snd row) <> 0) (Seek_meta scan_db EmptyString)
  /\ exists visited rest,
       Seek_meta scan_db EmptyString = (visited ++ rest)%list
       /\ scan_count (Scan glob_match scan_db 0 EmptyString "b" [] 1)
          = 1 - Z.of_nat (List.length (filter (countable 0) visited))
       /\ (0 < 1 ->
           0 <= scan_count (Scan glob_match scan_db 0 EmptyString "b" [] 1)).
Proof.
  assert (Hcount : Forall (fun row => count (snd row) <> 0)
                     (Seek_meta scan_db EmptyString))
    by (repeat constructor; discriminate).
  split; [exact Hcount|].
  destruct (Scan_spec glob_match scan_db 0 EmptyString "b" [] 1 Hcount)
    as (visited & rest & Hseek & Hbudget & _ & _ & Hleft & _).
  exists visited, rest. repeat split; assumption.
Defined.

(** C3, as stated, fails twice.  With the two live keys [a] and [b], the
    pattern [b] and a budget of 1, Scan visits [a], which does not match,
    and stops there with the budget at 0: no visited key matched.  With
    the pattern [*] and a budget of 2, Scan visits both keys, the second
    one brings the budget to 0 and exhausts the iterator, and
    [is_finish] is true although no budget is left. *)
Lemma Scan_budget_counterexample :
  ~ Scan_budget_per_match glob_match scan_db 0 EmptyString "b" [] 1
  /\ ~ Scan_finish_before_budget glob_match scan_db 0 EmptyString "*" [] 2.
Proof.
  split.
  - vm_compute. discriminate.
  - intros [H _].
    assert (Hfin : is_finish (Scan glob_match scan_db 0 EmptyString "*" [] 2)
                   = true) by reflexivity.
    destruct (H Hfin) as [_ Hleft]. vm_compute in Hleft. discriminate.
Qed.

(** Scan tests the expiry of a key and not its count.  After Del of [a],
    whose meta row stays with count 0, Scan still emits [a] and charges
    the budget for it, where ScanKeys and ZCard pass it over. *)
Lemma Scan_emits_emptied_key :
  Get_meta emptied_db "a"
  = Some {| version := 91; count := 0; timestamp := 0 |}
  /\ ZCard emptied_db 1 "a" = (NotFound EmptyString, 0)
  /\ ScanKeys glob_match emptied_db 1 "*" [] = (OK, ["b"])
  /\ scan_keys (Scan glob_match emptied_db 1 EmptyString "*" [] 1) = ["a"]
  /\ scan_count (Scan glob_match emptied_db 1 EmptyString "*" [] 1) = 0
  /\ next_key (Scan glob_match emptied_db 1 EmptyString "*" [] 1) = "b".
Proof. repeat split. Qed.

Local Close Scope string_scope.

(* ----------------------------------------------------------------- *)
(** ** ZRemrangebylex when nothing is removed *)

Lemma ZRemrangebylex_loop_grows (key : Slice) (v : Z) (min max : Slice)
    (left_close right_close : bool) (iter : list (ZSetsMemberKey * double))
    (cur_index stop_index : Z) (st : WriteBatch * Z) :
  let st' := ZRemrangebylex_loop key v min max left_close right_close iter
               cur_index stop_index st in
  snd st <= snd st' /\ (snd st' = snd st -> st' = st).
Proof.
  revert cur_index st.
  induction iter as [|[k value] iter IH]; intros cur_index st; simpl.
  - split; [lia | reflexivity].
  - destruct (cur_index <=? stop_index); [|split; [lia | reflexivity]].
    set (st1 := if lex_left_pass min left_close (mk_member k)
                   && lex_right_pass max right_close (mk_member k)
                then (fst st ++ [DeleteData k;
                                 DeleteScore (score_key key v value
                                                (mk_member k))],
                      snd st + 1)
                else st).
    assert (H1 : snd st <= snd st1 /\ (snd st1 = snd st -> st1 = st)).
    { unfold st1. clear st1.
      destruct (lex_left_pass min left_close (mk_member k)
                && lex_right_pass max right_close (mk_member k)); simpl.
      - split; [lia | intros; lia].
      - split; [lia | reflexivity]. }
    clearbody st1.
    destruct (negb (lex_right_pass max right_close (mk_member k))).
    + exact H1.
    + specialize (IH (cur_index + 1) st1). simpl in IH.
      destruct IH as [IHle IHeq]. destruct H1 as [H1le H1eq].
      split; [lia|].
      intros E. rewrite IHeq by lia. apply H1eq. lia.
Qed.

Lemma ZRemrangebylex_loop_none (key : Slice) (v : Z) (min max : Slice)
    (left_close right_close : bool) (iter : list (ZSetsMemberKey * double))
    (cur_index stop_index : Z) (st : WriteBatch * Z) :
  (forall k s,
     In (k, s) (firstn (Z.to_nat (stop_index - cur_index + 1)) iter) ->
     lex_in_range min max left_close right_close (mk_member k) = false) ->
  ZRemrangebylex_loop key v min max left_close right_close iter
    cur_index stop_index st = st.
Proof.
  revert cur_index.
  induction iter as [|[k value] iter IH]; intros cur_index Hout; simpl.
  - reflexivity.
  - destruct (Z.leb_spec cur_index stop_index) as [Hle|Hgt]; [|reflexivity].
    replace (Z.to_nat (stop_index - cur_index + 1))
      with (S (Z.to_nat (stop_index - (cur_index + 1) + 1))) in Hout by lia.
    simpl in Hout.
    pose proof (Hout k value (or_introl eq_refl)) as Hk.
    unfold lex_in_range in Hk. rewrite Hk.
    destruct (negb (lex_right_pass max right_close (mk_member k)));
      [reflexivity|].
    apply IH. intros k' s' Hin. apply (Hout k' s'). now right.
Qed.

(** ZRemrangebylex that reports 0 removals has committed an empty batch. *)
Lemma ZRemrangebylex_zero_unchanged (db : DB) (now : Z) (key : Slice)
    (min max : Slice) (left_close right_close : bool) :
  snd (fst (ZRemrangebylex db now key min max left_close right_close)) = 0 ->
  snd (ZRemrangebylex db now key min max left_close right_close) = db.
Proof.
  unfold ZRemrangebylex.
  destruct (Get_meta db key) as [mv|]; [|reflexivity].
  destruct (IsStale now mv || (count mv =? 0)); [reflexivity|].
  pose proof (ZRemrangebylex_loop_grows key (version mv) min max left_close
                right_close
                (Seek_data db (member_key key (version mv) EmptyString))
                0 (count mv - 1) ([], 0)) as [Hle Heq].
  destruct (ZRemrangebylex_loop key (version mv) min max left_close
              right_close
              (Seek_data db (member_key key (version mv) EmptyString))
              0 (count mv - 1) ([], 0)) as [batch del_cnt].
  simpl in Hle, Heq.
  destruct (Z.gtb_spec del_cnt 0) as [Hpos|Hz]; simpl.
  - intros ->. lia.
  - intros _. assert (del_cnt = 0) as -> by lia.
    specialize (Heq eq_refl). now inversion Heq.
Qed.

(** C10.  On a key that is not stale and not empty, a ZRemrangebylex call
    that removes no member returns OK, sets [*ret] to 0 and commits an
    empty batch: the database is the one before the call, and the meta
    row keeps its version, count and timestamp.  The call removes no
    member when none of the members it scans (the first [count] data rows
    from the start of the set) falls within the lex bounds. *)
Theorem ZRemrangebylex_no_removal (db : DB) (now : Z) (key : Slice)
    (min max : Slice) (left_close right_close : bool)
    (mv : ZSetsMetaValue) :
  Get_meta db key = Some mv ->
  IsStale now mv = false ->
  count mv <> 0 ->
  let scanned :=
    firstn (Z.to_nat (count mv))
      (Seek_data db (member_key key (version mv) EmptyString)) in
  let del_cnt :=
    snd (ZRemrangebylex_loop key (version mv) min max left_close right_close
           (Seek_data db (member_key key (version mv) EmptyString))
           0 (count mv - 1) ([], 0)) in
  let r := ZRemrangebylex db now key min max left_close right_close in
  ((forall k s,
      In (k, s) scanned ->
      lex_in_range min max left_close right_close (mk_member k) = false) ->
   del_cnt = 0)
  /\ (del_cnt = 0 -> r = (OK, 0, db) /\ Get_meta (snd r) key = Some mv).
Proof.
  intros Hget Hstale Hcount scanned del_cnt r. split.
  - intros Hout. unfold del_cnt. rewrite ZRemrangebylex_loop_none.
    + reflexivity.
    + replace (count mv - 1 - 0 + 1) with (count mv) by lia. exact Hout.
  - intros Hzero.
    assert (Hr : r = (OK, 0, db)).
    { unfold r, ZRemrangebylex. rewrite Hget, Hstale.
      destruct (Z.eqb_spec (count mv) 0) as [e|_]; [contradiction|]. simpl.
      pose proof (ZRemrangebylex_loop_grows key (version mv) min max
                    left_close right_close
                    (Seek_data db (member_key key (version mv) EmptyString))
                    0 (count mv - 1) ([], 0)) as [_ Heq].
      fold del_cnt in Heq. simpl in Heq.
      rewrite (Heq Hzero). reflexivity. }
    split; [exact Hr|]. now rewrite Hr.
Qed.

Local Open Scope string_scope.

Lemma ZRemrangebylex_no_removal_witness :
  Get_meta pair_db "k" = Some pair_meta
  /\ IsStale 101 pair_meta = false
  /\ count pair_meta <> 0
  /\ ZRemrangebylex pair_db 101 "k" "x" "z" true true = (OK, 0, pair_db).
Proof.
  split; [reflexivity|]. split; [reflexivity|]. split; [discriminate|].
  destruct (ZRemrangebylex_no_removal pair_db 101 "k" "x" "z" true true
              pair_meta eq_refl eq_refl) as [Hbounds Hzero];
    [discriminate|].
  apply Hzero, Hbounds.
  intros k s Hin. vm_compute in Hin.
  destruct Hin as [H | [H | []]]; inversion H; reflexivity.
Defined.

Local Close Scope string_scope.

(* ----------------------------------------------------------------- *)
(** ** The invariant P1 and the scans that start at the lowest double *)

Lemma cf_get_In (V : Type) (rows : list (string * V)) (k : string) (v : V) :
  cf_get String.compare rows k = Some v -> In (k, v) rows.
Proof.
  induction rows as [|[k' v'] rest IH]; simpl; [discriminate|].
  destruct (String.compare k' k) eqn:E; try (intros H; right; now apply IH).
  intros [= ->]. apply String.compare_eq_iff in E. subst. now left.
Qed.

Local Open Scope string_scope.

(** C1.  P1 holds on the database of the two sets [k1] and [k2] built by
    ZAdd, and no longer holds after ZRemrangebyrank on [k1] from 0 to -1:
    the scan starts at the lowest finite double, passes over the member
    at minus infinity, runs past the end of [k1] and deletes the score
    row of [k2], whose meta row still counts one member. *)
Theorem ZRemrangebyrank_breaks_P1 :
  P1 two_sets_db 100
  /\ fst (ZRemrangebyrank two_sets_db 100 "k1" 0 (-1)) = (OK, 2)
  /\ ~ P1 (snd (ZRemrangebyrank two_sets_db 100 "k1" 0 (-1))) 100.
Proof.
  split; [|split].
  - intros key mv Hget Hlive. apply cf_get_In in Hget.
    vm_compute in Hget.
    destruct Hget as [H | [H | []]]; inversion H; subst; now vm_compute.
  - now vm_compute.
  - intros H.
    destruct (H "k2" {| version := 100; count := 1; timestamp := 0 |})
      as [_ Hs]; [now vm_compute | now vm_compute |].
    vm_compute in Hs. discriminate.
Qed.

Local Close Scope string_scope.

(* ----------------------------------------------------------------- *)
(** ** ZUnionstore never writes minus zero *)

Lemma normalize_zero_not_neg_zero (s : double) :
  normalize_zero s <> neg_zero.
Proof.
  unfold normalize_zero.
  destruct (deq s neg_zero) eqn:E.
  - discriminate.
  - intros ->. discriminate.
Qed.

Lemma cf_put_Forall (V : Type) (P : V -> Prop) (rows : list (string * V))
    (k : string) (v : V) :
  P v ->
  Forall (fun row => P (snd row)) rows ->
  Forall (fun row => P (snd row)) (cf_put String.compare rows k v).
Proof.
  intros Hv. induction 1 as [|[k' v'] rest Hrow Hrest IH]; simpl.
  - now constructor.
  - destruct (String.compare k k'); repeat constructor; auto.
Qed.

Lemma ZUnionstore_scan_normalized (iter : list (ZSetsScoreKey * Slice))
    (cur_index stop_index : Z) (weight : double) (agg : AGGREGATE)
    (map : member_score_map_t) :
  Forall (fun row => snd row <> neg_zero) map ->
  Forall (fun row => snd row <> neg_zero)
    (ZUnionstore_scan iter cur_index stop_index weight agg map).
Proof.
  revert cur_index map.
  induction iter as [|[k s] iter IH]; intros cur_index map Hmap; simpl.
  - exact Hmap.
  - destruct (cur_index <=? stop_index); [|exact Hmap].
    apply IH.
    apply (cf_put_Forall _ (fun v => v <> neg_zero));
      [apply normalize_zero_not_neg_zero | exact Hmap].
Qed.

Lemma ZUnionstore_sources_normalized (db : DB) (now : Z)
    (keys : list string) (idx : nat) (weights : list double)
    (agg : AGGREGATE) (map : member_score_map_t) :
  Forall (fun row => snd row <> neg_zero) map ->
  Forall (fun row => snd row <> neg_zero)
    (ZUnionstore_sources db now keys idx weights agg map).
Proof.
  revert idx map.
  induction keys as [|key keys IH]; intros idx map Hmap; simpl.
  - exact Hmap.
  - apply IH. destruct (Get_meta db key) as [mv|]; [|exact Hmap].
    destruct (negb (IsStale now mv) && negb (count mv =? 0));
      [|exact Hmap].
    now apply ZUnionstore_scan_normalized.
Qed.

(** The half of C5 that holds: for every choice of sources, weights and
    aggregate, no data row and no score row that ZUnionstore puts in its
    batch carries minus zero. *)
Theorem ZUnionstore_normalizes (db : DB) (now : Z) (destination : Slice)
    (keys : list string) (weights : list double) (agg : AGGREGATE) :
  Forall (fun op =>
            match op with
            | PutData _ s => s <> neg_zero
            | PutScore k => sk_score k <> neg_zero
            | _ => True
            end)
    (snd (ZUnionstore_batch db now destination keys weights agg)).
Proof.
  unfold ZUnionstore_batch. cbn [snd].
  constructor; [exact I|].
  pose proof (ZUnionstore_sources_normalized db now keys 0 weights agg []
                (Forall_nil _)) as H.
  set (v := version _). clearbody v.
  induction H as [|[m s] rest Hrow Hrest IH]; simpl.
  - constructor.
  - constructor; [exact Hrow|]. constructor; [exact Hrow | exact IH].
Qed.

Local Open Scope string_scope.

(** C5.  ZInterstore of the set [s], whose member [a] has score 0, with
    weight -1 writes minus zero for [a] into the destination's data and
    score rows; ZUnionstore on the same input writes plus zero. *)
Theorem ZInterstore_keeps_negative_zero :
  let db' := snd (ZInterstore zero_db 100 "dst" ["s"] [double_of_Z (-1)] SUM)
  in
  ZScore db' 100 "dst" "a" = (OK, neg_zero)
  /\ score_rows db' "dst" 100
     = [(score_key "dst" 100 neg_zero "a", EmptyString)]
  /\ ZScore (snd (ZUnionstore zero_db 100 "dst" ["s"] [double_of_Z (-1)] SUM))
       100 "dst" "a" = (OK, pos_zero).
Proof. now vm_compute. Qed.

Local Close Scope string_scope.

(* ----------------------------------------------------------------- *)
(** ** ZRank and ZRevrank on the rows of one set *)

Lemma ZRank_loop_found (l1 l2 : list (ZSetsScoreKey * Slice))
    (row : ZSetsScoreKey * Slice) (index stop_index : Z) (m : Slice) :
  row_member row = m ->
  (forall y, In y l1 -> row_member y <> m) ->
  index + Z.of_nat (List.length l1) <= stop_index ->
  ZRank_loop (l1 ++ row :: l2) index stop_index m
  = (true, index + Z.of_nat (List.length l1)).
Proof.
  intros Hrow. revert index.
  induction l1 as [|[k s] l1 IH]; intros index Hne Hle.
  - destruct row as [k s]. unfold row_member in Hrow. simpl in *.
    destruct (Z.leb_spec index stop_index); [|lia].
    rewrite Hrow, String.eqb_refl. f_equal. lia.
  - simpl in *. destruct (Z.leb_spec index stop_index); [|lia].
    pose proof (Hne (k, s) (or_introl eq_refl)) as Hk.
    unfold row_member in Hk. simpl in Hk.
    apply String.eqb_neq in Hk. rewrite Hk.
    rewrite IH; [f_equal; lia | auto | lia].
Qed.

Lemma ZRank_loop_absent (rows rest : list (ZSetsScoreKey * Slice))
    (index stop_index : Z) (m : Slice) :
  (forall y, In y rows -> row_member y <> m) ->
  index + Z.of_nat (List.length rows) = stop_index + 1 ->
  fst (ZRank_loop (rows ++ rest) index stop_index m) = false.
Proof.
  revert index.
  induction rows as [|[k s] rows IH]; intros index Hne Hlen; simpl in *.
  - destruct rest as [|[k s] rest]; [reflexivity|]. simpl.
    destruct (Z.leb_spec index stop_index); [lia | reflexivity].
  - destruct (Z.leb_spec index stop_index); [|lia].
    pose proof (Hne (k, s) (or_introl eq_refl)) as Hk.
    unfold row_member in Hk. simpl in Hk.
    apply String.eqb_neq in Hk. rewrite Hk.
    apply IH; [auto | lia].
Qed.

Lemma ZRevrank_loop_found (l1 l2 : list (ZSetsScoreKey * Slice))
    (row : ZSetsScoreKey * Slice) (left rev_index : Z) (m : Slice) :
  row_member row = m ->
  (forall y, In y l1 -> row_member y <> m) ->
  Z.of_nat (List.length l1) <= left ->
  ZRevrank_loop (l1 ++ row :: l2) left rev_index m
  = (true, rev_index + Z.of_nat (List.length l1)).
Proof.
  intros Hrow. revert left rev_index.
  induction l1 as [|[k s] l1 IH]; intros left rev_index Hne Hle.
  - destruct row as [k s]. unfold row_member in Hrow. simpl in *.
    destruct (Z.geb_spec left 0); [|lia].
    rewrite Hrow, String.eqb_refl. f_equal. lia.
  - simpl in *. destruct (Z.geb_spec left 0); [|lia].
    pose proof (Hne (k, s) (or_introl eq_refl)) as Hk.
    unfold row_member in Hk. simpl in Hk.
    apply String.eqb_neq in Hk. rewrite Hk.
    rewrite IH; [f_equal; lia | auto | lia].
Qed.

(** The backward loop on a member that none of the [count] rows of the set
    holds: it goes on to the row before the set, if there is one. *)
Lemma ZRevrank_loop_absent (rows before : list (ZSetsScoreKey * Slice))
    (left rev_index : Z) (m : Slice) :
  (forall y, In y rows -> row_member y <> m) ->
  left = Z.of_nat (List.length rows) ->
  ZRevrank_loop (rows ++ before) left rev_index m
  = match before with
    | row :: _ =>
        if String.eqb (row_member row) m
        then (true, rev_index + left)
        else (false, rev_index + left + 1)
    | [] => (false, rev_index + left)
    end.
Proof.
  revert left rev_index.
  induction rows as [|[k s] rows IH]; intros left rev_index Hne Hlen;
    simpl in *.
  - subst left. destruct before as [|[k s] before]; simpl.
    + f_equal. lia.
    + unfold row_member. simpl.
      destruct (String.eqb (sk_member k) m); [f_equal; lia|].
      destruct before as [|[k' s'] before]; simpl; f_equal; lia.
  - destruct (Z.geb_spec left 0); [|lia].
    pose proof (Hne (k, s) (or_introl eq_refl)) as Hk.
    unfold row_member in Hk. simpl in Hk.
    apply String.eqb_neq in Hk. rewrite Hk.
    rewrite IH; [|auto|lia].
    destruct before as [|row before].
    + f_equal. lia.
    + destruct (String.eqb (row_member row) m); f_equal; lia.
Qed.

(** What holds of C7.  Let the [count] rows from the forward seek position
    of a live set be [rows], and let the backward seek position give the
    same rows reversed, followed by the rows [before] the set.  A member
    held by exactly one of the rows, at position [r], has rank [r] with
    [0 <= r < count] and reverse rank [count - 1 - r].  A member held by
    none of the rows is NotFound for ZRank; ZRevrank answers NotFound
    only if the row just before the set does not hold that member, and
    otherwise OK with rank [count]. *)
Theorem ZRank_ZRevrank_on_set_rows (db : DB) (now : Z) (key m : Slice)
    (mv : ZSetsMetaValue)
    (rows rest before : list (ZSetsScoreKey * Slice)) :
  Get_meta db key = Some mv ->
  IsStale now mv = false ->
  count mv = Z.of_nat (List.length rows) ->
  count mv <> 0 ->
  Seek_score db (score_key key (version mv) double_lowest EmptyString)
  = rows ++ rest ->
  SeekForPrev_score db (score_key key (version mv) double_max EmptyString)
  = rev rows ++ before ->
  (forall l1 row l2,
     rows = l1 ++ row :: l2 ->
     row_member row = m ->
     (forall y, In y (l1 ++ l2) -> row_member y <> m) ->
     let r := Z.of_nat (List.length l1) in
     ZRank db now key m = (OK, r)
     /\ 0 <= r < count mv
     /\ ZRevrank db now key m = (OK, count mv - 1 - r))
  /\ ((forall y, In y rows -> row_member y <> m) ->
      ZRank db now key m = (NotFound EmptyString, -1)
      /\ ZRevrank db now key m
         = match before with
           | row :: _ =>
               if String.eqb (row_member row) m then (OK, count mv)
               else (NotFound EmptyString, -1)
           | [] => (NotFound EmptyString, -1)
           end).
Proof.
  intros Hget Hstale Hcount Hne Hseek Hprev.
  assert (Hz : (count mv =? 0) = false) by now apply Z.eqb_neq.
  split.
  - intros l1 row l2 Hrows Hrow Hothers r.
    assert (Hlen : count mv
                   = Z.of_nat (List.length l1) + 1
                     + Z.of_nat (List.length l2)).
    { rewrite Hcount, Hrows, length_app. simpl. lia. }
    split; [|split; [lia|]].
    + unfold ZRank. rewrite Hget, Hstale, Hz, Hseek, Hrows, <- app_assoc.
      simpl app.
      rewrite (ZRank_loop_found l1 (l2 ++ rest) row 0 (count mv - 1) m);
        [reflexivity | exact Hrow | | lia].
      intros y Hy. apply Hothers, in_or_app. now left.
    + unfold ZRevrank. rewrite Hget, Hstale, Hz, Hprev, Hrows.
      rewrite rev_app_distr. simpl rev. rewrite <- !app_assoc. simpl app.
      rewrite (ZRevrank_loop_found (rev l2) (rev l1 ++ before) row
                 (count mv) 0 m).
      * rewrite length_rev. f_equal. unfold r. lia.
      * exact Hrow.
      * intros y Hy. apply Hothers, in_or_app. right. now apply in_rev.
      * rewrite length_rev. lia.
  - intros Habsent. split.
    + unfold ZRank. rewrite Hget, Hstale, Hz, Hseek.
      pose proof (ZRank_loop_absent rows rest 0 (count mv - 1) m Habsent)
        as Hf.
      destruct (ZRank_loop (rows ++ rest) 0 (count mv - 1) m) as [f i].
      simpl in Hf. rewrite Hf; [reflexivity | lia].
    + unfold ZRevrank. rewrite Hget, Hstale, Hz, Hprev.
      rewrite (ZRevrank_loop_absent (rev rows) before (count mv) 0 m).
      * destruct before as [|row before]; [reflexivity|].
        destruct (String.eqb (row_member row) m); reflexivity.
      * intros y Hy. apply Habsent. now apply in_rev.
      * rewrite length_rev. exact Hcount.
Qed.

Local Open Scope string_scope.

(** C7.  In the database of the sets [k1 = {a}] and [k2 = {b}], the member
    [a] is not in [k2]: ZRank answers NotFound, but ZRevrank steps one row
    past the start of [k2], meets the row of [a] in [k1] and answers OK
    with rank 1.  In the database of the two sets of C1, the member [a]
    of [k1], scored minus infinity, lies below the forward seek position:
    ZRank answers NotFound for it. *)
Theorem ZRevrank_finds_foreign_member :
  (Get_data rank_db (member_key "k2" 100 "a") = None
   /\ ZCard rank_db 100 "k2" = (OK, 1)
   /\ ZRank rank_db 100 "k2" "a" = (NotFound EmptyString, -1)
   /\ ZRevrank rank_db 100 "k2" "a" = (OK, 1))
  /\ (Get_data two_sets_db (member_key "k1" 100 "a") = Some neg_infinity
      /\ ZRank two_sets_db 100 "k1" "a" = (NotFound EmptyString, -1)).
Proof. now vm_compute. Qed.

Local Close Scope string_scope.

(* ================================================================= *)
(** * Further properties of the commands *)

(* ----------------------------------------------------------------- *)
(** ** Point reads and writes on a family ordered by encoded keys *)

Section EncodedOrder.
Context {K V : Type}.
Variable encode : K -> string.

Let cmp (a b : K) : comparison := String.compare (encode a) (encode b).

Lemma encoded_cmp_eq (a b : K) : cmp a b = Eq <-> encode a = encode b.
Proof.
  unfold cmp. split.
  - apply String.compare_eq_iff.
  - intros ->. apply string_compare_refl.
Qed.

Lemma encoded_get_put_same (rows : list (K * V)) (k : K) (v : V) :
  cf_get cmp (cf_put cmp rows k v) k = Some v.
Proof.
  assert (Hrefl : cmp k k = Eq) by now apply encoded_cmp_eq.
  induction rows as [|[k' v'] rest IH]; simpl.
  - now rewrite Hrefl.
  - destruct (cmp k k') eqn:E; simpl.
    + now rewrite Hrefl.
    + now rewrite Hrefl.
    + unfold cmp in E |- *. rewrite String.compare_antisym, E. simpl.
      exact IH.
Qed.

Lemma encoded_get_put_other (rows : list (K * V)) (k k' : K) (v : V) :
  encode k <> encode k' ->
  cf_get cmp (cf_put cmp rows k v) k' = cf_get cmp rows k'.
Proof.
  intros Hne.
  assert (Hk : cmp k k' <> Eq) by (intros E; now apply encoded_cmp_eq in E).
  induction rows as [|[k0 v0] rest IH]; simpl.
  - destruct (cmp k k'); congruence.
  - destruct (cmp k k0) eqn:E; simpl.
    + apply encoded_cmp_eq in E.
      replace (cmp k0 k') with (cmp k k') by (unfold cmp; now rewrite E).
      destruct (cmp k k'); congruence.
    + destruct (cmp k k'); congruence.
    + now rewrite IH.
Qed.

Lemma encoded_get_delete_same (rows : list (K * V)) (k : K) :
  cf_get cmp (cf_delete cmp rows k) k = None.
Proof.
  induction rows as [|[k0 v0] rest IH]; simpl; [reflexivity|].
  destruct (cmp k0 k) eqn:E; simpl; rewrite ?E; exact IH.
Qed.

Lemma encoded_get_delete_other (rows : list (K * V)) (k k' : K) :
  encode k <> encode k' ->
  cf_get cmp (cf_delete cmp rows k) k' = cf_get cmp rows k'.
Proof.
  intros Hne.
  induction rows as [|[k0 v0] rest IH]; simpl; [reflexivity|].
  destruct (cmp k0 k) eqn:E; simpl.
  - apply encoded_cmp_eq in E.
    destruct (cmp k0 k') eqn:E'.
    + apply encoded_cmp_eq in E'. congruence.
    + exact IH.
    + exact IH.
  - now rewrite IH.
  - now rewrite IH.
Qed.

Lemma encoded_get_delete_none (rows : list (K * V)) (k k' : K) :
  cf_get cmp rows k' = None ->
  cf_get cmp (cf_delete cmp rows k) k' = None.
Proof.
  induction rows as [|[k0 v0] rest IH]; simpl; [reflexivity|].
  destruct (cmp k0 k') eqn:E'; [discriminate| |];
    intros H; destruct (cmp k0 k); simpl; rewrite ?E'; auto.
Qed.
End EncodedOrder.

(* ----------------------------------------------------------------- *)
(** ** What a committed batch leaves alone *)

Lemma Write_cons (db : DB) (op : BatchOp) (batch : WriteBatch) :
  Write db (op :: batch) = Write (apply_op db op) batch.
Proof. reflexivity. Qed.

Lemma Write_keeps_meta (db : DB) (batch : WriteBatch) :
  forallb (fun op => negb (is_meta_op op)) batch = true ->
  meta_cf (Write db batch) = meta_cf db.
Proof.
  revert db. induction batch as [|op batch IH]; intros db H.
  - reflexivity.
  - simpl in H. apply andb_true_iff in H. destruct H as [Hop H].
    rewrite Write_cons, (IH _ H). now destruct op.
Qed.

Lemma Write_keeps_data (db : DB) (batch : WriteBatch) :
  forallb (fun op => negb (is_data_op op)) batch = true ->
  data_cf (Write db batch) = data_cf db.
Proof.
  revert db. induction batch as [|op batch IH]; intros db H.
  - reflexivity.
  - simpl in H. apply andb_true_iff in H. destruct H as [Hop H].
    rewrite Write_cons, (IH _ H). now destruct op.
Qed.

Lemma Write_keeps_score (db : DB) (batch : WriteBatch) :
  forallb (fun op => negb (is_score_op op)) batch = true ->
  score_cf (Write db batch) = score_cf db.
Proof.
  revert db. induction batch as [|op batch IH]; intros db H.
  - reflexivity.
  - simpl in H. apply andb_true_iff in H. destruct H as [Hop H].
    rewrite Write_cons, (IH _ H). now destruct op.
Qed.

Lemma Get_meta_PutMeta_other (db : DB) (k k' : Slice) (v : ZSetsMetaValue) :
  k <> k' ->
  Get_meta (apply_op db (PutMeta k v)) k' = Get_meta db k'.
Proof.
  intros Hne. unfold Get_meta. simpl.
  apply (encoded_get_put_other (fun s : string => s)). exact Hne.
Qed.

Lemma Get_meta_PutMeta_same (db : DB) (k : Slice) (v : ZSetsMetaValue) :
  Get_meta (apply_op db (PutMeta k v)) k = Some v.
Proof. unfold Get_meta. simpl. apply cf_get_put_same. Qed.

(** A batch whose meta puts are all on [key] leaves the meta row of every
    other key as it was. *)
Lemma Get_meta_Write_other (db : DB) (batch : WriteBatch) (key k' : Slice) :
  forallb (meta_only_on key) batch = true ->
  k' <> key ->
  Get_meta (Write db batch) k' = Get_meta db k'.
Proof.
  revert db. induction batch as [|op batch IH]; intros db H Hne.
  - reflexivity.
  - simpl in H. apply andb_true_iff in H. destruct H as [Hop H].
    rewrite Write_cons, (IH _ H Hne).
    destruct op; try reflexivity.
    simpl in Hop. apply String.eqb_eq in Hop. subst k.
    apply Get_meta_PutMeta_other. congruence.
Qed.

Lemma forallb_app_true (A : Type) (f : A -> bool) (l1 l2 : list A) :
  forallb f l1 = true -> forallb f l2 = true -> forallb f (l1 ++ l2) = true.
Proof. intros H1 H2. rewrite forallb_app, H1, H2. reflexivity. Qed.

(* ----------------------------------------------------------------- *)
(** ** Del, Expire, Expireat, Persist *)

Lemma IsStale_no_expiry (now : Z) (mv : ZSetsMetaValue) :
  timestamp mv = 0 -> IsStale now mv = false.
Proof. intros H. unfold IsStale. now rewrite H. Qed.

(** X1.  Del on a live key writes the meta row of that key and nothing
    else: the version goes up, count and expiry become 0, and the data and
    score rows stay where they are.  From then on, at any clock reading,
    ZCard, ZScore, ZRange and ZRank answer NotFound for the key, and a
    second Del answers NotFound and writes nothing. *)
Theorem Del_hides_the_set (db : DB) (now now' : Z) (key : Slice)
    (mv : ZSetsMetaValue) :
  Get_meta db key = Some mv ->
  IsStale now mv = false ->
  count mv <> 0 ->
  let db' := snd (Del db now key) in
  fst (Del db now key) = OK
  /\ (exists mv', Get_meta db' key = Some mv'
                  /\ version mv < version mv'
                  /\ count mv' = 0 /\ timestamp mv' = 0)
  /\ data_cf db' = data_cf db
  /\ score_cf db' = score_cf db
  /\ (forall m, ZCard db' now' key = (NotFound EmptyString, 0)
                /\ IsNotFound (fst (ZScore db' now' key m)) = true
                /\ ZRank db' now' key m = (NotFound EmptyString, -1))
  /\ (forall start stop,
        ZRange db' now' key start stop = (NotFound EmptyString, []))
  /\ Del db' now' key = (NotFound EmptyString, db').
Proof.
  intros Hget Hstale Hcount db'.
  assert (Hdel : Del db now key
                 = (OK, Write db [PutMeta key (InitialMetaValue now mv)])).
  { unfold Del. rewrite Hget, Hstale.
    now destruct (Z.eqb_spec (count mv) 0). }
  unfold db'. rewrite Hdel. cbn [fst snd].
  destruct (InitialMetaValue_fresh now mv) as (Hv & Hc & Ht).
  pose proof (Get_meta_Write_PutMeta db [] key (InitialMetaValue now mv))
    as Hg. simpl app in Hg.
  pose proof (IsStale_no_expiry now' _ Ht) as Hs.
  split; [reflexivity|].
  split; [now exists (InitialMetaValue now mv)|].
  split; [reflexivity|]. split; [reflexivity|].
  split; [|split].
  - intros m. unfold ZCard, ZScore, ZRank. rewrite Hg, Hs, Hc. now simpl.
  - intros start stop. unfold ZRange. rewrite Hg, Hs, Hc. reflexivity.
  - unfold Del. rewrite Hg, Hs, Hc. reflexivity.
Qed.

Local Open Scope string_scope.

Lemma Del_hides_the_set_witness :
  Get_meta pair_db "k" = Some pair_meta
  /\ IsStale 101 pair_meta = false
  /\ count pair_meta <> 0
  /\ ZCard (snd (Del pair_db 101 "k")) 500 "k" = (NotFound EmptyString, 0).
Proof.
  split; [reflexivity|]. split; [reflexivity|]. split; [discriminate|].
  destruct (Del_hides_the_set pair_db 101 500 "k" pair_meta eq_refl eq_refl)
    as (_ & _ & _ & _ & H & _); [discriminate|].
  apply (H "a").
Defined.

Local Close Scope string_scope.

(** X2.  On a live key, Expire with a time to live that is not positive is
    Del: same status, same database. *)
Theorem Expire_nonpositive_is_Del (db : DB) (now : Z) (key : Slice)
    (ttl : Z) (mv : ZSetsMetaValue) :
  Get_meta db key = Some mv ->
  IsStale now mv = false ->
  count mv <> 0 ->
  ttl <= 0 ->
  Expire db now key ttl = Del db now key.
Proof.
  intros Hget Hstale Hcount Httl. unfold Expire, Del.
  rewrite Hget, Hstale.
  destruct (Z.eqb_spec (count mv) 0); [contradiction|].
  destruct (Z.gtb_spec ttl 0); [lia | reflexivity].
Qed.

Local Open Scope string_scope.

Lemma Expire_nonpositive_is_Del_witness :
  Get_meta pair_db "k" = Some pair_meta
  /\ IsStale 101 pair_meta = false
  /\ count pair_meta <> 0
  /\ 0 <= 0
  /\ Expire pair_db 101 "k" 0 = Del pair_db 101 "k".
Proof.
  split; [reflexivity|]. split; [reflexivity|]. split; [discriminate|].
  split; [lia|].
  apply (Expire_nonpositive_is_Del pair_db 101 "k" 0 pair_meta);
    [reflexivity | reflexivity | discriminate | lia].
Defined.

Local Close Scope string_scope.

(** X3.  Expireat on a key that is not stale rewrites only the expiry of
    its meta row.  A timestamp of 0 leaves the key without expiry (TTL
    -1); a timestamp that the clock has passed makes the key stale (TTL
    -2 and NotFound, ZCard NotFound); a timestamp other than 0 that is
    ahead of the clock is what TTL counts down to. *)
Theorem Expireat_sets_expiry (db : DB) (now now' curtime : Z) (key : Slice)
    (ts : Z) (mv : ZSetsMetaValue) :
  Get_meta db key = Some mv ->
  IsStale now mv = false ->
  let db' := snd (Expireat db now key ts) in
  fst (Expireat db now key ts) = OK
  /\ Get_meta db' key = Some (set_timestamp mv ts)
  /\ data_cf db' = data_cf db
  /\ score_cf db' = score_cf db
  /\ (ts = 0 -> TTL db' now' curtime key = (OK, -1))
  /\ (ts <> 0 -> ts < now' ->
      TTL db' now' curtime key = (NotFound "Stale"%string, -2)
      /\ ZCard db' now' key = (NotFound "Stale"%string, 0))
  /\ (ts <> 0 -> now' < ts -> curtime < ts ->
      TTL db' now' curtime key = (OK, ts - curtime)).
Proof.
  intros Hget Hstale db'.
  assert (He : Expireat db now key ts
               = (OK, Write db [PutMeta key (set_timestamp mv ts)])).
  { unfold Expireat. now rewrite Hget, Hstale. }
  unfold db'. rewrite He. cbn [fst snd].
  pose proof (Get_meta_Write_PutMeta db [] key (set_timestamp mv ts)) as Hg.
  simpl app in Hg.
  repeat split; try reflexivity; try exact Hg.
  - intros ->. unfold TTL. rewrite Hg. reflexivity.
  - unfold TTL. rewrite Hg. unfold IsStale. simpl.
    apply Z.eqb_neq in H. rewrite H.
    destruct (Z.leb_spec ts now'); [reflexivity | lia].
  - unfold ZCard. rewrite Hg. unfold IsStale. simpl.
    apply Z.eqb_neq in H. rewrite H.
    destruct (Z.leb_spec ts now'); [reflexivity | lia].
  - intros Hts Hnow Hcur. unfold TTL. rewrite Hg. unfold IsStale. simpl.
    destruct (Z.leb_spec ts now'); [lia|]. rewrite andb_false_r.
    destruct (Z.eqb_spec ts 0); [contradiction|].
    destruct (Z.gtb_spec (ts - curtime) 0); [reflexivity | lia].
Qed.

Local Open Scope string_scope.

Lemma Expireat_sets_expiry_witness :
  Get_meta pair_db "k" = Some pair_meta
  /\ IsStale 101 pair_meta = false
  /\ TTL (snd (Expireat pair_db 101 "k" 200)) 150 160 "k" = (OK, 40).
Proof.
  split; [reflexivity|]. split; [reflexivity|].
  destruct (Expireat_sets_expiry pair_db 101 150 160 "k" 200 pair_meta
              eq_refl eq_refl) as (_ & _ & _ & _ & _ & _ & H).
  apply H; [discriminate | lia | lia].
Defined.

Local Close Scope string_scope.

(** X4.  Persist on a key that is not stale and has an expiry clears the
    expiry and keeps version and count; afterwards TTL reports -1 at any
    clock reading and a second Persist answers NotFound and writes
    nothing, as Persist does on any key without expiry. *)
Theorem Persist_clears_expiry (db : DB) (now now' curtime : Z)
    (key : Slice) (mv : ZSetsMetaValue) :
  Get_meta db key = Some mv ->
  IsStale now mv = false ->
  let db' := snd (Persist db now key) in
  (timestamp mv = 0 ->
   Persist db now key
   = (NotFound "Not have an associated timeout"%string, db))
  /\ (timestamp mv <> 0 ->
      fst (Persist db now key) = OK
      /\ Get_meta db' key = Some (set_timestamp mv 0)
      /\ data_cf db' = data_cf db
      /\ score_cf db' = score_cf db
      /\ TTL db' now' curtime key = (OK, -1)
      /\ Persist db' now' key
         = (NotFound "Not have an associated timeout"%string, db')).
Proof.
  intros Hget Hstale db'. unfold db', Persist. rewrite Hget, Hstale.
  split; intros Hts.
  - now rewrite Hts.
  - apply Z.eqb_neq in Hts. rewrite Hts. cbn [fst snd].
    pose proof (Get_meta_Write_PutMeta db [] key (set_timestamp mv 0))
      as Hg. simpl app in Hg.
    repeat split; try reflexivity; try exact Hg.
    + unfold TTL. rewrite Hg. reflexivity.
    + rewrite Hg. reflexivity.
Qed.

Local Open Scope string_scope.

Lemma Persist_clears_expiry_witness :
  Get_meta ttl_db "k"
  = Some {| version := 90; count := 1; timestamp := 100 |}
  /\ IsStale 50 {| version := 90; count := 1; timestamp := 100 |} = false
  /\ TTL (snd (Persist ttl_db 50 "k")) 500 600 "k" = (OK, -1).
Proof.
  split; [reflexivity|]. split; [reflexivity|].
  destruct (Persist_clears_expiry ttl_db 50 500 600 "k"
              {| version := 90; count := 1; timestamp := 100 |}
              eq_refl eq_refl) as [_ H].
  destruct H as (_ & _ & _ & _ & H & _); [discriminate | exact H].
Defined.

Local Close Scope string_scope.

(* ----------------------------------------------------------------- *)
(** ** Ranges by rank *)

Lemma ZRange_loop_window (iter : list (ZSetsScoreKey * Slice))
    (cur_index start_index stop_index : Z) (out : list ScoreMember) :
  ZRange_loop iter cur_index start_index stop_index out
  = out
    ++ map (fun row => to_score_member (fst row))
         (firstn (Z.to_nat (stop_index + 1 - Z.max start_index cur_index))
            (skipn (Z.to_nat (start_index - cur_index)) iter)).
Proof.
  revert cur_index out.
  induction iter as [|[k s] iter IH]; intros cur_index out; simpl.
  - rewrite skipn_nil, firstn_nil. simpl. now rewrite app_nil_r.
  - destruct (Z.leb_spec cur_index stop_index) as [Hle|Hgt].
    + rewrite IH. destruct (Z.geb_spec cur_index start_index) as [Hge|Hlt].
      * replace (Z.to_nat (start_index - cur_index)) with 0%nat by lia.
        replace (Z.to_nat (start_index - (cur_index + 1))) with 0%nat by lia.
        simpl skipn.
        replace (Z.to_nat (stop_index + 1 - Z.max start_index cur_index))
          with (S (Z.to_nat (stop_index + 1
                             - Z.max start_index (cur_index + 1))))
          by lia.
        simpl. now rewrite <- app_assoc.
      * replace (Z.to_nat (start_index - cur_index))
          with (S (Z.to_nat (start_index - (cur_index + 1)))) by lia.
        simpl skipn.
        replace (Z.max start_index (cur_index + 1))
          with (Z.max start_index cur_index) by lia.
        reflexivity.
    + replace (Z.to_nat (stop_index + 1 - Z.max start_index cur_index))
        with 0%nat by lia.
      simpl. now rewrite app_nil_r.
Qed.

Lemma window_empty (A : Type) (first last : Z) (rows : list A) :
  last < first -> window first last rows = [].
Proof.
  intros H. unfold window.
  replace (Z.to_nat (last - first + 1)) with 0%nat by lia. reflexivity.
Qed.

Lemma start_index_nonneg (count start : Z) : 0 <= start_index_of count start.
Proof.
  unfold start_index_of.
  destruct (start >=? 0);
    match goal with |- context [?a <=? ?b] =>
      destruct (Z.leb_spec a b) end; lia.
Qed.

Lemma stop_index_below_count (count stop : Z) :
  stop_index_of count stop <= count - 1.
Proof.
  unfold stop_index_of.
  destruct (stop >=? 0);
    match goal with |- context [?a >=? ?b] =>
      destruct (Z.geb_spec a b) end; lia.
Qed.

Lemma ZRange_live (db : DB) (now : Z) (key : Slice) (start stop : Z)
    (mv : ZSetsMetaValue) :
  Get_meta db key = Some mv ->
  IsStale now mv = false ->
  count mv <> 0 ->
  ZRange db now key start stop
  = (OK,
     map (fun row => to_score_member (fst row))
       (window (start_index_of (count mv) start)
          (stop_index_of (count mv) stop)
          (Seek_score db
             (score_key key (version mv) double_lowest EmptyString)))).
Proof.
  intros Hget Hstale Hcount. unfold ZRange. rewrite Hget, Hstale.
  destruct (Z.eqb_spec (count mv) 0); [contradiction|].
  fold (start_index_of (count mv) start).
  fold (stop_index_of (count mv) stop).
  pose proof (start_index_nonneg (count mv) start) as Hs.
  pose proof (stop_index_below_count (count mv) stop) as Ht.
  set (a := start_index_of (count mv) start) in *.
  set (b := stop_index_of (count mv) stop) in *.
  destruct ((a >? b) || (a >=? count mv) || (b <? 0)) eqn:E.
  - rewrite window_empty; [reflexivity|].
    apply orb_true_iff in E. destruct E as [E|E];
      [apply orb_true_iff in E; destruct E as [E|E]|]; lia.
  - rewrite ZRange_loop_window. simpl app. unfold window.
    replace (b + 1 - Z.max a 0) with (b - a + 1) by lia.
    now rewrite Z.sub_0_r.
Qed.

Lemma ZRemrangebyrank_loop_window (key : Slice) (v : Z)
    (iter : list (ZSetsScoreKey * Slice))
    (cur_index start_index stop_index : Z) (st : WriteBatch * Z) :
  let rows :=
    firstn (Z.to_nat (stop_index + 1 - Z.max start_index cur_index))
      (skipn (Z.to_nat (start_index - cur_index)) iter) in
  ZRemrangebyrank_loop key v iter cur_index start_index stop_index st
  = (fst st
       ++ flat_map (fun row =>
            [DeleteData (member_key key v (sk_member (fst row)));
             DeleteScore (fst row)]) rows,
     snd st + Z.of_nat (List.length rows)).
Proof.
  revert cur_index st.
  induction iter as [|[k s] iter IH]; intros cur_index st; simpl.
  - rewrite skipn_nil, firstn_nil. simpl.
    rewrite app_nil_r, Z.add_0_r. now destruct st.
  - destruct (Z.leb_spec cur_index stop_index) as [Hle|Hgt].
    + rewrite IH. destruct (Z.geb_spec cur_index start_index) as [Hge|Hlt].
      * replace (Z.to_nat (start_index - cur_index)) with 0%nat by lia.
        replace (Z.to_nat (start_index - (cur_index + 1))) with 0%nat by lia.
        simpl skipn.
        replace (Z.to_nat (stop_index + 1 - Z.max start_index cur_index))
          with (S (Z.to_nat (stop_index + 1
                             - Z.max start_index (cur_index + 1))))
          by lia.
        cbn [fst snd firstn flat_map List.length app].
        rewrite <- app_assoc. f_equal. lia.
      * replace (Z.to_nat (start_index - cur_index))
          with (S (Z.to_nat (start_index - (cur_index + 1)))) by lia.
        simpl skipn.
        replace (Z.max start_index (cur_index + 1))
          with (Z.max start_index cur_index) by lia.
        reflexivity.
    + replace (Z.to_nat (stop_index + 1 - Z.max start_index cur_index))
        with 0%nat by lia.
      simpl. rewrite app_nil_r, Z.add_0_r. now destruct st.
Qed.

(** X5.  On a live key ZRange returns, in scan order, the rows of the scan
    of the set from the resolved start index to the resolved stop index,
    both included: a negative index counts from [count], the start is
    raised to 0 and the stop is lowered to [count - 1].  It never returns
    more than [count] pairs, and from 0 to -1 it returns the first [count]
    rows of the scan. *)
Theorem ZRange_returns_window (db : DB) (now : Z) (key : Slice)
    (start stop : Z) (mv : ZSetsMetaValue) :
  Get_meta db key = Some mv ->
  IsStale now mv = false ->
  count mv <> 0 ->
  let scan :=
    Seek_score db (score_key key (version mv) double_lowest EmptyString) in
  ZRange db now key start stop
  = (OK,
     map (fun row => to_score_member (fst row))
       (window (start_index_of (count mv) start)
          (stop_index_of (count mv) stop) scan))
  /\ (0 < count mv ->
      Z.of_nat (List.length (snd (ZRange db now key start stop)))
      <= count mv)
  /\ ZRange db now key 0 (-1)
     = (OK,
        map (fun row => to_score_member (fst row))
          (firstn (Z.to_nat (count mv)) scan)).
Proof.
  intros Hget Hstale Hcount scan.
  pose proof (ZRange_live db now key start stop mv Hget Hstale Hcount) as H.
  split; [exact H|]. split.
  - intros Hpos. rewrite H. cbn [snd]. rewrite length_map. unfold window.
    rewrite length_firstn.
    pose proof (start_index_nonneg (count mv) start).
    pose proof (stop_index_below_count (count mv) stop).
    lia.
  - rewrite (ZRange_live db now key 0 (-1) mv Hget Hstale Hcount).
    unfold window, start_index_of, stop_index_of. simpl.
    destruct (Z.geb_spec (count mv + -1) (count mv)); [lia|].
    simpl skipn. do 3 f_equal. lia.
Qed.

Local Open Scope string_scope.

Lemma ZRange_returns_window_witness :
  Get_meta pair_db "k" = Some pair_meta
  /\ IsStale 101 pair_meta = false
  /\ count pair_meta <> 0
  /\ ZRange pair_db 101 "k" (-1) 5
     = (OK, [{| score := double_of_Z 2; member := "b" |}]).
Proof.
  split; [reflexivity|]. split; [reflexivity|]. split; [discriminate|].
  rewrite (proj1 (ZRange_returns_window pair_db 101 "k" (-1) 5 pair_meta
                    eq_refl eq_refl ltac:(discriminate))).
  reflexivity.
Defined.

Local Close Scope string_scope.

(** X6.  ZRemrangebyrank removes what ZRange returns for the same indices
    on the same database: it answers with the status of ZRange and the
    number of pairs ZRange returns, and on a live key its batch deletes
    the data row and the score row of each row of that window and then
    puts the meta row with the count lowered by that number. *)
Theorem ZRemrangebyrank_removes_ZRange_window (db : DB) (now : Z)
    (key : Slice) (start stop : Z) :
  fst (ZRemrangebyrank db now key start stop)
  = (fst (ZRange db now key start stop),
     Z.of_nat (List.length (snd (ZRange db now key start stop))))
  /\ (forall mv,
        Get_meta db key = Some mv ->
        IsStale now mv = false ->
        count mv <> 0 ->
        let rows :=
          window (start_index_of (count mv) start)
            (stop_index_of (count mv) stop)
            (Seek_score db
               (score_key key (version mv) double_lowest EmptyString)) in
        snd (ZRemrangebyrank db now key start stop)
        = Write db
            (flat_map (fun row =>
               [DeleteData
                  (member_key key (version mv) (sk_member (fst row)));
                DeleteScore (fst row)]) rows
             ++ [PutMeta key
                   (ModifyCount mv (- Z.of_nat (List.length rows)))])).
Proof.
  assert (Hlive : forall mv,
    Get_meta db key = Some mv -> IsStale now mv = false ->
    count mv <> 0 ->
    let rows :=
      window (start_index_of (count mv) start)
        (stop_index_of (count mv) stop)
        (Seek_score db
           (score_key key (version mv) double_lowest EmptyString)) in
    ZRemrangebyrank db now key start stop
    = (OK, Z.of_nat (List.length rows),
       Write db
         (flat_map (fun row =>
            [DeleteData (member_key key (version mv) (sk_member (fst row)));
             DeleteScore (fst row)]) rows
          ++ [PutMeta key
                (ModifyCount mv (- Z.of_nat (List.length rows)))]))).
  { intros mv Hget Hstale Hcount rows.
    unfold ZRemrangebyrank. rewrite Hget, Hstale.
    destruct (Z.eqb_spec (count mv) 0); [contradiction|].
    fold (start_index_of (count mv) start).
    fold (stop_index_of (count mv) stop).
    rewrite ZRemrangebyrank_loop_window. cbn [fst snd app].
    pose proof (start_index_nonneg (count mv) start) as Hs.
    replace (stop_index_of (count mv) stop + 1
             - Z.max (start_index_of (count mv) start) 0)
      with (stop_index_of (count mv) stop
            - start_index_of (count mv) start + 1) by lia.
    rewrite Z.sub_0_r. reflexivity. }
  split.
  - unfold ZRemrangebyrank at 1, ZRange at 1 2.
    destruct (Get_meta db key) as [mv|] eqn:Hget; [|reflexivity].
    destruct (IsStale now mv) eqn:Hstale; [reflexivity|].
    destruct (Z.eqb_spec (count mv) 0) as [e|Hcount]; [reflexivity|].
    pose proof (Hlive mv eq_refl Hstale Hcount) as Hr.
    pose proof (ZRange_live db now key start stop mv Hget Hstale Hcount)
      as Hz.
    unfold ZRemrangebyrank in Hr. unfold ZRange in Hz.
    rewrite Hget, Hstale in Hr, Hz.
    destruct (Z.eqb_spec (count mv) 0); [contradiction|].
    rewrite Hr, Hz. cbn [fst snd]. now rewrite length_map.
  - intros mv Hget Hstale Hcount rows.
    now rewrite (Hlive mv Hget Hstale Hcount).
Qed.

(* ----------------------------------------------------------------- *)
(** ** Ranges by score *)

Lemma firstn_succ_cons (A : Type) (n : Z) (x : A) (l : list A) :
  0 <= n ->
  firstn (Z.to_nat (n + 1)) (x :: l) = x :: firstn (Z.to_nat n) l.
Proof.
  intros H. replace (Z.to_nat (n + 1)) with (S (Z.to_nat n)) by lia.
  reflexivity.
Qed.

Lemma scan_select_nil (A : Type) (keep go_on : A -> bool) (n : Z) :
  scan_select keep go_on n (@nil A) = [].
Proof. unfold scan_select. now rewrite firstn_nil. Qed.

Lemma scan_select_none (A : Type) (keep go_on : A -> bool) (n : Z)
    (rows : list A) :
  n <= 0 -> scan_select keep go_on n rows = [].
Proof.
  intros H. unfold scan_select.
  replace (Z.to_nat n) with 0%nat by lia. reflexivity.
Qed.

Lemma scan_select_cons (A : Type) (keep go_on : A -> bool) (n : Z) (x : A)
    (rows : list A) :
  0 < n ->
  scan_select keep go_on n (x :: rows)
  = if go_on x then
      (if keep x then [x] else []) ++ scan_select keep go_on (n - 1) rows
    else [].
Proof.
  intros H. unfold scan_select.
  replace n with (n - 1 + 1) at 1 by lia.
  rewrite firstn_succ_cons by lia. simpl.
  destruct (go_on x); [|reflexivity]. simpl. now destruct (keep x).
Qed.

Lemma ZRangebyscore_loop_select (min max : double)
    (left_close right_close : bool) (iter : list (ZSetsScoreKey * Slice))
    (index stop_index : Z) (out : list ScoreMember) :
  ZRangebyscore_loop min max left_close right_close iter index stop_index
    out
  = out
    ++ map (fun row => to_score_member (fst row))
         (scan_select (score_row_in_range min max left_close right_close)
            (score_row_right_pass max right_close)
            (stop_index - index + 1) iter).
Proof.
  revert index out.
  induction iter as [|[k s] iter IH]; intros index out.
  - rewrite scan_select_nil. simpl. now rewrite app_nil_r.
  - simpl. destruct (Z.leb_spec index stop_index) as [Hle|Hgt].
    + rewrite scan_select_cons by lia.
      change (score_row_right_pass max right_close (k, s))
        with (score_right_pass max right_close (sk_score k)).
      change (score_row_in_range min max left_close right_close (k, s))
        with (score_left_pass min left_close (sk_score k)
              && score_right_pass max right_close (sk_score k)).
      destruct (score_right_pass max right_close (sk_score k)); simpl.
      * rewrite IH.
        replace (stop_index - (index + 1) + 1)
          with (stop_index - index + 1 - 1) by lia.
        rewrite andb_true_r.
        destruct (score_left_pass min left_close (sk_score k)); simpl;
          [now rewrite <- app_assoc | reflexivity].
      * rewrite andb_false_r. now rewrite app_nil_r.
    + rewrite scan_select_none by lia. simpl. now rewrite app_nil_r.
Qed.

Lemma ZCount_loop_select (min max : double)
    (left_close right_close : bool) (iter : list (ZSetsScoreKey * Slice))
    (cur_index stop_index : Z) (cnt : Z) :
  ZCount_loop min max left_close right_close iter cur_index stop_index cnt
  = cnt
    + Z.of_nat
        (List.length
           (scan_select (score_row_in_range min max left_close right_close)
              (score_row_right_pass max right_close)
              (stop_index - cur_index + 1) iter)).
Proof.
  revert cur_index cnt.
  induction iter as [|[k s] iter IH]; intros cur_index cnt.
  - rewrite scan_select_nil. simpl. lia.
  - simpl. destruct (Z.leb_spec cur_index stop_index) as [Hle|Hgt].
    + rewrite scan_select_cons by lia.
      change (score_row_right_pass max right_close (k, s))
        with (score_right_pass max right_close (sk_score k)).
      change (score_row_in_range min max left_close right_close (k, s))
        with (score_left_pass min left_close (sk_score k)
              && score_right_pass max right_close (sk_score k)).
      replace (stop_index - cur_index + 1 - 1)
        with (stop_index - (cur_index + 1) + 1) by lia.
      destruct (score_right_pass max right_close (sk_score k)); simpl.
      * rewrite andb_true_r.
        destruct (score_left_pass min left_close (sk_score k)); simpl;
          rewrite IH; cbn [List.length]; lia.
      * rewrite andb_false_r. simpl. lia.
    + rewrite scan_select_none by lia. simpl. lia.
Qed.

Lemma ZRemrangebyscore_loop_select (key : Slice) (v : Z) (min max : double)
    (left_close right_close : bool) (iter : list (ZSetsScoreKey * Slice))
    (cur_index stop_index : Z) (st : WriteBatch * Z) :
  let rows :=
    scan_select (score_row_in_range min max left_close right_close)
      (score_row_right_pass max right_close)
      (stop_index - cur_index + 1) iter in
  ZRemrangebyscore_loop key v min max left_close right_close iter cur_index
    stop_index st
  = (fst st
       ++ flat_map (fun row =>
            [DeleteData (member_key key v (sk_member (fst row)));
             DeleteScore (fst row)]) rows,
     snd st + Z.of_nat (List.length rows)).
Proof.
  revert cur_index st.
  induction iter as [|[k s] iter IH]; intros cur_index st.
  - rewrite scan_select_nil. simpl.
    rewrite app_nil_r, Z.add_0_r. now destruct st.
  - simpl. destruct (Z.leb_spec cur_index stop_index) as [Hle|Hgt].
    + rewrite scan_select_cons by lia.
      change (score_row_right_pass max right_close (k, s))
        with (score_right_pass max right_close (sk_score k)).
      change (score_row_in_range min max left_close right_close (k, s))
        with (score_left_pass min left_close (sk_score k)
              && score_right_pass max right_close (sk_score k)).
      replace (stop_index - cur_index + 1 - 1)
        with (stop_index - (cur_index + 1) + 1) by lia.
      destruct (score_right_pass max right_close (sk_score k)); simpl.
      * rewrite andb_true_r. rewrite IH.
        destruct (score_left_pass min left_close (sk_score k));
          cbn [fst snd app flat_map List.length].
        -- rewrite <- app_assoc. f_equal. lia.
        -- reflexivity.
      * rewrite andb_false_r. simpl.
        rewrite app_nil_r, Z.add_0_r. now destruct st.
    + rewrite scan_select_none by lia. simpl.
      rewrite app_nil_r, Z.add_0_r. now destruct st.
Qed.

Lemma ZRevrangebyscore_loop_select (min max : double)
    (left_close right_close : bool) (iter : list (ZSetsScoreKey * Slice))
    (left : Z) (out : list ScoreMember) :
  ZRevrangebyscore_loop min max left_close right_close iter left out
  = out
    ++ map (fun row => to_score_member (fst row))
         (scan_select (score_row_in_range min max left_close right_close)
            (score_row_left_pass min left_close) left iter).
Proof.
  revert left out.
  induction iter as [|[k s] iter IH]; intros left out.
  - rewrite scan_select_nil. simpl. now rewrite app_nil_r.
  - simpl. destruct (Z.gtb_spec left 0) as [Hpos|Hle].
    + rewrite scan_select_cons by lia.
      change (score_row_left_pass min left_close (k, s))
        with (score_left_pass min left_close (sk_score k)).
      change (score_row_in_range min max left_close right_close (k, s))
        with (score_left_pass min left_close (sk_score k)
              && score_right_pass max right_close (sk_score k)).
      destruct (score_left_pass min left_close (sk_score k)); simpl.
      * rewrite IH.
        destruct (score_right_pass max right_close (sk_score k)); simpl;
          [now rewrite <- app_assoc | reflexivity].
      * now rewrite app_nil_r.
    + rewrite scan_select_none by lia. simpl. now rewrite app_nil_r.
Qed.

Lemma scan_select_Forall (A : Type) (keep go_on : A -> bool) (n : Z)
    (rows : list A) :
  Forall (fun x => keep x = true) (scan_select keep go_on n rows).
Proof.
  unfold scan_select. apply Forall_forall. intros x Hx.
  now apply filter_In in Hx.
Qed.

Lemma ZRangebyscore_live (db : DB) (now : Z) (key : Slice)
    (min max : double) (left_close right_close : bool)
    (mv : ZSetsMetaValue) :
  Get_meta db key = Some mv ->
  IsStale now mv = false ->
  count mv <> 0 ->
  ZRangebyscore db now key min max left_close right_close
  = (OK,
     map (fun row => to_score_member (fst row))
       (scan_select (score_row_in_range min max left_close right_close)
          (score_row_right_pass max right_close) (count mv)
          (Seek_score db
             (score_key key (version mv) double_lowest EmptyString)))).
Proof.
  intros Hget Hstale Hcount. unfold ZRangebyscore. rewrite Hget, Hstale.
  destruct (Z.eqb_spec (count mv) 0); [contradiction|].
  rewrite ZRangebyscore_loop_select. simpl app.
  replace (count mv - 1 - 0 + 1) with (count mv) by lia. reflexivity.
Qed.

Lemma ZRevrangebyscore_live (db : DB) (now : Z) (key : Slice)
    (min max : double) (left_close right_close : bool)
    (mv : ZSetsMetaValue) :
  Get_meta db key = Some mv ->
  IsStale now mv = false ->
  count mv <> 0 ->
  ZRevrangebyscore db now key min max left_close right_close
  = (OK,
     map (fun row => to_score_member (fst row))
       (scan_select (score_row_in_range min max left_close right_close)
          (score_row_left_pass min left_close) (count mv)
          (SeekForPrev_score db
             (score_key key (version mv) double_max EmptyString)))).
Proof.
  intros Hget Hstale Hcount. unfold ZRevrangebyscore. rewrite Hget, Hstale.
  destruct (Z.eqb_spec (count mv) 0); [contradiction|].
  now rewrite ZRevrangebyscore_loop_select.
Qed.

(** X7.  On a live key ZRangebyscore returns, in scan order, the rows with
    a score within the bounds among the first [count] rows of the forward
    scan of the set, up to the first row whose score fails the right
    bound. *)
Theorem ZRangebyscore_selects (db : DB) (now : Z) (key : Slice)
    (min max : double) (left_close right_close : bool)
    (mv : ZSetsMetaValue) :
  Get_meta db key = Some mv ->
  IsStale now mv = false ->
  count mv <> 0 ->
  ZRangebyscore db now key min max left_close right_close
  = (OK,
     map (fun row => to_score_member (fst row))
       (filter (score_row_in_range min max left_close right_close)
          (take_while (score_row_right_pass max right_close)
             (firstn (Z.to_nat (count mv))
                (Seek_score db
                   (score_key key (version mv) double_lowest
                      EmptyString)))))).
Proof. apply ZRangebyscore_live. Qed.

(** X8.  On a live key ZRevrangebyscore returns, in backward scan order,
    the rows with a score within the bounds among the first [count] rows
    of the backward scan of the set, up to the first row whose score
    fails the left bound. *)
Theorem ZRevrangebyscore_selects (db : DB) (now : Z) (key : Slice)
    (min max : double) (left_close right_close : bool)
    (mv : ZSetsMetaValue) :
  Get_meta db key = Some mv ->
  IsStale now mv = false ->
  count mv <> 0 ->
  ZRevrangebyscore db now key min max left_close right_close
  = (OK,
     map (fun row => to_score_member (fst row))
       (filter (score_row_in_range min max left_close right_close)
          (take_while (score_row_left_pass min left_close)
             (firstn (Z.to_nat (count mv))
                (SeekForPrev_score db
                   (score_key key (version mv) double_max
                      EmptyString)))))).
Proof. apply ZRevrangebyscore_live. Qed.

Local Open Scope string_scope.

Lemma ZRangebyscore_selects_witness :
  Get_meta pair_db "k" = Some pair_meta
  /\ IsStale 101 pair_meta = false
  /\ count pair_meta <> 0
  /\ ZRangebyscore pair_db 101 "k" one (double_of_Z 2) false true
     = (OK, [{| score := double_of_Z 2; member := "b" |}]).
Proof.
  split; [reflexivity|]. split; [reflexivity|]. split; [discriminate|].
  rewrite (ZRangebyscore_selects pair_db 101 "k" one (double_of_Z 2) false
             true pair_meta eq_refl eq_refl ltac:(discriminate)).
  reflexivity.
Defined.

Lemma ZRevrangebyscore_selects_witness :
  Get_meta pair_db "k" = Some pair_meta
  /\ IsStale 101 pair_meta = false
  /\ count pair_meta <> 0
  /\ ZRevrangebyscore pair_db 101 "k" one (double_of_Z 2) true true
     = (OK, [{| score := double_of_Z 2; member := "b" |};
             {| score := one; member := "a" |}]).
Proof.
  split; [reflexivity|]. split; [reflexivity|]. split; [discriminate|].
  rewrite (ZRevrangebyscore_selects pair_db 101 "k" one (double_of_Z 2) true
             true pair_meta eq_refl eq_refl ltac:(discriminate)).
  reflexivity.
Defined.

Local Close Scope string_scope.

(** X9.  Whatever the database, every pair ZRangebyscore or ZRevrangebyscore
    returns has a score that passes the test of the left bound and the
    test of the right bound. *)
Theorem score_ranges_within_bounds (db : DB) (now : Z) (key : Slice)
    (min max : double) (left_close right_close : bool) :
  Forall (fun sm =>
            score_in_range min max left_close right_close (score sm) = true)
    (snd (ZRangebyscore db now key min max left_close right_close))
  /\ Forall (fun sm =>
            score_in_range min max left_close right_close (score sm) = true)
       (snd (ZRevrangebyscore db now key min max left_close right_close)).
Proof.
  split.
  - unfold ZRangebyscore.
    destruct (Get_meta db key) as [mv|]; [|constructor].
    destruct (IsStale now mv); [constructor|].
    destruct (count mv =? 0); [constructor|].
    rewrite ZRangebyscore_loop_select. simpl.
    apply Forall_map. apply scan_select_Forall.
  - unfold ZRevrangebyscore.
    destruct (Get_meta db key) as [mv|]; [|constructor].
    destruct (IsStale now mv); [constructor|].
    destruct (count mv =? 0); [constructor|].
    rewrite ZRevrangebyscore_loop_select. simpl.
    apply Forall_map. apply scan_select_Forall.
Qed.

(** X10.  ZCount answers with the status of ZRangebyscore and the number
    of pairs ZRangebyscore returns, for the same bounds on the same
    database. *)
Theorem ZCount_counts_ZRangebyscore (db : DB) (now : Z) (key : Slice)
    (min max : double) (left_close right_close : bool) :
  ZCount db now key min max left_close right_close
  = (fst (ZRangebyscore db now key min max left_close right_close),
     Z.of_nat
       (List.length
          (snd (ZRangebyscore db now key min max left_close right_close)))).
Proof.
  unfold ZCount, ZRangebyscore.
  destruct (Get_meta db key) as [mv|]; [|reflexivity].
  destruct (IsStale now mv); [reflexivity|].
  destruct (count mv =? 0); [reflexivity|].
  rewrite ZCount_loop_select, ZRangebyscore_loop_select. simpl.
  now rewrite length_map.
Qed.

(** X11.  ZRemrangebyscore removes what ZRangebyscore returns for the same
    bounds on the same database: it answers with the status of
    ZRangebyscore and the number of pairs ZRangebyscore returns, and on a
    live key its batch deletes the data row and the score row of each
    selected row and then puts the meta row with the count lowered by
    that number. *)
Theorem ZRemrangebyscore_removes_ZRangebyscore (db : DB) (now : Z)
    (key : Slice) (min max : double) (left_close right_close : bool) :
  fst (ZRemrangebyscore db now key min max left_close right_close)
  = (fst (ZRangebyscore db now key min max left_close right_close),
     Z.of_nat
       (List.length
          (snd (ZRangebyscore db now key min max left_close right_close))))
  /\ (forall mv,
        Get_meta db key = Some mv ->
        IsStale now mv = false ->
        count mv <> 0 ->
        let rows :=
          scan_select (score_row_in_range min max left_close right_close)
            (score_row_right_pass max right_close) (count mv)
            (Seek_score db
               (score_key key (version mv) double_lowest EmptyString)) in
        snd (ZRemrangebyscore db now key min max left_close right_close)
        = Write db
            (flat_map (fun row =>
               [DeleteData
                  (member_key key (version mv) (sk_member (fst row)));
                DeleteScore (fst row)]) rows
             ++ [PutMeta key
                   (ModifyCount mv (- Z.of_nat (List.length rows)))])).
Proof.
  split.
  - unfold ZRemrangebyscore, ZRangebyscore.
    destruct (Get_meta db key) as [mv|]; [|reflexivity].
    destruct (IsStale now mv); [reflexivity|].
    destruct (count mv =? 0); [reflexivity|].
    rewrite ZRemrangebyscore_loop_select, ZRangebyscore_loop_select.
    cbn [fst snd app]. now rewrite length_map.
  - intros mv Hget Hstale Hcount rows.
    unfold ZRemrangebyscore. rewrite Hget, Hstale.
    destruct (Z.eqb_spec (count mv) 0); [contradiction|].
    rewrite ZRemrangebyscore_loop_select. cbn [fst snd app].
    replace (count mv - 1 - 0 + 1) with (count mv) by lia. reflexivity.
Qed.

(* ----------------------------------------------------------------- *)
(** ** Ranges by member *)

Lemma ZRangebylex_loop_select (min max : Slice)
    (left_close right_close : bool) (iter : list (ZSetsMemberKey * double))
    (cur_index stop_index : Z) (members : list string) :
  ZRangebylex_loop min max left_close right_close iter cur_index stop_index
    members
  = members
    ++ map (fun row => mk_member (fst row))
         (scan_select (lex_row_in_range min max left_close right_close)
            (lex_row_right_pass max right_close)
            (stop_index - cur_index + 1) iter).
Proof.
  revert cur_index members.
  induction iter as [|[k s] iter IH]; intros cur_index members.
  - rewrite scan_select_nil. simpl. now rewrite app_nil_r.
  - simpl. destruct (Z.leb_spec cur_index stop_index) as [Hle|Hgt].
    + rewrite scan_select_cons by lia.
      change (lex_row_right_pass max right_close (k, s))
        with (lex_right_pass max right_close (mk_member k)).
      change (lex_row_in_range min max left_close right_close (k, s))
        with (lex_left_pass min left_close (mk_member k)
              && lex_right_pass max right_close (mk_member k)).
      destruct (lex_right_pass max right_close (mk_member k)); simpl.
      * rewrite IH.
        replace (stop_index - (cur_index + 1) + 1)
          with (stop_index - cur_index + 1 - 1) by lia.
        rewrite andb_true_r.
        destruct (lex_left_pass min left_close (mk_member k)); simpl;
          [now rewrite <- app_assoc | reflexivity].
      * rewrite andb_false_r. now rewrite app_nil_r.
    + rewrite scan_select_none by lia. simpl. now rewrite app_nil_r.
Qed.

Lemma ZRemrangebylex_loop_select (key : Slice) (v : Z) (min max : Slice)
    (left_close right_close : bool) (iter : list (ZSetsMemberKey * double))
    (cur_index stop_index : Z) (st : WriteBatch * Z) :
  let rows :=
    scan_select (lex_row_in_range min max left_close right_close)
      (lex_row_right_pass max right_close)
      (stop_index - cur_index + 1) iter in
  ZRemrangebylex_loop key v min max left_close right_close iter cur_index
    stop_index st
  = (fst st
       ++ flat_map (fun row =>
            [DeleteData (fst row);
             DeleteScore (score_key key v (snd row) (mk_member (fst row)))])
          rows,
     snd st + Z.of_nat (List.length rows)).
Proof.
  revert cur_index st.
  induction iter as [|[k s] iter IH]; intros cur_index st.
  - rewrite scan_select_nil. simpl.
    rewrite app_nil_r, Z.add_0_r. now destruct st.
  - simpl. destruct (Z.leb_spec cur_index stop_index) as [Hle|Hgt].
    + rewrite scan_select_cons by lia.
      change (lex_row_right_pass max right_close (k, s))
        with (lex_right_pass max right_close (mk_member k)).
      change (lex_row_in_range min max left_close right_close (k, s))
        with (lex_left_pass min left_close (mk_member k)
              && lex_right_pass max right_close (mk_member k)).
      replace (stop_index - cur_index + 1 - 1)
        with (stop_index - (cur_index + 1) + 1) by lia.
      destruct (lex_right_pass max right_close (mk_member k)); simpl.
      * rewrite andb_true_r. rewrite IH.
        destruct (lex_left_pass min left_close (mk_member k));
          cbn [fst snd app flat_map List.length].
        -- rewrite <- app_assoc. f_equal. lia.
        -- reflexivity.
      * rewrite andb_false_r. simpl.
        rewrite app_nil_r, Z.add_0_r. now destruct st.
    + rewrite scan_select_none by lia. simpl.
      rewrite app_nil_r, Z.add_0_r. now destruct st.
Qed.

Lemma take_while_all (A : Type) (f : A -> bool) (l : list A) :
  (forall x, f x = true) -> take_while f l = l.
Proof.
  intros H. induction l as [|x l IH]; simpl; [reflexivity|].
  now rewrite H, IH.
Qed.

Lemma filter_all (A : Type) (f : A -> bool) (l : list A) :
  (forall x, f x = true) -> filter f l = l.
Proof.
  intros H. induction l as [|x l IH]; simpl; [reflexivity|].
  now rewrite H, IH.
Qed.

(** X12.  On a live key ZRangebylex returns, in scan order, the members
    within the lex bounds among the first [count] data rows from the start
    of the set, up to the first member that fails the right bound.  With
    [-] as the left bound and [+] as the right bound it returns the
    members of all these rows. *)
Theorem ZRangebylex_selects (db : DB) (now : Z) (key : Slice)
    (min max : Slice) (left_close right_close : bool)
    (mv : ZSetsMetaValue) :
  Get_meta db key = Some mv ->
  IsStale now mv = false ->
  count mv <> 0 ->
  let scan :=
    firstn (Z.to_nat (count mv))
      (Seek_data db (member_key key (version mv) EmptyString)) in
  ZRangebylex db now key min max left_close right_close
  = (OK,
     map (fun row => mk_member (fst row))
       (filter (lex_row_in_range min max left_close right_close)
          (take_while (lex_row_right_pass max right_close) scan)))
  /\ ZRangebylex db now key "-"%string "+"%string left_close right_close
     = (OK, map (fun row => mk_member (fst row)) scan).
Proof.
  intros Hget Hstale Hcount scan.
  assert (H : forall min max,
    ZRangebylex db now key min max left_close right_close
    = (OK,
       map (fun row => mk_member (fst row))
         (filter (lex_row_in_range min max left_close right_close)
            (take_while (lex_row_right_pass max right_close) scan)))).
  { intros min0 max0. unfold ZRangebylex. rewrite Hget, Hstale.
    destruct (Z.eqb_spec (count mv) 0); [contradiction|]. simpl orb.
    rewrite ZRangebylex_loop_select. simpl app.
    replace (count mv - 1 - 0 + 1) with (count mv) by lia. reflexivity. }
  split; [apply H|].
  rewrite H, take_while_all, filter_all; [reflexivity| |]; intros row;
    reflexivity.
Qed.

Local Open Scope string_scope.

Lemma ZRangebylex_selects_witness :
  Get_meta pair_db "k" = Some pair_meta
  /\ IsStale 101 pair_meta = false
  /\ count pair_meta <> 0
  /\ ZRangebylex pair_db 101 "k" "a" "b" false true = (OK, ["b"]).
Proof.
  split; [reflexivity|]. split; [reflexivity|]. split; [discriminate|].
  rewrite (proj1 (ZRangebylex_selects pair_db 101 "k" "a" "b" false true
                    pair_meta eq_refl eq_refl ltac:(discriminate))).
  reflexivity.
Defined.

Local Close Scope string_scope.

(** X13.  ZRemrangebylex removes what ZRangebylex returns for the same
    bounds on the same database: it answers as ZLexcount does, with the
    status of ZRangebylex and the number of members it returns.  On a
    live key its batch deletes the data row of each selected row and the
    score row built from that row's member and stored score, and puts the
    meta row with the lowered count only if some row was selected. *)
Theorem ZRemrangebylex_removes_ZRangebylex (db : DB) (now : Z)
    (key : Slice) (min max : Slice) (left_close right_close : bool) :
  fst (ZRemrangebylex db now key min max left_close right_close)
  = ZLexcount db now key min max left_close right_close
  /\ ZLexcount db now key min max left_close right_close
     = (fst (ZRangebylex db now key min max left_close right_close),
        Z.of_nat
          (List.length
             (snd (ZRangebylex db now key min max left_close
                     right_close))))
  /\ (forall mv,
        Get_meta db key = Some mv ->
        IsStale now mv = false ->
        count mv <> 0 ->
        let rows :=
          scan_select (lex_row_in_range min max left_close right_close)
            (lex_row_right_pass max right_close) (count mv)
            (Seek_data db (member_key key (version mv) EmptyString)) in
        snd (ZRemrangebylex db now key min max left_close right_close)
        = match rows with
          | [] => db
          | _ :: _ =>
              Write db
                (flat_map (fun row =>
                   [DeleteData (fst row);
                    DeleteScore
                      (score_key key (version mv) (snd row)
                         (mk_member (fst row)))]) rows
                 ++ [PutMeta key
                       (ModifyCount mv (- Z.of_nat (List.length rows)))])
          end).
Proof.
  split; [|split].
  - unfold ZLexcount, ZRemrangebylex, ZRangebylex.
    destruct (Get_meta db key) as [mv|]; [|reflexivity].
    destruct (IsStale now mv || (count mv =? 0)); [reflexivity|].
    rewrite ZRemrangebylex_loop_select, ZRangebylex_loop_select.
    cbn [fst snd app]. rewrite length_map.
    set (rows := scan_select _ _ _ _).
    destruct (Z.gtb_spec (0 + Z.of_nat (List.length rows)) 0);
      cbn [fst]; f_equal; lia.
  - unfold ZLexcount.
    now destruct (ZRangebylex db now key min max left_close right_close).
  - intros mv Hget Hstale Hcount rows.
    unfold ZRemrangebylex. rewrite Hget, Hstale.
    destruct (Z.eqb_spec (count mv) 0); [contradiction|]. simpl orb.
    rewrite ZRemrangebylex_loop_select. cbn [fst snd app].
    replace (count mv - 1 - 0 + 1) with (count mv) by lia. fold rows.
    destruct rows as [|row rows']; [reflexivity|].
    destruct (Z.gtb_spec
                (0 + Z.of_nat (List.length (row :: rows'))) 0) as [_|Hle];
      [reflexivity|].
    cbn [List.length] in Hle. lia.
Qed.

(* ----------------------------------------------------------------- *)
(** ** ZRem *)

Lemma existsb_eqb_In (m : string) (unique : list string) :
  existsb (String.eqb m) unique = true <-> In m unique.
Proof.
  rewrite existsb_exists. split.
  - intros (x & Hx & E). apply String.eqb_eq in E. now subst.
  - intros H. exists m. split; [exact H | apply String.eqb_refl].
Qed.

Lemma filter_members_In (unique members : list string) (m : string) :
  In m (filter_members unique members)
  <-> In m members /\ ~ In m unique.
Proof.
  revert unique. induction members as [|x rest IH]; intros unique; simpl.
  - tauto.
  - destruct (existsb (String.eqb x) unique) eqn:E.
    + apply existsb_eqb_In in E. rewrite IH. split.
      * tauto.
      * intros [[-> | H] Hn]; [contradiction | tauto].
    + assert (Hx : ~ In x unique).
      { intros H. apply existsb_eqb_In in H. congruence. }
      simpl. rewrite IH. simpl. split.
      * intros [-> | [H Hn]]; [tauto|]. split; [tauto|]. tauto.
      * intros [[-> | H] Hn]; [tauto|].
        destruct (String.eqb_spec x m) as [->|Hne]; [tauto|].
        right. split; [exact H|]. intros [e | Hu]; congruence.
Qed.

Lemma filter_members_NoDup (unique members : list string) :
  NoDup (filter_members unique members).
Proof.
  revert unique. induction members as [|x rest IH]; intros unique; simpl.
  - constructor.
  - destruct (existsb (String.eqb x) unique); [apply IH|].
    constructor; [|apply IH].
    rewrite filter_members_In. simpl. tauto.
Qed.

Lemma ZRem_loop_spec (db : DB) (key : Slice) (v : Z) (l : list string)
    (batch : WriteBatch) (del_cnt : Z) :
  fold_left (ZRem_step db key v) l (batch, del_cnt)
  = (batch ++ flat_map (removal_of db key v) l,
     del_cnt + Z.of_nat (List.length (filter (in_set db key v) l))).
Proof.
  revert batch del_cnt. induction l as [|m l IH]; intros batch del_cnt.
  - simpl. now rewrite app_nil_r, Z.add_0_r.
  - simpl. unfold removal_of at 1, in_set at 1.
    destruct (Get_data db (member_key key v m)) as [s|].
    + rewrite IH. cbn [List.length]. rewrite <- app_assoc. f_equal. lia.
    + now rewrite IH.
Qed.

Lemma Get_data_Write_deletes (db : DB) (batch : WriteBatch)
    (k : ZSetsMemberKey) :
  forallb is_delete batch = true ->
  Get_data db k = None \/ In (DeleteData k) batch ->
  Get_data (Write db batch) k = None.
Proof.
  revert db. induction batch as [|op batch IH]; intros db Hdel Hk.
  - destruct Hk as [Hk | []]. exact Hk.
  - simpl in Hdel. apply andb_true_iff in Hdel. destruct Hdel as [Hop Hdel].
    rewrite Write_cons. apply IH; [exact Hdel|].
    destruct op as [| | |k0|k0]; try discriminate.
    + destruct Hk as [Hk | [E | Hin]].
      * left. unfold Get_data in *. simpl.
        now apply (encoded_get_delete_none ZSetsMemberKey_Encode).
      * inversion E; subst. left. unfold Get_data. simpl.
        apply (encoded_get_delete_same ZSetsMemberKey_Encode).
      * now right.
    + destruct Hk as [Hk | [E | Hin]]; [now left | discriminate | now right].
Qed.

Lemma removal_batch_deletes (db : DB) (key : Slice) (v : Z)
    (l : list string) :
  forallb is_delete (flat_map (removal_of db key v) l) = true.
Proof.
  induction l as [|m l IH]; simpl; [reflexivity|].
  rewrite forallb_app, IH. unfold removal_of.
  now destruct (Get_data db (member_key key v m)).
Qed.

Lemma ZRem_live (db : DB) (now : Z) (key : Slice) (members : list string)
    (mv : ZSetsMetaValue) :
  Get_meta db key = Some mv ->
  IsStale now mv = false ->
  count mv <> 0 ->
  let distinct := filter_members [] members in
  let ret :=
    Z.of_nat (List.length (filter (in_set db key (version mv)) distinct)) in
  ZRem db now key members
  = (OK, ret,
     Write db
       (flat_map (removal_of db key (version mv)) distinct
        ++ [PutMeta key (ModifyCount mv (- ret))])).
Proof.
  intros Hget Hstale Hcount distinct ret.
  unfold ZRem. rewrite Hget, Hstale.
  destruct (Z.eqb_spec (count mv) 0); [contradiction|].
  fold distinct. rewrite ZRem_loop_spec. reflexivity.
Qed.

(** X14.  After ZRem, whatever the database and the list of members, none
    of the named members has a score in the set at the clock reading of
    the call: ZScore answers NotFound for each of them. *)
Theorem ZRem_removes_named_members (db : DB) (now : Z) (key : Slice)
    (members : list string) (m : string) :
  In m members ->
  IsNotFound (fst (ZScore (snd (ZRem db now key members)) now key m)) = true.
Proof.
  intros Hin.
  destruct (Get_meta db key) as [mv|] eqn:Hget;
    [|unfold ZRem, ZScore; now rewrite Hget; simpl; rewrite Hget].
  destruct (IsStale now mv) eqn:Hstale;
    [unfold ZRem, ZScore; now rewrite Hget, Hstale; simpl;
       rewrite Hget, Hstale|].
  destruct (Z.eqb_spec (count mv) 0) as [e|Hcount].
  { unfold ZRem, ZScore. rewrite Hget, Hstale.
    apply Z.eqb_eq in e. rewrite e. simpl. now rewrite Hget, Hstale, e. }
  rewrite (ZRem_live db now key members mv Hget Hstale Hcount).
  cbn [snd]. unfold ZScore. rewrite Get_meta_Write_PutMeta.
  replace (IsStale now (ModifyCount mv _)) with false by (symmetry; exact Hstale).
  destruct (count (ModifyCount mv _) =? 0); [reflexivity|].
  cbn [version ModifyCount].
  set (batch := flat_map _ _).
  assert (Hd : Get_data (Write db (batch ++ [PutMeta key
                 (ModifyCount mv
                    (- Z.of_nat (List.length
                        (filter (in_set db key (version mv))
                           (filter_members [] members))))) ]))
                 (member_key key (version mv) m) = None).
  { rewrite Write_app. unfold Get_data at 1. simpl.
    change (cf_get ZSetsMemberKey_compare
              (data_cf (Write db batch)) (member_key key (version mv) m))
      with (Get_data (Write db batch) (member_key key (version mv) m)).
    apply Get_data_Write_deletes; [apply removal_batch_deletes|].
    destruct (Get_data db (member_key key (version mv) m)) as [s|] eqn:G;
      [right | now left].
    unfold batch. apply in_flat_map. exists m. split.
    - apply filter_members_In. split; [exact Hin | tauto].
    - unfold removal_of. rewrite G. now left. }
  now rewrite Hd.
Qed.

Local Open Scope string_scope.

Lemma ZRem_removes_named_members_witness :
  In "a" ["a"; "zz"]
  /\ ZScore (snd (ZRem pair_db 101 "k" ["a"; "zz"])) 101 "k" "b"
     = (OK, double_of_Z 2)
  /\ IsNotFound
       (fst (ZScore (snd (ZRem pair_db 101 "k" ["a"; "zz"])) 101 "k" "a"))
     = true.
Proof.
  split; [now left|]. split; [reflexivity|].
  apply (ZRem_removes_named_members pair_db 101 "k" ["a"; "zz"] "a").
  now left.
Defined.

Local Close Scope string_scope.

Lemma removal_of_present (db : DB) (key : Slice) (v : Z) (l : list string) :
  flat_map (removal_of db key v) l
  = flat_map (removal_of db key v) (filter (in_set db key v) l).
Proof.
  induction l as [|x l IH]; simpl; [reflexivity|].
  assert (Hx : removal_of db key v x
               = if in_set db key v x then removal_of db key v x else []).
  { unfold in_set, removal_of.
    now destruct (Get_data db (member_key key v x)). }
  destruct (in_set db key v x).
  - cbn [flat_map]. now rewrite IH.
  - rewrite Hx. exact IH.
Qed.

(** X15.  ZRem on a live key returns the number of distinct named members
    that have a data row in the set.  Its batch deletes, for each of them
    in the order of first mention, the data row and the score row built
    from the stored score, and ends with the meta row whose count is
    lowered by the returned value; version and expiry stay. *)
Theorem ZRem_counts_removed_members (db : DB) (now : Z) (key : Slice)
    (members : list string) (mv : ZSetsMetaValue) :
  Get_meta db key = Some mv ->
  IsStale now mv = false ->
  count mv <> 0 ->
  let v := version mv in
  let removed := filter (in_set db key v) (filter_members [] members) in
  let ret := Z.of_nat (List.length removed) in
  ZRem db now key members
  = (OK, ret,
     Write db
       (flat_map (removal_of db key v) removed
        ++ [PutMeta key (ModifyCount mv (- ret))]))
  /\ NoDup removed
  /\ (forall m, In m removed
                <-> In m members
                    /\ Get_data db (member_key key v m) <> None)
  /\ ret <= Z.of_nat (List.length members)
  /\ Get_meta (snd (ZRem db now key members)) key
     = Some {| version := version mv; count := count mv - ret;
               timestamp := timestamp mv |}.
Proof.
  intros Hget Hstale Hcount v removed ret.
  pose proof (ZRem_live db now key members mv Hget Hstale Hcount) as H.
  cbv zeta in H. fold v in H. fold removed in H. fold ret in H.
  assert (Hflat : flat_map (removal_of db key v) (filter_members [] members)
                  = flat_map (removal_of db key v) removed)
    by apply removal_of_present.
  rewrite Hflat in H.
  split; [exact H|]. split.
  { unfold removed. apply NoDup_filter, filter_members_NoDup. }
  split.
  { intros m. unfold removed. rewrite filter_In, filter_members_In.
    unfold in_set. simpl.
    destruct (Get_data db (member_key key v m)); split.
    - intros [[Hm _] _]. split; [exact Hm | discriminate].
    - intros [Hm _]. repeat split; [exact Hm | tauto].
    - intros [_ Hf]. discriminate.
    - intros [_ Hn]. congruence. }
  split.
  { unfold ret, removed.
    pose proof (filter_length_le (in_set db key v)
                  (filter_members [] members)).
    assert (Hl : forall u l, (List.length (filter_members u l)
                              <= List.length l)%nat).
    { intros u l. revert u. induction l as [|x l IHl]; intros u; simpl.
      - lia.
      - destruct (existsb (String.eqb x) u); simpl;
          [specialize (IHl u) | specialize (IHl (x :: u))]; lia. }
    specialize (Hl [] members). lia. }
  rewrite H. cbn [snd]. rewrite Get_meta_Write_PutMeta.
  unfold ModifyCount. now rewrite Z.add_opp_r.
Qed.

Local Open Scope string_scope.

Lemma ZRem_counts_removed_members_witness :
  Get_meta pair_db "k" = Some pair_meta
  /\ IsStale 101 pair_meta = false
  /\ count pair_meta <> 0
  /\ fst (ZRem pair_db 101 "k" ["a"; "zz"; "a"]) = (OK, 1).
Proof.
  split; [reflexivity|]. split; [reflexivity|]. split; [discriminate|].
  rewrite (proj1 (ZRem_counts_removed_members pair_db 101 "k"
                    ["a"; "zz"; "a"] pair_meta eq_refl eq_refl
                    ltac:(discriminate))).
  reflexivity.
Defined.

Local Close Scope string_scope.

(* ----------------------------------------------------------------- *)
(** ** Reading a data row through a batch *)

Lemma string_app_inv_head (a b c : string) :
  (a ++ b)%string = (a ++ c)%string -> b = c.
Proof.
  induction a as [|x a IH]; simpl; intros H; [exact H|].
  inversion H. auto.
Qed.

Lemma member_key_encode_inj (key : Slice) (v : Z) (m m' : string) :
  ZSetsMemberKey_Encode (member_key key v m)
  = ZSetsMemberKey_Encode (member_key key v m') ->
  m = m'.
Proof.
  unfold ZSetsMemberKey_Encode. cbn [mk_key mk_version mk_member member_key].
  intros H. now do 3 apply string_app_inv_head in H.
Qed.

Lemma cf_get_encode_congr (rows : list (ZSetsMemberKey * double))
    (k k' : ZSetsMemberKey) :
  ZSetsMemberKey_Encode k = ZSetsMemberKey_Encode k' ->
  cf_get ZSetsMemberKey_compare rows k
  = cf_get ZSetsMemberKey_compare rows k'.
Proof.
  intros H. induction rows as [|[k0 v0] rest IH]; simpl; [reflexivity|].
  replace (ZSetsMemberKey_compare k0 k) with (ZSetsMemberKey_compare k0 k')
    by (unfold ZSetsMemberKey_compare; now rewrite H).
  now rewrite IH.
Qed.

Lemma Get_data_apply_op (db : DB) (op : BatchOp) (k : ZSetsMemberKey) :
  Get_data (apply_op db op) k = data_effect k (Get_data db k) op.
Proof.
  destruct op as [| k0 s | | k0 |]; try reflexivity;
    unfold Get_data; cbn [apply_op data_cf data_effect];
    destruct (String.eqb_spec (ZSetsMemberKey_Encode k0)
                (ZSetsMemberKey_Encode k)) as [e|n].
  - rewrite <- (cf_get_encode_congr _ k0 k e).
    apply (encoded_get_put_same ZSetsMemberKey_Encode).
  - now apply (encoded_get_put_other ZSetsMemberKey_Encode).
  - rewrite <- (cf_get_encode_congr _ k0 k e).
    apply (encoded_get_delete_same ZSetsMemberKey_Encode).
  - now apply (encoded_get_delete_other ZSetsMemberKey_Encode).
Qed.

Lemma Get_data_Write (db : DB) (batch : WriteBatch) (k : ZSetsMemberKey) :
  Get_data (Write db batch) k
  = fold_left (data_effect k) batch (Get_data db k).
Proof.
  revert db. induction batch as [|op batch IH]; intros db; [reflexivity|].
  rewrite Write_cons, IH, Get_data_apply_op. reflexivity.
Qed.

Lemma data_effect_untouched (k : ZSetsMemberKey) (batch : WriteBatch)
    (cur : option double) :
  forallb (fun op => negb (touches_data k op)) batch = true ->
  fold_left (data_effect k) batch cur = cur.
Proof.
  induction batch as [|op batch IH]; simpl; [reflexivity|].
  intros H. apply andb_true_iff in H. destruct H as [Hop H].
  rewrite <- (IH H) at 2. f_equal.
  destruct op; cbn [touches_data data_effect] in *; try reflexivity;
    now destruct (String.eqb _ _).
Qed.

Lemma forallb_flat_map (A B : Type) (f : B -> bool) (g : A -> list B)
    (l : list A) :
  (forall x, In x l -> forallb f (g x) = true) ->
  forallb f (flat_map g l) = true.
Proof.
  induction l as [|x l IH]; simpl; intros H; [reflexivity|].
  rewrite forallb_app, (H x (or_introl eq_refl)). simpl.
  apply IH. intros y Hy. apply H. now right.
Qed.

(** In a batch built pair by pair, where the operations of a pair touch
    the data row of its member only, the read of a member's row sees the
    contribution of that member's pair and nothing else. *)
Lemma data_effect_flat_map (contrib : ScoreMember -> WriteBatch)
    (key : Slice) (v : Z) (l : list ScoreMember) (sm : ScoreMember)
    (cur : option double) :
  (forall x, member x <> member sm ->
     forallb (fun op =>
                negb (touches_data (member_key key v (member sm)) op))
       (contrib x) = true) ->
  NoDup (map member l) ->
  In sm l ->
  fold_left (data_effect (member_key key v (member sm)))
    (flat_map contrib l) cur
  = fold_left (data_effect (member_key key v (member sm))) (contrib sm) cur.
Proof.
  intros Hc Hnd Hin.
  destruct (in_split _ _ Hin) as (l1 & l2 & ->).
  rewrite map_app in Hnd. simpl in Hnd.
  apply NoDup_remove_2 in Hnd.
  assert (Hother : forall l', (forall x, In x l' -> In (member x)
                                 (map member l1 ++ map member l2)) ->
            forallb (fun op =>
                negb (touches_data (member_key key v (member sm)) op))
              (flat_map contrib l') = true).
  { intros l' Hl'. apply forallb_flat_map. intros x Hx. apply Hc.
    intros e. apply Hnd. rewrite <- e. now apply Hl'. }
  rewrite flat_map_app, fold_left_app. simpl.
  rewrite !fold_left_app.
  rewrite (data_effect_untouched _ (flat_map contrib l1)).
  - apply data_effect_untouched. apply Hother.
    intros x Hx. apply in_or_app. right. now apply in_map.
  - apply Hother. intros x Hx. apply in_or_app. left. now apply in_map.
Qed.

Lemma ZAdd_puts_untouched (key : Slice) (v : Z) (x : ScoreMember)
    (m : string) :
  member x <> m ->
  forallb (fun op => negb (touches_data (member_key key v m) op))
    (ZAdd_puts key v x) = true.
Proof.
  intros Hne. cbn [ZAdd_puts forallb touches_data].
  destruct (String.eqb_spec
              (ZSetsMemberKey_Encode (member_key key v (member x)))
              (ZSetsMemberKey_Encode (member_key key v m))) as [e|n];
    [|reflexivity].
  now apply member_key_encode_inj in e.
Qed.

Lemma pair_contribution_untouched (db : DB) (key : Slice) (v : Z)
    (x : ScoreMember) (m : string) :
  member x <> m ->
  forallb (fun op => negb (touches_data (member_key key v m) op))
    (pair_contribution db key v x) = true.
Proof.
  intros Hne. unfold pair_contribution.
  pose proof (ZAdd_puts_untouched key v x m Hne) as H.
  destruct (Get_data db (member_key key v (member x))) as [old|];
    [destruct (deq old (score x)); [reflexivity|] |]; exact H.
Qed.

(* ----------------------------------------------------------------- *)
(** ** ZAdd followed by reads *)

Lemma ZAdd_loop_stale (db : DB) (key : Slice) (v : Z)
    (l : list ScoreMember) (batch : WriteBatch) (cnt : Z) :
  fold_left (ZAdd_step db key v true) l (batch, cnt)
  = (batch ++ flat_map (ZAdd_puts key v) l,
     cnt + Z.of_nat (List.length l)).
Proof.
  revert batch cnt. induction l as [|sm l IH]; intros batch cnt.
  - simpl. now rewrite app_nil_r, Z.add_0_r.
  - simpl fold_left. rewrite IH. cbn [flat_map List.length].
    rewrite <- app_assoc. f_equal. lia.
Qed.

Lemma contribution_no_meta (db : DB) (now : Z) (key : Slice)
    (l : list ScoreMember) :
  forallb (fun op => negb (is_meta_op op))
    (flat_map (ZAdd_contribution db now key) l) = true.
Proof.
  apply forallb_flat_map. intros x _. unfold ZAdd_contribution.
  destruct (Get_meta db key) as [mv|]; [|reflexivity].
  destruct (IsStale now mv); [reflexivity|].
  unfold pair_contribution.
  destruct (Get_data db _) as [old|]; [|reflexivity].
  now destruct (deq old (score x)).
Qed.

(** The database ZAdd leaves, seen through point reads of the key's meta
    row and of a data row. *)
Lemma ZAdd_reads (db : DB) (now : Z) (key : Slice)
    (score_members : list ScoreMember) :
  let filtered := first_occurrences score_members in
  let db' := snd (ZAdd db now key score_members) in
  fst (ZAdd db now key score_members)
  = (OK, count (ZAdd_meta db now key filtered)
         - match Get_meta db key with
           | Some mv => if IsStale now mv then 0 else count mv
           | None => 0
           end)
  /\ Get_meta db' key = Some (ZAdd_meta db now key filtered)
  /\ forall k,
       Get_data db' k
       = fold_left (data_effect k)
           (flat_map (ZAdd_contribution db now key) filtered)
           (Get_data db k).
Proof.
  intros filtered db'.
  pose proof (contribution_no_meta db now key filtered) as Hnm.
  unfold db', ZAdd, ZAdd_batch, ZAdd_meta, ZAdd_contribution in *.
  rewrite filter_score_members_first. fold filtered.
  destruct (Get_meta db key) as [mv|] eqn:Hget.
  - destruct (IsStale now mv) eqn:Hstale.
    + rewrite ZAdd_loop_stale. cbn [fst snd app].
      split; [f_equal; simpl; lia|]. split.
      * apply Get_meta_Write_PutMeta.
      * intros k. rewrite Get_data_Write, fold_left_app. reflexivity.
    + rewrite ZAdd_loop_spec. cbn [fst snd app].
      split; [f_equal; simpl; lia|]. split.
      * apply Get_meta_Write_PutMeta.
      * intros k. rewrite Get_data_Write, fold_left_app. reflexivity.
  - cbn [fst snd]. split; [f_equal; simpl; lia|]. split.
    + rewrite Write_cons. unfold Get_meta.
      rewrite (Write_keeps_meta _ _ Hnm).
      apply Get_meta_PutMeta_same.
    + intros k. rewrite Get_data_Write. reflexivity.
Qed.

(* ----------------------------------------------------------------- *)
(** ** ZAdd on an input that repeats a member *)

Lemma ZAdd_batch_shape (db : DB) (now : Z) (key : Slice)
    (score_members : list ScoreMember) :
  let filtered := first_occurrences score_members in
  snd (ZAdd_batch db now key score_members)
  = match Get_meta db key with
    | Some _ =>
        flat_map (ZAdd_contribution db now key) filtered
          ++ [PutMeta key (ZAdd_meta db now key filtered)]
    | None =>
        PutMeta key (ZAdd_meta db now key filtered)
          :: flat_map (ZAdd_contribution db now key) filtered
    end.
Proof.
  intros filtered.
  unfold ZAdd_batch, ZAdd_meta, ZAdd_contribution.
  rewrite filter_score_members_first. fold filtered.
  destruct (Get_meta db key) as [mv|]; [|reflexivity].
  destruct (IsStale now mv).
  - rewrite ZAdd_loop_stale. reflexivity.
  - rewrite ZAdd_loop_spec. reflexivity.
Qed.

(** The operations one pair contributes are about its member, under the
    version of the meta row ZAdd commits. *)
Lemma ZAdd_contribution_ops (db : DB) (now : Z) (key : Slice)
    (filtered : list ScoreMember) (sm : ScoreMember) (op : BatchOp) :
  In op (ZAdd_contribution db now key sm) ->
  let v := version (ZAdd_meta db now key filtered) in
  op = PutData (member_key key v (member sm)) (score sm)
  \/ op = PutScore (score_key key v (score sm) (member sm))
  \/ exists old, op = DeleteScore (score_key key v old (member sm)).
Proof.
  unfold ZAdd_contribution, ZAdd_meta.
  destruct (Get_meta db key) as [mv|].
  - destruct (IsStale now mv); cbn [version ModifyCount].
    + intros [<- | [<- | []]]; [now left | now right; left].
    + unfold pair_contribution.
      destruct (Get_data db (member_key key (version mv) (member sm)))
        as [old|].
      * destruct (deq old (score sm)); [intros []|].
        intros [<- | [<- | [<- | []]]];
          [right; right; now exists old | now left | now right; left].
      * intros [<- | [<- | []]]; [now left | now right; left].
  - intros [<- | [<- | []]]; [now left | now right; left].
Qed.

(** A pair is written with its two puts, unless the key is live and the
    member holds a score the source finds equal. *)
Lemma ZAdd_contribution_applied (db : DB) (now : Z) (key : Slice)
    (filtered : list ScoreMember) (sm : ScoreMember) :
  let v := version (ZAdd_meta db now key filtered) in
  (In (PutData (member_key key v (member sm)) (score sm))
     (ZAdd_contribution db now key sm)
   /\ In (PutScore (score_key key v (score sm) (member sm)))
        (ZAdd_contribution db now key sm))
  \/ (exists old,
        Get_data db (member_key key v (member sm)) = Some old
        /\ deq old (score sm) = true).
Proof.
  unfold ZAdd_contribution, ZAdd_meta.
  destruct (Get_meta db key) as [mv|].
  - destruct (IsStale now mv); cbn [version ModifyCount].
    + left. split; [now left | now right; left].
    + unfold pair_contribution.
      destruct (Get_data db (member_key key (version mv) (member sm)))
        as [old|] eqn:G.
      * destruct (deq old (score sm)) eqn:E.
        -- right. now exists old.
        -- left. split; [now right; left | now right; right; left].
      * left. split; [now left | now right; left].
  - left. split; [now left | now right; left].
Qed.

Lemma NoDup_map_inj (A B : Type) (f : A -> B) (l : list A) (a b : A) :
  NoDup (map f l) -> In a l -> In b l -> f a = f b -> a = b.
Proof.
  induction l as [|x l IH]; simpl; [contradiction|].
  intros Hnd Ha Hb e. inversion Hnd as [|? ? Hx Hl]; subst.
  destruct Ha as [-> | Ha]; destruct Hb as [-> | Hb]; auto.
  - contradiction Hx. rewrite e. now apply in_map.
  - contradiction Hx. rewrite <- e. now apply in_map.
Qed.

(** C9.  When the input of ZAdd names a member more than once, only the
    first pair of that member is applied and the later ones are dropped.
    The list the command works on holds exactly the pairs that come first
    for their member in the input, and the command answers on any input
    as it does on that list.  The database it leaves is the one its batch
    writes, with a meta row for the key.  Under the version of that meta
    row: each first pair has its data row and its score row put by the
    batch, unless the member holds a score the source finds equal ([==]
    on doubles) and nothing is to be written; afterwards the data row of
    a first pair's member holds the score of that pair (or the equal
    score it held); every data row and every score row the batch puts is
    that of a first pair; and for no member does the batch put a data row
    or a score row with a score other than that of the member's first
    pair. *)
Theorem ZAdd_keeps_first_occurrence (db : DB) (now : Z) (key : Slice)
    (score_members : list ScoreMember) :
  let kept := first_occurrences score_members in
  let batch := snd (ZAdd_batch db now key score_members) in
  let db' := snd (ZAdd db now key score_members) in
  filter_score_members [] score_members = kept
  /\ (forall sm,
        In sm kept
        <-> find (fun x => String.eqb (member x) (member sm)) score_members
            = Some sm)
  /\ ZAdd db now key score_members = ZAdd db now key kept
  /\ db' = Write db batch
  /\ exists mv',
       Get_meta db' key = Some mv'
       /\ (forall sm,
             In sm kept ->
             (In (PutData (member_key key (version mv') (member sm))
                    (score sm)) batch
              /\ In (PutScore
                       (score_key key (version mv') (score sm) (member sm)))
                   batch)
             \/ (exists old,
                   Get_data db (member_key key (version mv') (member sm))
                   = Some old
                   /\ deq old (score sm) = true))
       /\ (forall sm,
             In sm kept ->
             exists s,
               Get_data db' (member_key key (version mv') (member sm))
               = Some s
               /\ (s = score sm \/ deq s (score sm) = true))
       /\ (forall k s,
             In (PutData k s) batch ->
             exists sm,
               In sm kept
               /\ k = member_key key (version mv') (member sm)
               /\ s = score sm)
       /\ (forall k,
             In (PutScore k) batch ->
             exists sm,
               In sm kept
               /\ k = score_key key (version mv') (score sm) (member sm))
       /\ (forall sm s,
             In sm kept -> s <> score sm ->
             ~ In (PutData (member_key key (version mv') (member sm)) s)
                 batch
             /\ ~ In (PutScore
                        (score_key key (version mv') s (member sm)))
                    batch).
Proof.
  intros kept batch db'.
  pose proof (first_occurrences_NoDup score_members) as Hnd. fold kept in Hnd.
  pose proof (ZAdd_batch_shape db now key score_members) as Hshape.
  cbv zeta in Hshape. fold kept in Hshape. fold batch in Hshape.
  destruct (ZAdd_reads db now key score_members) as (_ & Hmeta & Hdata).
  fold kept in Hmeta, Hdata. fold db' in Hmeta, Hdata.
  set (mv' := ZAdd_meta db now key kept) in *.
  assert (Hin : forall op,
            In op batch ->
            op = PutMeta key mv'
            \/ exists sm, In sm kept
                          /\ In op (ZAdd_contribution db now key sm)).
  { intros op Hop. rewrite Hshape in Hop.
    destruct (Get_meta db key).
    - apply in_app_or in Hop. destruct Hop as [Hop | [<- | []]];
        [|now left].
      right. apply in_flat_map in Hop. exact Hop.
    - destruct Hop as [<- | Hop]; [now left|].
      right. apply in_flat_map in Hop. exact Hop. }
  assert (Hback : forall sm op,
            In sm kept -> In op (ZAdd_contribution db now key sm) ->
            In op batch).
  { intros sm op Hsm Hop. rewrite Hshape.
    assert (Hf : In op (flat_map (ZAdd_contribution db now key) kept))
      by (apply in_flat_map; now exists sm).
    destruct (Get_meta db key);
      [apply in_or_app; now left | now right]. }
  assert (Hputs : forall k s,
            In (PutData k s) batch ->
            exists sm, In sm kept
                       /\ k = member_key key (version mv') (member sm)
                       /\ s = score sm).
  { intros k s Hop. destruct (Hin _ Hop) as [e | (sm & Hsm & Hc)];
      [discriminate|].
    exists sm. split; [exact Hsm|].
    destruct (ZAdd_contribution_ops db now key kept sm _ Hc)
      as [e | [e | (old & e)]]; try discriminate.
    now inversion e. }
  assert (Hscores : forall k,
            In (PutScore k) batch ->
            exists sm, In sm kept
                       /\ k = score_key key (version mv') (score sm)
                                (member sm)).
  { intros k Hop. destruct (Hin _ Hop) as [e | (sm & Hsm & Hc)];
      [discriminate|].
    exists sm. split; [exact Hsm|].
    destruct (ZAdd_contribution_ops db now key kept sm _ Hc)
      as [e | [e | (old & e)]]; try discriminate.
    now inversion e. }
  split; [apply filter_score_members_first|]. split.
  { intros sm. apply first_occurrences_find. }
  split.
  { unfold kept, ZAdd, ZAdd_batch.
    rewrite !filter_score_members_first, first_occurrences_idem.
    reflexivity. }
  split.
  { unfold db', batch, ZAdd.
    now destruct (ZAdd_batch db now key score_members) as [[s ret] b]. }
  exists mv'. split; [exact Hmeta|].
  split; [|split; [|split; [exact Hputs | split; [exact Hscores|]]]].
  - intros sm Hsm.
    destruct (ZAdd_contribution_applied db now key kept sm)
      as [[Hd Hs] | Hold]; [left | now right].
    split; now apply (Hback sm).
  - intros sm Hsm. rewrite Hdata.
    unfold mv', ZAdd_meta, ZAdd_contribution.
    destruct (Get_meta db key) as [mv|] eqn:Hget.
    + destruct (IsStale now mv) eqn:Hstale; cbn [version ModifyCount].
      * rewrite (data_effect_flat_map _ key _ _ sm); [|
          intros x Hx; now apply ZAdd_puts_untouched | exact Hnd
          | exact Hsm].
        cbn [ZAdd_puts fold_left data_effect]. rewrite String.eqb_refl.
        exists (score sm). split; [reflexivity | now left].
      * rewrite (data_effect_flat_map _ key _ _ sm); [|
          intros x Hx; now apply pair_contribution_untouched
          | exact Hnd | exact Hsm].
        unfold pair_contribution.
        destruct (Get_data db (member_key key (version mv) (member sm)))
          as [old|] eqn:G.
        -- destruct (deq old (score sm)) eqn:E.
           ++ exists old. cbn [fold_left]. split; [reflexivity | now right].
           ++ cbn [fold_left data_effect]. rewrite String.eqb_refl.
              exists (score sm). split; [reflexivity | now left].
        -- cbn [fold_left data_effect]. rewrite String.eqb_refl.
           exists (score sm). split; [reflexivity | now left].
    + cbn [version new_meta_value UpdateVersion].
      rewrite (data_effect_flat_map _ key _ _ sm); [|
        intros x Hx; now apply ZAdd_puts_untouched | exact Hnd | exact Hsm].
      cbn [ZAdd_puts fold_left data_effect]. rewrite String.eqb_refl.
      exists (score sm). split; [reflexivity | now left].
  - intros sm s Hsm Hs. split; intros Hop.
    + destruct (Hputs _ _ Hop) as (sm0 & Hsm0 & Hk & e).
      inversion Hk as [Hm].
      assert (sm = sm0)
        by (apply (NoDup_map_inj _ _ member kept); assumption).
      subst sm0. contradiction.
    + destruct (Hscores _ Hop) as (sm0 & Hsm0 & Hk).
      inversion Hk as [[Hsc Hm]].
      assert (sm = sm0)
        by (apply (NoDup_map_inj _ _ member kept); assumption).
      subst sm0. contradiction.
Qed.

Lemma ZAdd_meta_live (db : DB) (now : Z) (key : Slice)
    (filtered : list ScoreMember) :
  (forall mv, Get_meta db key = Some mv -> IsStale now mv = false ->
              0 < count mv) ->
  filtered <> [] ->
  IsStale now (ZAdd_meta db now key filtered) = false
  /\ 0 < count (ZAdd_meta db now key filtered).
Proof.
  intros Hlive Hne.
  assert (Hlen : 0 < Z.of_nat (List.length filtered))
    by (destruct filtered; [congruence | simpl; lia]).
  unfold ZAdd_meta.
  destruct (Get_meta db key) as [mv|] eqn:Hget.
  - destruct (IsStale now mv) eqn:Hstale.
    + split; [now apply IsStale_no_expiry | simpl; lia].
    + specialize (Hlive mv eq_refl Hstale).
      split; [exact Hstale | simpl; lia].
  - split; [now apply IsStale_no_expiry | simpl; lia].
Qed.

(** X16.  ZAdd followed by ZScore.  When the key is absent, stale, or live
    with a positive count, every pair ZAdd works on (the first pair of
    each member of the input) can be read back at the same clock reading:
    ZScore of its member returns OK with the score of the pair, unless the
    member was in the live set with a score the source finds equal
    ([==] on doubles), in which case the stored score stays and is what
    ZScore returns. *)
Theorem ZAdd_then_ZScore (db : DB) (now : Z) (key : Slice)
    (score_members : list ScoreMember) (sm : ScoreMember) :
  (forall mv, Get_meta db key = Some mv -> IsStale now mv = false ->
              0 < count mv) ->
  In sm (first_occurrences score_members) ->
  let db' := snd (ZAdd db now key score_members) in
  ZScore db' now key (member sm) = (OK, score sm)
  \/ (exists old,
        ZScore db now key (member sm) = (OK, old)
        /\ deq old (score sm) = true
        /\ ZScore db' now key (member sm) = (OK, old)).
Proof.
  intros Hlive Hin db'.
  destruct (ZAdd_reads db now key score_members) as (_ & Hmeta & Hdata).
  fold db' in Hmeta, Hdata.
  assert (Hne : first_occurrences score_members <> [])
    by (intros e; rewrite e in Hin; contradiction).
  destruct (ZAdd_meta_live db now key _ Hlive Hne) as [Hfresh Hpos].
  pose proof (first_occurrences_NoDup score_members) as Hnd.
  unfold ZScore at 1 3. rewrite Hmeta, Hfresh.
  destruct (Z.eqb_spec (count (ZAdd_meta db now key
                                 (first_occurrences score_members))) 0)
    as [e|_]; [lia|].
  rewrite Hdata. clear Hmeta Hdata Hfresh Hpos.
  unfold ZAdd_meta, ZAdd_contribution, ZScore.
  destruct (Get_meta db key) as [mv|] eqn:Hget.
  - destruct (IsStale now mv) eqn:Hstale.
    + left. cbn [version ModifyCount].
      rewrite (data_effect_flat_map _ key _ _ sm); [|
        intros x Hx; now apply ZAdd_puts_untouched | exact Hnd | exact Hin].
      cbn [ZAdd_puts fold_left data_effect]. now rewrite String.eqb_refl.
    + specialize (Hlive mv eq_refl Hstale).
      destruct (Z.eqb_spec (count mv) 0) as [e|_]; [lia|].
      cbn [version ModifyCount].
      rewrite (data_effect_flat_map _ key _ _ sm); [|
        intros x Hx; now apply pair_contribution_untouched
        | exact Hnd | exact Hin].
      unfold pair_contribution.
      destruct (Get_data db (member_key key (version mv) (member sm)))
        as [old|] eqn:G.
      * destruct (deq old (score sm)) eqn:E.
        -- right. exists old. cbn [fold_left]. now repeat split.
        -- left. cbn [fold_left data_effect].
           now rewrite String.eqb_refl.
      * left. cbn [fold_left data_effect]. now rewrite String.eqb_refl.
  - left. cbn [version new_meta_value UpdateVersion].
    rewrite (data_effect_flat_map _ key _ _ sm); [|
      intros x Hx; now apply ZAdd_puts_untouched | exact Hnd | exact Hin].
    cbn [ZAdd_puts fold_left data_effect]. now rewrite String.eqb_refl.
Qed.

Local Open Scope string_scope.

Lemma ZAdd_then_ZScore_witness :
  (forall mv, Get_meta pair_db "k" = Some mv -> IsStale 101 mv = false ->
              0 < count mv)
  /\ In (scored 7 "b")
       (first_occurrences [scored 7 "b"; scored 1 "a"; scored 9 "b"])
  /\ ZScore
       (snd (ZAdd pair_db 101 "k"
               [scored 7 "b"; scored 1 "a"; scored 9 "b"]))
       101 "k" "b"
     = (OK, double_of_Z 7).
Proof.
  assert (Hlive : forall mv, Get_meta pair_db "k" = Some mv ->
                    IsStale 101 mv = false -> 0 < count mv).
  { intros mv H _. inversion H. reflexivity. }
  assert (Hin : In (scored 7 "b")
                  (first_occurrences
                     [scored 7 "b"; scored 1 "a"; scored 9 "b"]))
    by now left.
  split; [exact Hlive|]. split; [exact Hin|].
  destruct (ZAdd_then_ZScore pair_db 101 "k"
              [scored 7 "b"; scored 1 "a"; scored 9 "b"] (scored 7 "b")
              Hlive Hin) as [H | (old & H & E & _)].
  - exact H.
  - vm_compute in H. inversion H. subst old. vm_compute in E. discriminate.
Defined.

Local Close Scope string_scope.

(** X17.  ZAdd followed by ZCard.  When the key is absent, stale, or live
    with a positive count, and the input is not empty, the cardinality
    ZCard reports after ZAdd is the cardinality it reported before (0 when
    it found no live set) plus the value ZAdd returned. *)
Theorem ZAdd_grows_ZCard (db : DB) (now : Z) (key : Slice)
    (score_members : list ScoreMember) :
  (forall mv, Get_meta db key = Some mv -> IsStale now mv = false ->
              0 < count mv) ->
  score_members <> [] ->
  exists ret,
    fst (ZAdd db now key score_members) = (OK, ret)
    /\ 0 <= ret <= Z.of_nat (List.length score_members)
    /\ ZCard (snd (ZAdd db now key score_members)) now key
       = (OK, snd (ZCard db now key) + ret).
Proof.
  intros Hlive Hne.
  destruct (ZAdd_reads db now key score_members) as (Hret & Hmeta & _).
  assert (Hne' : first_occurrences score_members <> [])
    by (destruct score_members; [congruence | discriminate]).
  destruct (ZAdd_meta_live db now key _ Hlive Hne') as [Hfresh Hpos].
  assert (Hlen : (List.length (first_occurrences score_members)
                  <= List.length score_members)%nat).
  { clear. induction score_members as [|x l IH]; simpl; [lia|].
    pose proof (filter_length_le
                  (fun y => negb (String.eqb (member y) (member x)))
                  (first_occurrences l)). lia. }
  eexists. split; [exact Hret|].
  unfold ZCard at 1. rewrite Hmeta, Hfresh.
  destruct (Z.eqb_spec (count (ZAdd_meta db now key
                                 (first_occurrences score_members))) 0)
    as [e|_]; [lia|].
  clear Hret Hmeta Hfresh Hpos.
  unfold ZAdd_meta, ZCard.
  destruct (Get_meta db key) as [mv|] eqn:Hget.
  - destruct (IsStale now mv) eqn:Hstale.
    + cbn [count ModifyCount InitialMetaValue UpdateVersion snd].
      split; [lia | f_equal; lia].
    + specialize (Hlive mv eq_refl Hstale).
      destruct (Z.eqb_spec (count mv) 0) as [e|_]; [lia|].
      cbn [count ModifyCount snd].
      pose proof (filter_length_le (absent_from_set db key (version mv))
                    (first_occurrences score_members)).
      split; [lia | f_equal; lia].
  - cbn [count new_meta_value UpdateVersion snd].
    split; [lia | f_equal; lia].
Qed.

Local Open Scope string_scope.

Lemma ZAdd_grows_ZCard_witness :
  (forall mv, Get_meta pair_db "k" = Some mv -> IsStale 101 mv = false ->
              0 < count mv)
  /\ [scored 7 "b"; scored 3 "c"] <> []
  /\ exists ret,
       fst (ZAdd pair_db 101 "k" [scored 7 "b"; scored 3 "c"]) = (OK, ret)
       /\ 0 <= ret <= 2
       /\ ZCard (snd (ZAdd pair_db 101 "k" [scored 7 "b"; scored 3 "c"]))
            101 "k"
          = (OK, 2 + ret).
Proof.
  assert (Hlive : forall mv, Get_meta pair_db "k" = Some mv ->
                    IsStale 101 mv = false -> 0 < count mv).
  { intros mv H _. inversion H. reflexivity. }
  split; [exact Hlive|]. split; [discriminate|].
  exact (ZAdd_grows_ZCard pair_db 101 "k" [scored 7 "b"; scored 3 "c"]
           Hlive ltac:(discriminate)).
Defined.

Local Close Scope string_scope.

(* ----------------------------------------------------------------- *)
(** ** ZIncrby *)

(** X18.  ZIncrby followed by ZScore.  On a key that is absent, or live
    with a positive count, ZIncrby returns OK with the old score plus the
    increment when ZScore found the member, and the increment itself when
    it did not; ZScore of the member at the same clock reading then
    returns OK with the value ZIncrby returned. *)
Theorem ZIncrby_then_ZScore (db : DB) (now : Z) (key m : Slice)
    (increment : double) :
  (forall mv, Get_meta db key = Some mv ->
              IsStale now mv = false /\ 0 < count mv) ->
  let new_score :=
    match ZScore db now key m with
    | (OK, old_score) => dadd old_score increment
    | _ => increment
    end in
  fst (ZIncrby db now key m increment) = (OK, new_score)
  /\ ZScore (snd (ZIncrby db now key m increment)) now key m
     = (OK, new_score).
Proof.
  intros Hlive new_score. unfold new_score, ZIncrby, ZIncrby_batch, ZScore.
  destruct (Get_meta db key) as [mv|] eqn:Hget.
  - destruct (Hlive mv eq_refl) as [Hstale Hpos]. rewrite Hstale.
    destruct (Z.eqb_spec (count mv) 0) as [e|_]; [lia|].
    destruct (Get_data db (member_key key (version mv) m)) as [old|] eqn:G;
      cbn [fst snd]; (split; [reflexivity|]).
    + rewrite !Write_cons. cbn [Write fold_left].
      replace (Get_meta _ key) with (Some mv) by (symmetry; exact Hget).
      rewrite Hstale.
      destruct (Z.eqb_spec (count mv) 0) as [e|_]; [lia|].
      rewrite !Get_data_apply_op. cbn [data_effect].
      now rewrite String.eqb_refl.
    + rewrite !Write_cons. cbn [Write fold_left].
      replace (Get_meta _ key) with (Some (ModifyCount mv 1))
        by (symmetry; apply Get_meta_PutMeta_same).
      replace (IsStale now (ModifyCount mv 1)) with false
        by (symmetry; exact Hstale).
      destruct (Z.eqb_spec (count (ModifyCount mv 1)) 0) as [e|_];
        [simpl in e; lia|].
      rewrite !Get_data_apply_op. cbn [data_effect version ModifyCount].
      now rewrite String.eqb_refl.
  - cbn [fst snd]. split; [reflexivity|].
    rewrite !Write_cons. cbn [Write fold_left].
    replace (Get_meta _ key) with (Some (new_meta_value now 1))
      by (symmetry; apply Get_meta_PutMeta_same).
    rewrite IsStale_no_expiry by reflexivity.
    cbn [count new_meta_value UpdateVersion Z.eqb].
    rewrite !Get_data_apply_op. cbn [data_effect version].
    now rewrite String.eqb_refl.
Qed.

Local Open Scope string_scope.

Lemma ZIncrby_then_ZScore_witness :
  (forall mv, Get_meta pair_db "k" = Some mv ->
              IsStale 101 mv = false /\ 0 < count mv)
  /\ fst (ZIncrby pair_db 101 "k" "b" (double_of_Z 5))
     = (OK, double_of_Z 7)
  /\ ZScore (snd (ZIncrby pair_db 101 "k" "b" (double_of_Z 5))) 101 "k" "b"
     = (OK, double_of_Z 7).
Proof.
  assert (Hlive : forall mv, Get_meta pair_db "k" = Some mv ->
                    IsStale 101 mv = false /\ 0 < count mv).
  { intros mv H. inversion H. split; reflexivity. }
  split; [exact Hlive|].
  exact (ZIncrby_then_ZScore pair_db 101 "k" "b" (double_of_Z 5) Hlive).
Defined.

Local Close Scope string_scope.

(** X19.  ZIncrby of a member that has no data row under the version in
    effect (the key's version when it is live, the version a stale key is
    reset to) does what ZAdd of the one pair (increment, member) does: it
    returns the increment, where ZAdd returns 1, and leaves the same
    database. *)
Theorem ZIncrby_new_member_is_ZAdd (db : DB) (now : Z) (key m : Slice)
    (increment : double) :
  (forall mv, Get_meta db key = Some mv ->
     Get_data db
       (member_key key
          (version (if IsStale now mv then InitialMetaValue now mv else mv))
          m) = None) ->
  ZIncrby db now key m increment
  = (OK, increment,
     snd (ZAdd db now key [{| score := increment; member := m |}]))
  /\ fst (ZAdd db now key [{| score := increment; member := m |}])
     = (OK, 1).
Proof.
  intros Habsent. unfold ZIncrby, ZIncrby_batch, ZAdd, ZAdd_batch.
  cbn [filter_score_members existsb].
  destruct (Get_meta db key) as [mv|] eqn:Hget.
  - specialize (Habsent mv eq_refl). rewrite Habsent.
    destruct (IsStale now mv) eqn:Hstale;
      cbn [fold_left ZAdd_step member score app fst snd];
      rewrite ?Habsent; cbn [app fst snd Z.add];
      (split; [|reflexivity]); reflexivity.
  - cbn [List.length flat_map app fst snd member score Z.of_nat].
    split; reflexivity.
Qed.

Local Open Scope string_scope.

Lemma ZIncrby_new_member_is_ZAdd_witness :
  (forall mv, Get_meta pair_db "k" = Some mv ->
     Get_data pair_db
       (member_key "k"
          (version (if IsStale 101 mv then InitialMetaValue 101 mv else mv))
          "c") = None)
  /\ ZIncrby pair_db 101 "k" "c" (double_of_Z 5)
     = (OK, double_of_Z 5, snd (ZAdd pair_db 101 "k" [scored 5 "c"])).
Proof.
  assert (Habsent : forall mv, Get_meta pair_db "k" = Some mv ->
     Get_data pair_db
       (member_key "k"
          (version (if IsStale 101 mv then InitialMetaValue 101 mv else mv))
          "c") = None).
  { intros mv H. inversion H. reflexivity. }
  split; [exact Habsent|].
  exact (proj1 (ZIncrby_new_member_is_ZAdd pair_db 101 "k" "c"
                  (double_of_Z 5) Habsent)).
Defined.

Local Close Scope string_scope.

(* ----------------------------------------------------------------- *)
(** ** The meta rows of other keys *)

Lemma no_meta_is_meta_only (key : Slice) (batch : WriteBatch) :
  forallb (fun op => negb (is_meta_op op)) batch = true ->
  forallb (meta_only_on key) batch = true.
Proof.
  induction batch as [|op batch IH]; simpl; [reflexivity|].
  intros H. apply andb_true_iff in H. destruct H as [Hop H].
  rewrite (IH H). now destruct op.
Qed.

Lemma meta_only_on_tail (key : Slice) (batch : WriteBatch)
    (mv : ZSetsMetaValue) :
  forallb (meta_only_on key) batch = true ->
  forallb (meta_only_on key) (batch ++ [PutMeta key mv]) = true.
Proof.
  intros H. rewrite forallb_app, H. simpl. now rewrite String.eqb_refl.
Qed.

Lemma ZAdd_batch_meta_only (db : DB) (now : Z) (key : Slice)
    (score_members : list ScoreMember) :
  forallb (meta_only_on key) (snd (ZAdd_batch db now key score_members))
  = true.
Proof.
  pose proof (contribution_no_meta db now key
                (first_occurrences score_members)) as Hnm.
  apply (no_meta_is_meta_only key) in Hnm.
  unfold ZAdd_batch, ZAdd_contribution in *.
  rewrite filter_score_members_first.
  destruct (Get_meta db key) as [mv|].
  - destruct (IsStale now mv).
    + rewrite ZAdd_loop_stale. cbn [snd app].
      now apply meta_only_on_tail.
    + rewrite ZAdd_loop_spec. cbn [snd app].
      now apply meta_only_on_tail.
  - cbn [snd forallb meta_only_on]. now rewrite String.eqb_refl.
Qed.

Lemma ZIncrby_batch_meta_only (db : DB) (now : Z) (key m : Slice)
    (increment : double) :
  forallb (meta_only_on key) (snd (ZIncrby_batch db now key m increment))
  = true.
Proof.
  unfold ZIncrby_batch.
  destruct (Get_meta db key) as [mv|].
  - destruct (Get_data db _); cbn [snd forallb meta_only_on];
      now rewrite ?String.eqb_refl.
  - cbn [snd forallb meta_only_on]. now rewrite String.eqb_refl.
Qed.

Lemma store_batch_meta_only (destination : Slice) (mv : ZSetsMetaValue)
    (A : Type) (puts : A -> WriteBatch) (l : list A) :
  (forall x, forallb (fun op => negb (is_meta_op op)) (puts x) = true) ->
  forallb (meta_only_on destination)
    (PutMeta destination mv :: flat_map puts l) = true.
Proof.
  intros H. cbn [forallb meta_only_on]. rewrite String.eqb_refl.
  apply no_meta_is_meta_only, forallb_flat_map. intros x _. apply H.
Qed.

Lemma removal_batch_meta_only (key : Slice) (A : Type)
    (deletes : A -> WriteBatch) (l : list A) :
  (forall x, forallb (fun op => negb (is_meta_op op)) (deletes x) = true) ->
  forallb (meta_only_on key) (flat_map deletes l) = true.
Proof.
  intros H. apply no_meta_is_meta_only, forallb_flat_map.
  intros x _. apply H.
Qed.

(** X20.  No command that writes touches the meta row of a key it was not
    called on: after ZAdd, ZIncrby, ZRem, ZRemrangebyrank,
    ZRemrangebyscore, ZRemrangebylex, Del, Expire, Expireat and Persist on
    [key], and after ZUnionstore and ZInterstore into the destination
    [key], a point read of the meta row of any other key returns what it
    returned before, whatever the arguments and the state of the
    database. *)
Theorem writes_keep_other_meta_rows (db : DB) (now : Z) (key k' : Slice)
    (score_members : list ScoreMember) (m : Slice) (increment : double)
    (members : list string) (start stop : Z) (min max : double)
    (lex_min lex_max : Slice) (left_close right_close : bool)
    (ttl ts : Z) (keys : list string) (weights : list double)
    (agg : AGGREGATE) :
  k' <> key ->
  Get_meta (snd (ZAdd db now key score_members)) k' = Get_meta db k'
  /\ Get_meta (snd (ZIncrby db now key m increment)) k' = Get_meta db k'
  /\ Get_meta (snd (ZRem db now key members)) k' = Get_meta db k'
  /\ Get_meta (snd (ZRemrangebyrank db now key start stop)) k'
     = Get_meta db k'
  /\ Get_meta
       (snd (ZRemrangebyscore db now key min max left_close right_close)) k'
     = Get_meta db k'
  /\ Get_meta
       (snd (ZRemrangebylex db now key lex_min lex_max left_close
               right_close)) k'
     = Get_meta db k'
  /\ Get_meta (snd (Del db now key)) k' = Get_meta db k'
  /\ Get_meta (snd (Expire db now key ttl)) k' = Get_meta db k'
  /\ Get_meta (snd (Expireat db now key ts)) k' = Get_meta db k'
  /\ Get_meta (snd (Persist db now key)) k' = Get_meta db k'
  /\ Get_meta (snd (ZUnionstore db now key keys weights agg)) k'
     = Get_meta db k'
  /\ Get_meta (snd (ZInterstore db now key keys weights agg)) k'
     = Get_meta db k'.
Proof.
  intros Hne.
  assert (Hone : forall mv,
            Get_meta (Write db [PutMeta key mv]) k' = Get_meta db k').
  { intros mv. apply (Get_meta_Write_other db _ key k'); [|exact Hne].
    simpl. now rewrite String.eqb_refl. }
  repeat split.
  - unfold ZAdd.
    pose proof (ZAdd_batch_meta_only db now key score_members) as H.
    destruct (ZAdd_batch db now key score_members) as [[s ret] batch].
    now apply (Get_meta_Write_other _ _ key).
  - unfold ZIncrby.
    pose proof (ZIncrby_batch_meta_only db now key m increment) as H.
    destruct (ZIncrby_batch db now key m increment) as [[s ret] batch].
    now apply (Get_meta_Write_other _ _ key).
  - unfold ZRem. destruct (Get_meta db key) as [mv|]; [|reflexivity].
    destruct (IsStale now mv); [reflexivity|].
    destruct (count mv =? 0); [reflexivity|].
    rewrite ZRem_loop_spec. cbn [snd app].
    apply (Get_meta_Write_other _ _ key); [|exact Hne].
    apply meta_only_on_tail, removal_batch_meta_only.
    intros x. unfold removal_of. now destruct (Get_data db _).
  - unfold ZRemrangebyrank.
    destruct (Get_meta db key) as [mv|]; [|reflexivity].
    destruct (IsStale now mv); [reflexivity|].
    destruct (count mv =? 0); [reflexivity|].
    cbv zeta. rewrite ZRemrangebyrank_loop_window. cbn [fst snd app].
    apply (Get_meta_Write_other _ _ key); [|exact Hne].
    now apply meta_only_on_tail, removal_batch_meta_only.
  - unfold ZRemrangebyscore.
    destruct (Get_meta db key) as [mv|]; [|reflexivity].
    destruct (IsStale now mv); [reflexivity|].
    destruct (count mv =? 0); [reflexivity|].
    cbv zeta. rewrite ZRemrangebyscore_loop_select. cbn [fst snd app].
    apply (Get_meta_Write_other _ _ key); [|exact Hne].
    now apply meta_only_on_tail, removal_batch_meta_only.
  - unfold ZRemrangebylex.
    destruct (Get_meta db key) as [mv|]; [|reflexivity].
    destruct (IsStale now mv || (count mv =? 0)); [reflexivity|].
    cbv zeta. rewrite ZRemrangebylex_loop_select. cbn [fst snd app].
    destruct (_ >? 0); cbn [snd];
      (apply (Get_meta_Write_other _ _ key); [|exact Hne]);
      [apply meta_only_on_tail|]; now apply removal_batch_meta_only.
  - unfold Del. destruct (Get_meta db key) as [mv|]; [|reflexivity].
    destruct (IsStale now mv); [reflexivity|].
    destruct (count mv =? 0); [reflexivity | apply Hone].
  - unfold Expire. destruct (Get_meta db key) as [mv|]; [|reflexivity].
    destruct (IsStale now mv); [reflexivity | apply Hone].
  - unfold Expireat. destruct (Get_meta db key) as [mv|]; [|reflexivity].
    destruct (IsStale now mv); [reflexivity | apply Hone].
  - unfold Persist. destruct (Get_meta db key) as [mv|]; [|reflexivity].
    destruct (IsStale now mv); [reflexivity|].
    destruct (timestamp mv =? 0); [reflexivity | apply Hone].
  - unfold ZUnionstore, ZUnionstore_batch. cbn [snd].
    apply (Get_meta_Write_other _ _ key); [|exact Hne].
    now apply store_batch_meta_only.
  - unfold ZInterstore, ZInterstore_batch.
    destruct (List.length keys <=? 0)%nat; [reflexivity|].
    destruct (ZInterstore_sources db now keys 0 (false, [], 0))
      as [[have_invalid_zsets vaild_zsets] stop_index].
    cbn [snd].
    apply (Get_meta_Write_other _ _ key); [|exact Hne].
    now apply store_batch_meta_only.
Qed.

Local Open Scope string_scope.

Lemma writes_keep_other_meta_rows_witness :
  "k2" <> "k1"
  /\ Get_meta (snd (ZRem two_sets_db 101 "k1" ["a"; "b"])) "k2"
     = Get_meta two_sets_db "k2"
  /\ Get_meta (snd (Del two_sets_db 101 "k1")) "k2"
     = Get_meta two_sets_db "k2".
Proof.
  split; [discriminate|].
  pose proof (writes_keep_other_meta_rows two_sets_db 101 "k1" "k2"
                [] "a" one ["a"; "b"] 0 0 one one "-" "+" true true 0 0
                [] [] SUM ltac:(discriminate)) as H.
  split; [exact (proj1 (proj2 (proj2 H)))|].
  exact (proj1 (proj2 (proj2 (proj2 (proj2 (proj2 (proj2 H))))))).
Defined.

Local Close Scope string_scope.

(* ----------------------------------------------------------------- *)
(** ** ZUnionstore: the map of aggregated scores *)

Lemma ascii_compare_lt_trans (a b c : ascii) :
  Ascii.compare a b = Lt -> Ascii.compare b c = Lt ->
  Ascii.compare a c = Lt.
Proof.
  unfold Ascii.compare. rewrite !N.compare_lt_iff. lia.
Qed.

Lemma string_compare_lt_trans (a b c : string) :
  String.compare a b = Lt -> String.compare b c = Lt ->
  String.compare a c = Lt.
Proof.
  revert b c. induction a as [|x a IH]; intros [|y b] [|z c]; simpl;
    try discriminate; try reflexivity.
  destruct (Ascii.compare x y) eqn:Exy; try discriminate;
    destruct (Ascii.compare y z) eqn:Eyz; try discriminate; intros H1 H2.
  - apply Ascii.compare_eq_iff in Exy, Eyz. subst.
    replace (Ascii.compare z z) with Eq
      by (symmetry; unfold Ascii.compare; apply N.compare_refl).
    now apply (IH b c).
  - apply Ascii.compare_eq_iff in Exy. subst. now rewrite Eyz.
  - apply Ascii.compare_eq_iff in Eyz. subst. now rewrite Exy.
  - now rewrite (ascii_compare_lt_trans _ _ _ Exy Eyz).
Qed.

Lemma cf_put_In (V : Type) (rows : list (string * V)) (k : string) (v : V)
    (row : string * V) :
  In row (cf_put String.compare rows k v) -> row = (k, v) \/ In row rows.
Proof.
  induction rows as [|[k' v'] rest IH]; simpl.
  - intros [e | []]. now left.
  - destruct (String.compare k k'); simpl.
    + intros [e | H]; [now left | now right; right].
    + intros [e | H]; [now left | now right].
    + intros [e | H]; [now right; left|].
      destruct (IH H) as [e | H']; [now left | now right; right].
Qed.

Lemma cf_put_keys (V : Type) (rows : list (string * V)) (k : string) (v : V)
    (m : string) :
  In m (map fst (cf_put String.compare rows k v))
  <-> m = k \/ In m (map fst rows).
Proof.
  induction rows as [|[k' v'] rest IH]; simpl.
  - split; [intros [e | []]; now left | intros [e | []]; now left].
  - destruct (String.compare k k') eqn:E; simpl.
    + apply String.compare_eq_iff in E. subst k'. split.
      * intros [e | H]; [now left | now right; right].
      * intros [e | [e | H]]; [now left | now left | now right].
    + split.
      * intros [e | H]; [now left | now right].
      * intros [e | H]; [now left | now right].
    + rewrite IH. split.
      * intros [e | [e | H]]; [now right; left | now left | now right; right].
      * intros [e | [e | H]]; [now right; left | now left | now right; right].
Qed.

Lemma cf_put_ascending (V : Type) (rows : list (string * V)) (k : string)
    (v : V) :
  ascending rows -> ascending (cf_put String.compare rows k v).
Proof.
  induction rows as [|[k' v'] rest IH]; simpl.
  - intros _. split; [constructor | exact I].
  - intros [Hall Hrest].
    destruct (String.compare k k') eqn:E.
    + apply String.compare_eq_iff in E. subst k'. simpl. now split.
    + simpl. split; [|now split].
      constructor; [exact E|].
      eapply Forall_impl; [|exact Hall].
      intros row Hrow. simpl in *.
      now apply (string_compare_lt_trans k k' (fst row)).
    + simpl. split; [|now apply IH].
      apply Forall_forall. intros row Hrow.
      apply cf_put_In in Hrow. destruct Hrow as [-> | Hrow].
      * simpl. rewrite String.compare_antisym, E. reflexivity.
      * rewrite Forall_forall in Hall. now apply Hall.
Qed.

Lemma ascending_NoDup (V : Type) (rows : list (string * V)) :
  ascending rows -> NoDup (map fst rows).
Proof.
  induction rows as [|[k v] rest IH]; simpl.
  - constructor.
  - intros [Hall Hrest]. constructor; [|now apply IH].
    intros Hin. apply in_map_iff in Hin. destruct Hin as (row & e & Hrow).
    rewrite Forall_forall in Hall. specialize (Hall row Hrow).
    rewrite e, string_compare_refl in Hall. discriminate.
Qed.

Lemma ZUnionstore_scan_ascending (iter : list (ZSetsScoreKey * Slice))
    (cur_index stop_index : Z) (weight : double) (agg : AGGREGATE)
    (member_score_map : member_score_map_t) :
  ascending member_score_map ->
  ascending
    (ZUnionstore_scan iter cur_index stop_index weight agg member_score_map).
Proof.
  revert cur_index member_score_map.
  induction iter as [|[k s] iter IH]; intros cur_index msm Hmap; simpl.
  - exact Hmap.
  - destruct (cur_index <=? stop_index); [|exact Hmap].
    apply IH. now apply cf_put_ascending.
Qed.

Lemma ZUnionstore_scan_members (iter : list (ZSetsScoreKey * Slice))
    (cur_index stop_index : Z) (weight : double) (agg : AGGREGATE)
    (member_score_map : member_score_map_t) (m : string) :
  In m (map fst
          (ZUnionstore_scan iter cur_index stop_index weight agg
             member_score_map))
  <-> In m (map fst member_score_map)
      \/ In m (map row_member
                 (firstn (Z.to_nat (stop_index - cur_index + 1)) iter)).
Proof.
  revert cur_index member_score_map.
  induction iter as [|[k s] iter IH]; intros cur_index msm.
  - rewrite firstn_nil. simpl. tauto.
  - simpl ZUnionstore_scan.
    destruct (Z.leb_spec cur_index stop_index) as [Hle|Hgt].
    + rewrite IH, cf_put_keys.
      replace (stop_index - cur_index + 1)
        with (stop_index - (cur_index + 1) + 1 + 1) by lia.
      rewrite firstn_succ_cons by lia. simpl.
      unfold row_member at 1. simpl. split.
      * intros [[e | H] | H]; [right; left; now symmetry | now left
                               | right; now right].
      * intros [H | [e | H]]; [left; now right | left; left; now symmetry
                               | now right].
    + replace (Z.to_nat (stop_index - cur_index + 1)) with 0%nat by lia.
      simpl. tauto.
Qed.

Lemma ZUnionstore_sources_ascending (db : DB) (now : Z)
    (keys : list string) (idx : nat) (weights : list double)
    (agg : AGGREGATE) (member_score_map : member_score_map_t) :
  ascending member_score_map ->
  ascending
    (ZUnionstore_sources db now keys idx weights agg member_score_map).
Proof.
  revert idx member_score_map.
  induction keys as [|key keys IH]; intros idx msm Hmap; simpl.
  - exact Hmap.
  - apply IH. destruct (Get_meta db key) as [mv|]; [|exact Hmap].
    destruct (negb (IsStale now mv) && negb (count mv =? 0));
      [|exact Hmap].
    now apply ZUnionstore_scan_ascending.
Qed.

Lemma ZUnionstore_sources_members (db : DB) (now : Z)
    (keys : list string) (idx : nat) (weights : list double)
    (agg : AGGREGATE) (member_score_map : member_score_map_t) (m : string) :
  In m (map fst
          (ZUnionstore_sources db now keys idx weights agg member_score_map))
  <-> In m (map fst member_score_map)
      \/ exists key,
           In key keys /\ In m (map row_member (source_rows db now key)).
Proof.
  revert idx member_score_map.
  induction keys as [|key keys IH]; intros idx msm; simpl.
  - split; [now left | intros [H | (key & [] & _)]; exact H].
  - rewrite IH.
    assert (Hkey :
      In m (map fst
              match Get_meta db key with
              | Some meta_value =>
                  if negb (IsStale now meta_value)
                     && negb (count meta_value =? 0)
                  then
                    ZUnionstore_scan
                      (Seek_score db
                         (score_key key (version meta_value) double_lowest
                            EmptyString))
                      0 (count meta_value - 1) (weight_at weights idx) agg
                      msm
                  else msm
              | None => msm
              end)
      <-> In m (map fst msm)
          \/ In m (map row_member (source_rows db now key))).
    { unfold source_rows. destruct (Get_meta db key) as [mv|];
        [|simpl; tauto].
      destruct (negb (IsStale now mv) && negb (count mv =? 0));
        [|simpl; tauto].
      rewrite ZUnionstore_scan_members.
      now replace (count mv - 1 - 0 + 1) with (count mv) by lia. }
    rewrite Hkey. split.
    + intros [[H | H] | (key' & Hin & H)].
      * now left.
      * right. exists key. split; [now left | exact H].
      * right. exists key'. split; [now right | exact H].
    + intros [H | (key' & [-> | Hin] & H)].
      * left. now left.
      * left. now right.
      * right. now exists key'.
Qed.

Lemma destination_meta_fresh (db : DB) (now : Z) (destination : Slice)
    (n : Z) :
  IsStale now (destination_meta db now destination n) = false
  /\ count (destination_meta db now destination n) = n.
Proof.
  unfold destination_meta.
  destruct (Get_meta db destination) as [mv|];
    split; try reflexivity; now apply IsStale_no_expiry.
Qed.

Lemma flat_map_entries (key : Slice) (v : Z)
    (member_score_map : member_score_map_t) :
  flat_map (fun sm : string * double =>
              [PutData (member_key key v (fst sm)) (snd sm);
               PutScore (score_key key v (snd sm) (fst sm))])
    member_score_map
  = flat_map (ZAdd_puts key v) (map entry_score_member member_score_map).
Proof.
  induction member_score_map as [|x l IH]; simpl; [reflexivity|].
  now rewrite IH.
Qed.

(** X21.  ZUnionstore stores the union of its sources.  The map it
    aggregates holds each member once, and a member is in it exactly when
    it is the member of one of the rows scanned for some source key (the
    first [count] score rows of a source that is live and not empty).
    The command returns OK with the size of the map; afterwards ZScore on
    the destination returns, for each entry of the map, its aggregated
    score, and ZCard returns the size of the map, or NotFound when the
    map is empty. *)
Theorem ZUnionstore_stores_the_union (db : DB) (now : Z)
    (destination : Slice) (keys : list string) (weights : list double)
    (agg : AGGREGATE) :
  let member_score_map := ZUnionstore_sources db now keys 0 weights agg [] in
  let n := Z.of_nat (List.length member_score_map) in
  let db' := snd (ZUnionstore db now destination keys weights agg) in
  fst (ZUnionstore db now destination keys weights agg) = (OK, n)
  /\ NoDup (map fst member_score_map)
  /\ (forall m,
        In m (map fst member_score_map)
        <-> exists key,
              In key keys
              /\ In m (map row_member (source_rows db now key)))
  /\ (forall m s,
        In (m, s) member_score_map ->
        ZScore db' now destination m = (OK, s))
  /\ ZCard db' now destination
     = if n =? 0 then (NotFound EmptyString, 0) else (OK, n).
Proof.
  intros msm n db'.
  assert (Hasc : ascending msm)
    by (apply ZUnionstore_sources_ascending; exact I).
  pose proof (ascending_NoDup _ _ Hasc) as Hnd.
  destruct (destination_meta_fresh db now destination n) as [Hfresh Hcount].
  assert (Hmeta : Get_meta db' destination
                  = Some (destination_meta db now destination n)).
  { unfold db', ZUnionstore, ZUnionstore_batch. cbn [snd].
    rewrite Write_cons. unfold Get_meta.
    rewrite Write_keeps_meta; [apply Get_meta_PutMeta_same|].
    now apply forallb_flat_map. }
  split; [reflexivity|]. split; [exact Hnd|]. split.
  { intros m. unfold msm. rewrite ZUnionstore_sources_members. simpl.
    tauto. }
  split.
  - intros m s Hin. unfold ZScore. rewrite Hmeta, Hfresh, Hcount.
    assert (Hn : n <> 0).
    { unfold n. destruct msm; [contradiction | simpl; lia]. }
    destruct (Z.eqb_spec n 0) as [e|_]; [contradiction|].
    unfold db', ZUnionstore, ZUnionstore_batch. cbn [snd].
    fold msm. fold n.
    rewrite Get_data_Write. cbn [fold_left data_effect].
    rewrite flat_map_entries.
    rewrite (data_effect_flat_map _ destination _ _
               (entry_score_member (m, s))).
    + cbn [ZAdd_puts fold_left data_effect entry_score_member member score
             fst snd].
      now rewrite String.eqb_refl.
    + intros x Hx. now apply ZAdd_puts_untouched.
    + rewrite map_map. exact Hnd.
    + now apply in_map.
  - unfold ZCard. rewrite Hmeta, Hfresh, Hcount.
    now destruct (n =? 0).
Qed.

(* ----------------------------------------------------------------- *)
(** ** ZInterstore: the members it stores *)

Lemma ZInterstore_probe_in_all (db : DB) (others : list KeyVersion)
    (idx : nat) (weights : list double) (agg : AGGREGATE) (m : string)
    (item_score : double) :
  match ZInterstore_probe db others idx weights agg m item_score with
  | Some _ => true
  | None => false
  end = in_all_sets db others m.
Proof.
  revert idx item_score.
  induction others as [|kv others IH]; intros idx item_score; simpl.
  - reflexivity.
  - unfold in_set at 1.
    destruct (Get_data db (member_key (kv_key kv) (kv_version kv) m));
      [apply IH | reflexivity].
Qed.

Lemma ZInterstore_scan_rows (iter : list (ZSetsScoreKey * Slice))
    (cur_index stop_index : Z) :
  ZInterstore_scan iter cur_index stop_index
  = map (fun row => to_score_member (fst row))
      (firstn (Z.to_nat (stop_index - cur_index + 1)) iter).
Proof.
  revert cur_index.
  induction iter as [|[k s] iter IH]; intros cur_index.
  - now rewrite firstn_nil.
  - simpl ZInterstore_scan.
    destruct (Z.leb_spec cur_index stop_index) as [Hle|Hgt].
    + rewrite IH.
      replace (stop_index - cur_index + 1)
        with (stop_index - (cur_index + 1) + 1 + 1) by lia.
      now rewrite firstn_succ_cons by lia.
    + now replace (Z.to_nat (stop_index - cur_index + 1)) with 0%nat by lia.
Qed.

Lemma ZInterstore_sources_valid (db : DB) (now : Z) (keys : list string)
    (idx : nat) (st : bool * list KeyVersion * Z) :
  existsb (source_invalid db now) keys = false ->
  ZInterstore_sources db now keys idx st
  = (fst (fst st),
     snd (fst st) ++ map (key_version db) keys,
     match keys, idx with
     | key :: _, O =>
         match Get_meta db key with
         | Some mv => count mv - 1
         | None => snd st
         end
     | _, _ => snd st
     end).
Proof.
  revert idx st. induction keys as [|key keys IH]; intros idx st Hvalid.
  - destruct st as [[h v] s]. simpl. now rewrite app_nil_r.
  - simpl in Hvalid. apply orb_false_iff in Hvalid.
    destruct Hvalid as [Hkey Hvalid].
    destruct st as [[h v] s]. simpl ZInterstore_sources.
    unfold source_invalid in Hkey.
    destruct (Get_meta db key) as [mv|] eqn:Hget; [|discriminate].
    rewrite Hkey, (IH _ _ Hvalid). cbn [fst snd map].
    rewrite <- app_assoc. simpl app.
    replace (key_version db key)
      with {| kv_key := key; kv_version := version mv |}
      by (unfold key_version; now rewrite Hget).
    destruct idx; destruct keys; reflexivity.
Qed.

(** X22.  ZInterstore stores the intersection of its sources.  When every
    source key is live and not empty, the members it puts in the batch
    are, in scan order, the members of the first [count] score rows of
    the first source that have a data row in every other source under
    that source's version.  The command returns OK with their number,
    which is also the count of the destination's new meta row: ZCard on
    the destination returns it afterwards, or NotFound when it is 0. *)
Theorem ZInterstore_stores_the_intersection (db : DB) (now : Z)
    (destination : Slice) (first : string) (others : list string)
    (weights : list double) (agg : AGGREGATE) :
  existsb (source_invalid db now) (first :: others) = false ->
  let stored :=
    filter (in_all_sets db (map (key_version db) others))
      (map row_member (source_rows db now first)) in
  let n := Z.of_nat (List.length stored) in
  let mv := destination_meta db now destination n in
  let db' :=
    snd (ZInterstore db now destination (first :: others) weights agg) in
  (exists final_score_members,
     ZInterstore_batch db now destination (first :: others) weights agg
     = (OK, Some n,
        PutMeta destination mv
          :: flat_map (ZAdd_puts destination (version mv))
               final_score_members)
     /\ map member final_score_members = stored)
  /\ fst (ZInterstore db now destination (first :: others) weights agg)
     = (OK, Some n)
  /\ ZCard db' now destination
     = if n =? 0 then (NotFound EmptyString, 0) else (OK, n).
Proof.
  intros Hvalid stored n mv db'.
  pose proof Hvalid as Hfirst. simpl in Hfirst.
  apply orb_false_iff in Hfirst. destruct Hfirst as [Hfirst _].
  unfold source_invalid in Hfirst.
  destruct (Get_meta db first) as [mv1|] eqn:Hget; [|discriminate].
  apply orb_false_iff in Hfirst. destruct Hfirst as [Hstale Hcount].
  set (final :=
         ZInterstore_candidates db (map (key_version db) (first :: others))
           (count mv1 - 1) weights agg).
  assert (Hmembers : map member final = stored).
  { assert (Hkv : key_version db first
                  = {| kv_key := first; kv_version := version mv1 |})
      by (unfold key_version; now rewrite Hget).
    unfold final, stored, source_rows, ZInterstore_candidates.
    cbn [map]. rewrite Hkv. cbn [kv_key kv_version].
    rewrite Hget, Hstale, Hcount. cbn [negb andb].
    rewrite ZInterstore_scan_rows.
    replace (count mv1 - 1 - 0 + 1) with (count mv1) by lia.
    generalize (firstn (Z.to_nat (count mv1))
                  (Seek_score db
                     (score_key first (version mv1) double_lowest
                        EmptyString))).
    intros rows. induction rows as [|[k s] rows IH]; [reflexivity|].
    cbn [map flat_map filter fst]. rewrite map_app, IH.
    unfold row_member at 2. cbn [fst to_score_member member score].
    rewrite <- (ZInterstore_probe_in_all db _ 1 weights agg (sk_member k)
                  (dmul (sk_score k) (weight_at weights 0))).
    now destruct (ZInterstore_probe db _ 1 weights agg (sk_member k) _). }
  assert (Hbatch :
    ZInterstore_batch db now destination (first :: others) weights agg
    = (OK, Some n,
       PutMeta destination mv
         :: flat_map (ZAdd_puts destination (version mv)) final)).
  { unfold ZInterstore_batch. cbn [List.length Nat.leb].
    rewrite (ZInterstore_sources_valid _ _ _ _ _ Hvalid).
    cbn [fst snd app negb]. rewrite Hget. fold final.
    assert (Hn : n = Z.of_nat (List.length final))
      by (unfold n; now rewrite <- Hmembers, length_map).
    unfold mv. now rewrite Hn. }
  split; [exists final; split; assumption|].
  unfold db', ZInterstore. rewrite Hbatch. cbn [fst snd].
  split; [reflexivity|].
  destruct (destination_meta_fresh db now destination n) as [Hfresh Hn].
  unfold ZCard. rewrite Write_cons. unfold Get_meta at 1.
  rewrite Write_keeps_meta by now apply forallb_flat_map.
  fold (Get_meta (apply_op db (PutMeta destination mv)) destination).
  rewrite Get_meta_PutMeta_same. fold mv in Hfresh, Hn.
  rewrite Hfresh, Hn. now destruct (n =? 0).
Qed.

Local Open Scope string_scope.

Lemma ZInterstore_stores_the_intersection_witness :
  existsb (source_invalid rank_db 101) ["k1"; "k2"] = false
  /\ fst (ZInterstore rank_db 101 "dst" ["k1"; "k2"] [] SUM) = (OK, Some 0)
  /\ fst (ZInterstore rank_db 101 "dst" ["k1"; "k1"] [] SUM) = (OK, Some 1).
Proof.
  split; [reflexivity|]. split.
  - exact (proj1 (proj2 (ZInterstore_stores_the_intersection rank_db 101
                           "dst" "k1" ["k2"] [] SUM eq_refl))).
  - exact (proj1 (proj2 (ZInterstore_stores_the_intersection rank_db 101
                           "dst" "k1" ["k1"] [] SUM eq_refl))).
Defined.

Local Close Scope string_scope.

(* ----------------------------------------------------------------- *)
(** ** ScanKeyNum and ScanKeys *)

Lemma ScanKeyNum_loop_count (now : Z) (iter : list (Slice * ZSetsMetaValue))
    (count : Z) :
  ScanKeyNum_loop now iter count
  = count + Z.of_nat (List.length (filter (countable now) iter)).
Proof.
  revert count. induction iter as [|row iter IH]; intros count; simpl.
  - lia.
  - rewrite IH. destruct (countable now row); cbn [List.length]; lia.
Qed.

Lemma ScanKeys_loop_filter (StringMatch : string -> string -> bool)
    (now : Z) (pattern : string) (iter : list (Slice * ZSetsMetaValue))
    (keys : list string) :
  ScanKeys_loop StringMatch now pattern iter keys
  = keys
    ++ map fst
         (filter (fun row => countable now row
                             && StringMatch pattern (fst row)) iter).
Proof.
  revert keys. induction iter as [|row iter IH]; intros keys; simpl.
  - now rewrite app_nil_r.
  - rewrite IH. destruct (countable now row); [|reflexivity].
    destruct (StringMatch pattern (fst row)); [|reflexivity].
    simpl. now rewrite <- app_assoc.
Qed.

Lemma ascending_cf_get (V : Type) (rows : list (string * V)) (k : string)
    (v : V) :
  ascending rows -> In (k, v) rows ->
  cf_get String.compare rows k = Some v.
Proof.
  induction rows as [|[k' v'] rest IH]; simpl; [contradiction|].
  intros [Hall Hrest] [e | Hin].
  - inversion e; subst. now rewrite string_compare_refl.
  - rewrite Forall_forall in Hall. specialize (Hall _ Hin).
    simpl in Hall. rewrite Hall. now apply IH.
Qed.

Lemma ZCard_OK_iff (db : DB) (now : Z) (key : Slice) :
  fst (ZCard db now key) = OK
  <-> exists mv, Get_meta db key = Some mv /\ countable now (key, mv) = true.
Proof.
  unfold ZCard, countable. cbn [snd].
  destruct (Get_meta db key) as [mv|].
  - split.
    + intros H. exists mv. split; [reflexivity|].
      destruct (IsStale now mv); [discriminate|].
      now destruct (count mv =? 0).
    + intros (mv' & e & H). inversion e; subst mv'.
      destruct (IsStale now mv); [discriminate|].
      now destruct (count mv =? 0).
  - split; [discriminate | intros (mv' & e & _); discriminate].
Qed.

(** X23.  ScanKeys and ScanKeyNum against ZCard.  On a meta family whose
    keys go up strictly (the store's order), ScanKeys called with an
    empty list returns each key once, and a key is returned exactly when
    ZCard answers OK for it at the same clock reading and the pattern
    matches it.  ScanKeyNum returns at least the number of keys ScanKeys
    lists, and that number itself when the pattern matches every key. *)
Theorem ScanKeys_lists_the_live_keys
    (StringMatch : string -> string -> bool) (db : DB) (now : Z)
    (pattern : string) :
  ascending (meta_cf db) ->
  let listed := snd (ScanKeys StringMatch db now pattern []) in
  let num := snd (ScanKeyNum db now) in
  (forall k,
     In k listed
     <-> fst (ZCard db now k) = OK /\ StringMatch pattern k = true)
  /\ NoDup listed
  /\ Z.of_nat (List.length listed) <= num
  /\ ((forall k, StringMatch pattern k = true) ->
      Z.of_nat (List.length listed) = num).
Proof.
  intros Hasc listed num.
  unfold listed, num, ScanKeys, ScanKeyNum. cbn [snd].
  rewrite ScanKeys_loop_filter, ScanKeyNum_loop_count. cbn [app].
  split; [|split; [|split]].
  - intros k. rewrite ZCard_OK_iff, in_map_iff. split.
    + intros ([k' mv] & e & Hin). simpl in e. subst k'.
      apply filter_In in Hin. destruct Hin as [Hin Hc].
      apply andb_true_iff in Hc. destruct Hc as [Hc Hm].
      split; [|exact Hm]. exists mv. split; [|exact Hc].
      now apply ascending_cf_get.
    + intros [(mv & Hget & Hc) Hm]. exists (k, mv). split; [reflexivity|].
      apply filter_In. split; [now apply cf_get_In|].
      apply andb_true_iff. split; [exact Hc | exact Hm].
  - apply NoDup_map_filter. now apply ascending_NoDup.
  - rewrite length_map.
    assert (H : forall l : list (Slice * ZSetsMetaValue),
              (List.length
                 (filter (fun row => countable now row
                                     && StringMatch pattern (fst row)) l)
               <= List.length (filter (countable now) l))%nat).
    { induction l as [|row l IH]; simpl; [lia|].
      destruct (countable now row); simpl; [|exact IH].
      destruct (StringMatch pattern (fst row)); simpl; lia. }
    specialize (H (meta_cf db)). lia.
  - intros Hall. rewrite length_map.
    rewrite (filter_ext _ (countable now)); [lia|].
    intros row. now rewrite Hall, andb_true_r.
Qed.

Local Open Scope string_scope.

Lemma ScanKeys_lists_the_live_keys_witness :
  ascending (meta_cf two_sets_db)
  /\ snd (ScanKeys glob_match two_sets_db 101 "*" []) = ["k1"; "k2"]
  /\ Z.of_nat
       (List.length (snd (ScanKeys glob_match two_sets_db 101 "*2" [])))
     <= snd (ScanKeyNum two_sets_db 101).
Proof.
  assert (Hasc : ascending (meta_cf two_sets_db))
    by (vm_compute; repeat constructor).
  split; [exact Hasc|]. split; [reflexivity|].
  exact (proj1 (proj2 (proj2 (ScanKeys_lists_the_live_keys glob_match
                                two_sets_db 101 "*2" Hasc)))).
Defined.

Local Close Scope string_scope.

(* ----------------------------------------------------------------- *)
(** ** ZScan *)

Section MemberScanProperties.
Variable StringMatch : string -> string -> bool.

Lemma ZScan_loop_page (pattern : string) (key : Slice) (v : Z)
    (iter : list (ZSetsMemberKey * double)) (rest : Z)
    (out : list ScoreMember) :
  let visited :=
    firstn (Z.to_nat rest) (take_while (in_set_prefix key v) iter) in
  ZScan_loop StringMatch pattern
    (ZSetsMemberKey_Encode (member_key key v EmptyString)) iter rest out
  = (skipn (List.length visited) iter,
     rest - Z.of_nat (List.length visited),
     out ++ map data_row_score_member
              (filter (fun row => StringMatch pattern (mk_member (fst row)))
                 visited)).
Proof.
  revert rest out. induction iter as [|[k s] iter IH]; intros rest out.
  - cbn [take_while]. rewrite firstn_nil. simpl.
    now rewrite app_nil_r, Z.sub_0_r.
  - cbn [ZScan_loop take_while].
    change (String.prefix
              (ZSetsMemberKey_Encode (member_key key v EmptyString))
              (ZSetsMemberKey_Encode k))
      with (in_set_prefix key v (k, s)).
    destruct (Z.gtb_spec rest 0) as [Hpos|Hle]; cbn [andb].
    + destruct (in_set_prefix key v (k, s)) eqn:Hp.
      * rewrite IH. cbv zeta.
        replace (Z.to_nat rest) with (S (Z.to_nat (rest - 1))) by lia.
        cbn [firstn List.length skipn filter fst].
        f_equal; [f_equal; lia|].
        destruct (StringMatch pattern (mk_member k)); cbn [map].
        -- now rewrite <- app_assoc.
        -- reflexivity.
      * rewrite firstn_nil. simpl. now rewrite app_nil_r, Z.sub_0_r.
    + replace (Z.to_nat rest) with 0%nat by lia. simpl.
      now rewrite app_nil_r, Z.sub_0_r.
Qed.

Lemma next_row_after_page (key : Slice) (v : Z)
    (iter : list (ZSetsMemberKey * double)) (n : nat) :
  match
    skipn (List.length (firstn n (take_while (in_set_prefix key v) iter)))
      iter
  with
  | row :: _ => if in_set_prefix key v row then Some row else None
  | [] => None
  end
  = hd_error (skipn n (take_while (in_set_prefix key v) iter)).
Proof.
  revert n. induction iter as [|row iter IH]; intros n.
  - cbn [take_while]. now rewrite firstn_nil, !skipn_nil.
  - cbn [take_while]. destruct (in_set_prefix key v row) eqn:Hp.
    + destruct n as [|n]; cbn [firstn List.length skipn hd_error].
      * now rewrite Hp.
      * apply IH.
    + rewrite firstn_nil, skipn_nil. cbn [List.length skipn hd_error].
      now rewrite Hp.
Qed.

Lemma ZScan_live (db : DB) (store : ZScanCursorsStore) (now : Z)
    (key : Slice) (cursor : Z) (pattern : string) (step_length : Z)
    (mv : ZSetsMetaValue) :
  0 <= cursor ->
  Get_meta db key = Some mv ->
  IsStale now mv = false ->
  count mv <> 0 ->
  let start := ZScan_start store key pattern cursor in
  let set_rows :=
    take_while (in_set_prefix key (version mv))
      (Seek_data db (member_key key (version mv) (snd start))) in
  ZScan StringMatch db store now key cursor pattern step_length
  = {| zscan_status := OK;
       zscan_members :=
         map data_row_score_member
           (filter (fun row => StringMatch pattern (mk_member (fst row)))
              (firstn (Z.to_nat step_length) set_rows));
       zscan_next_cursor :=
         match hd_error (skipn (Z.to_nat step_length) set_rows) with
         | Some _ => fst start + step_length
         | None => 0
         end;
       zscan_store :=
         match hd_error (skipn (Z.to_nat step_length) set_rows) with
         | Some row =>
             StoreZScanNextMember store key pattern
               (fst start + step_length) (mk_member (fst row))
         | None => store
         end |}.
Proof.
  intros Hcursor Hget Hstale Hcount start set_rows.
  unfold ZScan.
  destruct (Z.ltb_spec cursor 0) as [Hneg|_]; [lia|].
  rewrite Hget, Hstale.
  destruct (Z.eqb_spec (count mv) 0) as [e|_]; [contradiction|].
  cbn [orb].
  change (match GetZScanStartMember store key pattern cursor with
          | (_, Some start_member) => (cursor, start_member)
          | (_, None) => (0, EmptyString)
          end) with (ZScan_start store key pattern cursor).
  fold start. destruct start as [cursor' start_member] eqn:Hstart.
  cbn [fst snd] in *.
  rewrite ZScan_loop_page. cbv zeta. fold set_rows.
  pose proof (next_row_after_page key (version mv)
                (Seek_data db (member_key key (version mv) start_member))
                (Z.to_nat step_length)) as Hnext.
  fold set_rows in Hnext.
  destruct (skipn (List.length (firstn (Z.to_nat step_length) set_rows))
              (Seek_data db (member_key key (version mv) start_member)))
    as [|[k s] rest].
  - now rewrite <- Hnext.
  - unfold in_set_prefix in Hnext at 1. cbn [fst] in Hnext.
    destruct (String.prefix _ (ZSetsMemberKey_Encode k));
      now rewrite <- Hnext.
Qed.

Lemma map_find_assign_same (m : list (string * string)) (k v : string) :
  map_find (map_assign m k v) k = Some v.
Proof. unfold map_assign. simpl. now rewrite String.eqb_refl. Qed.

Lemma Store_then_Get (store : ZScanCursorsStore) (key pattern : string)
    (cursor : Z) (next_member : string) :
  GetZScanStartMember
    (StoreZScanNextMember store key pattern cursor next_member)
    key pattern cursor
  = (OK, Some next_member).
Proof.
  unfold GetZScanStartMember, StoreZScanNextMember. cbn [map_].
  now rewrite map_find_assign_same.
Qed.

Lemma Store_max_size (store : ZScanCursorsStore) (key pattern : string)
    (cursor : Z) (next_member : string) :
  max_size_ (StoreZScanNextMember store key pattern cursor next_member)
  = max_size_ store.
Proof.
  unfold StoreZScanNextMember. cbn [max_size_].
  now destruct (max_size_ store <? List.length (list_ store))%nat.
Qed.

(** X24.  A page of ZScan.  On a live key, with a cursor that is not
    negative, ZScan returns OK.  Let the rows of the set from the start
    member be the data rows from the seek position while their key starts
    with the prefix of the set, the start member being the one stored for
    the cursor, or the beginning when none is stored.  The members
    returned are those of the first [count] such rows that the pattern
    matches, in order.  When a row follows these, the next cursor is the
    cursor in effect plus [count], and the member of that row is stored
    for it: looking the next cursor up returns it.  When none follows,
    the next cursor is 0 and the cursor store is as it was. *)
Theorem ZScan_returns_a_page (db : DB) (store : ZScanCursorsStore)
    (now : Z) (key : Slice) (cursor : Z) (pattern : string)
    (step_length : Z) (mv : ZSetsMetaValue) :
  0 <= cursor ->
  Get_meta db key = Some mv ->
  IsStale now mv = false ->
  count mv <> 0 ->
  let start := ZScan_start store key pattern cursor in
  let set_rows :=
    take_while (in_set_prefix key (version mv))
      (Seek_data db (member_key key (version mv) (snd start))) in
  let r := ZScan StringMatch db store now key cursor pattern step_length in
  zscan_status r = OK
  /\ zscan_members r
     = map data_row_score_member
         (filter (fun row => StringMatch pattern (mk_member (fst row)))
            (firstn (Z.to_nat step_length) set_rows))
  /\ match hd_error (skipn (Z.to_nat step_length) set_rows) with
     | Some row =>
         zscan_next_cursor r = fst start + step_length
         /\ GetZScanStartMember (zscan_store r) key pattern
              (zscan_next_cursor r)
            = (OK, Some (mk_member (fst row)))
     | None => zscan_next_cursor r = 0 /\ zscan_store r = store
     end.
Proof.
  intros Hcursor Hget Hstale Hcount start set_rows r.
  unfold r.
  rewrite (ZScan_live db store now key cursor pattern step_length mv
             Hcursor Hget Hstale Hcount).
  fold start. fold set_rows. cbn [zscan_status zscan_members
                                  zscan_next_cursor zscan_store].
  split; [reflexivity|]. split; [reflexivity|].
  destruct (hd_error (skipn (Z.to_nat step_length) set_rows)) as [row|].
  - split; [reflexivity | apply Store_then_Get].
  - now split.
Qed.

(** X25.  What ZScan never does.  Whatever its arguments, every member it
    returns is matched by the pattern, it returns at most [count]
    members, the next cursor is 0, [count], or the cursor it was given
    plus [count], and the capacity of the cursor store stays.  When the
    status is not OK, and when the cursor is negative, it returns no
    member, the next cursor is 0 and the cursor store is as it was. *)
Theorem ZScan_bounds (db : DB) (store : ZScanCursorsStore) (now : Z)
    (key : Slice) (cursor : Z) (pattern : string) (step_length : Z) :
  let r := ZScan StringMatch db store now key cursor pattern step_length in
  Forall (fun sm => StringMatch pattern (member sm) = true)
    (zscan_members r)
  /\ (List.length (zscan_members r) <= Z.to_nat step_length)%nat
  /\ (zscan_next_cursor r = 0
      \/ zscan_next_cursor r = step_length
      \/ zscan_next_cursor r = cursor + step_length)
  /\ max_size_ (zscan_store r) = max_size_ store
  /\ (zscan_status r <> OK \/ cursor < 0 ->
      zscan_members r = [] /\ zscan_next_cursor r = 0
      /\ zscan_store r = store).
Proof.
  intros r.
  assert (Hquiet :
    zscan_members r = [] /\ zscan_next_cursor r = 0
    /\ zscan_store r = store ->
    Forall (fun sm => StringMatch pattern (member sm) = true)
      (zscan_members r)
    /\ (List.length (zscan_members r) <= Z.to_nat step_length)%nat
    /\ (zscan_next_cursor r = 0
        \/ zscan_next_cursor r = step_length
        \/ zscan_next_cursor r = cursor + step_length)
    /\ max_size_ (zscan_store r) = max_size_ store
    /\ (zscan_status r <> OK \/ cursor < 0 ->
        zscan_members r = [] /\ zscan_next_cursor r = 0
        /\ zscan_store r = store)).
  { intros (Hm & Hn & Hs). rewrite Hm, Hn, Hs.
    repeat split; try constructor; try tauto. simpl. lia. }
  destruct (Z.ltb_spec cursor 0) as [Hneg|Hcursor].
  { apply Hquiet. unfold r, ZScan.
    destruct (Z.ltb_spec cursor 0); [now repeat split | lia]. }
  destruct (Get_meta db key) as [mv|] eqn:Hget.
  2:{ apply Hquiet. unfold r, ZScan.
      destruct (Z.ltb_spec cursor 0); [lia|]. rewrite Hget.
      now repeat split. }
  destruct (IsStale now mv || (count mv =? 0)) eqn:Hdead.
  { apply Hquiet. unfold r, ZScan.
    destruct (Z.ltb_spec cursor 0); [lia|]. rewrite Hget, Hdead.
    now repeat split. }
  apply orb_false_iff in Hdead. destruct Hdead as [Hstale Hcount].
  apply Z.eqb_neq in Hcount. clear Hquiet. unfold r.
  rewrite (ZScan_live db store now key cursor pattern step_length mv
             Hcursor Hget Hstale Hcount).
  cbn [zscan_status zscan_members zscan_next_cursor zscan_store].
  set (set_rows := take_while _ _).
  assert (Hstart : fst (ZScan_start store key pattern cursor) = 0
                   \/ fst (ZScan_start store key pattern cursor) = cursor).
  { unfold ZScan_start.
    destruct (GetZScanStartMember store key pattern cursor) as [s [m|]];
      [now right | now left]. }
  split; [|split; [|split; [|split]]].
  - apply Forall_forall. intros sm Hsm. apply in_map_iff in Hsm.
    destruct Hsm as (row & <- & Hrow). apply filter_In in Hrow.
    exact (proj2 Hrow).
  - rewrite length_map.
    pose proof (filter_length_le
                  (fun row : ZSetsMemberKey * double =>
                     StringMatch pattern (mk_member (fst row)))
                  (firstn (Z.to_nat step_length) set_rows)) as H1.
    pose proof (firstn_le_length (Z.to_nat step_length) set_rows) as H2.
    lia.
  - destruct (hd_error (skipn (Z.to_nat step_length) set_rows));
      [|now left].
    destruct Hstart as [-> | ->]; [right; left; lia | now right; right].
  - destruct (hd_error (skipn (Z.to_nat step_length) set_rows));
      [apply Store_max_size | reflexivity].
  - intros [H | H]; [now contradiction H | lia].
Qed.
End MemberScanProperties.

Local Open Scope string_scope.

Lemma ZScan_returns_a_page_witness :
  0 <= 0
  /\ Get_meta pair_db "k" = Some pair_meta
  /\ IsStale 101 pair_meta = false
  /\ count pair_meta <> 0
  /\ zscan_members
       (ZScan glob_match pair_db (empty_cursor_store 5) 101 "k" 0 "*" 1)
     = [scored 1 "a"]
  /\ zscan_next_cursor
       (ZScan glob_match pair_db (empty_cursor_store 5) 101 "k" 0 "*" 1)
     = 1
  /\ GetZScanStartMember
       (zscan_store
          (ZScan glob_match pair_db (empty_cursor_store 5) 101 "k" 0 "*" 1))
       "k" "*" 1
     = (OK, Some "b").
Proof.
  pose proof (ZScan_returns_a_page glob_match pair_db (empty_cursor_store 5)
                101 "k" 0 "*" 1 pair_meta ltac:(lia) eq_refl eq_refl
                ltac:(discriminate)) as H.
  cbv zeta in H. destruct H as (_ & Hmembers & Hnext).
  split; [lia|]. split; [reflexivity|]. split; [reflexivity|].
  split; [discriminate|]. split; [exact Hmembers|].
  split; [reflexivity|].
  rewrite (proj1 Hnext) in Hnext. exact (proj2 Hnext).
Defined.

Local Close Scope string_scope.

(* ----------------------------------------------------------------- *)
(** ** The cursor store of ZScan *)

Lemma map_find_erase (m : list (string * string)) (k k' : string) :
  map_find (map_erase m k) k'
  = if String.eqb k' k then None else map_find m k'.
Proof.
  unfold map_erase. induction m as [|[k0 v0] rest IH]; simpl.
  - now destruct (String.eqb k' k).
  - destruct (String.eqb_spec k0 k) as [e0|Hne]; simpl; rewrite IH.
    + destruct (String.eqb_spec k' k) as [e|Hne']; [reflexivity|].
      destruct (String.eqb_spec k0 k') as [e1|_]; [congruence|].
      reflexivity.
    + destruct (String.eqb_spec k0 k') as [e1|Hne']; [|reflexivity].
      destruct (String.eqb_spec k' k) as [e|_]; [congruence|].
      reflexivity.
Qed.

Lemma map_find_assign (m : list (string * string)) (k v k' : string) :
  map_find (map_assign m k v) k'
  = if String.eqb k' k then Some v else map_find m k'.
Proof.
  unfold map_assign. cbn [map_find]. rewrite map_find_erase.
  rewrite (String.eqb_sym k k'). now destruct (String.eqb k' k).
Qed.

Lemma list_remove_In (l : list string) (k k' : string) :
  In k' (list_remove l k) <-> In k' l /\ k' <> k.
Proof.
  unfold list_remove. rewrite filter_In, negb_true_iff, String.eqb_neq.
  tauto.
Qed.

Lemma removelast_last_NoDup (l : list string) (k : string) :
  l <> [] -> NoDup l ->
  forall k', In k' (removelast l) <-> In k' l /\ k' <> last l k.
Proof.
  intros Hne Hnd k'.
  destruct (exists_last Hne) as (l' & x & ->).
  rewrite removelast_last, last_last.
  apply NoDup_remove_2 in Hnd. rewrite app_nil_r in Hnd.
  rewrite in_app_iff. simpl. split.
  - intros H. split; [now left|]. intros ->. contradiction.
  - intros [[H | [e | []]] Hk]; [exact H | congruence].
Qed.

(** X26.  The cursor store.  Storing a member for a cursor makes the
    look-up of that cursor return it, leaves the capacity as it was, and
    keeps the store in order: when, before the call, the list holds each
    index key once, the map has an entry exactly for the keys of the
    list, and the list is at most one longer than the capacity, the same
    holds after the call.  The eviction test is [size > max_size_], so
    the list can hold one key more than the capacity. *)
Theorem StoreZScanNextMember_keeps_store (store : ZScanCursorsStore)
    (key pattern : string) (cursor : Z) (next_member : string) :
  let store' :=
    StoreZScanNextMember store key pattern cursor next_member in
  GetZScanStartMember store' key pattern cursor = (OK, Some next_member)
  /\ max_size_ store' = max_size_ store
  /\ (cursor_store_ok store -> cursor_store_ok store').
Proof.
  intros store'.
  split; [apply Store_then_Get|]. split; [apply Store_max_size|].
  intros (Hnd & Hmap & Hlen).
  unfold store', StoreZScanNextMember, cursor_store_ok.
  set (ik := index_key key pattern cursor).
  destruct (Nat.ltb_spec (max_size_ store) (List.length (list_ store)))
    as [Hfull|Hroom]; cbn [map_ list_ max_size_].
  - assert (Hne : list_ store <> [])
      by (intros e; rewrite e in Hfull; simpl in Hfull; lia).
    pose proof (removelast_last_NoDup _ EmptyString Hne Hnd) as Hrl.
    assert (Hnd' : NoDup (removelast (list_ store))).
    { destruct (exists_last Hne) as (l' & x & e). rewrite e in Hnd |- *.
      rewrite removelast_last. now apply NoDup_remove_1 in Hnd;
        rewrite app_nil_r in Hnd. }
    assert (Hlen' : (List.length (removelast (list_ store))
                     <= max_size_ store)%nat).
    { destruct (exists_last Hne) as (l' & x & e). rewrite e in Hlen |- *.
      rewrite removelast_last. rewrite length_app in Hlen. simpl in Hlen.
      lia. }
    split; [|split].
    + constructor.
      * rewrite list_remove_In. tauto.
      * now apply NoDup_filter.
    + intros k. rewrite map_find_assign, map_find_erase. simpl.
      rewrite list_remove_In, Hrl, <- Hmap.
      destruct (String.eqb_spec k ik) as [->|Hk].
      * split; [now left | discriminate].
      * destruct (String.eqb_spec k (last (list_ store) EmptyString))
          as [e|Hk'].
        -- split; [congruence|]. intros [e' | [[_ H] _]]; congruence.
        -- split; [now right | intros [e | [[H _] _]]; congruence].
    + simpl.
      pose proof (filter_length_le (fun e => negb (String.eqb e ik))
                    (removelast (list_ store))) as Hf.
      unfold list_remove. lia.
  - split; [|split].
    + constructor.
      * rewrite list_remove_In. tauto.
      * now apply NoDup_filter.
    + intros k. rewrite map_find_assign. simpl.
      rewrite list_remove_In, <- Hmap.
      destruct (String.eqb_spec k ik) as [->|Hk].
      * split; [now left | discriminate].
      * split; [now right | intros [e | [H _]]; congruence].
    + simpl.
      pose proof (filter_length_le (fun e => negb (String.eqb e ik))
                    (list_ store)) as Hf.
      unfold list_remove. lia.
Qed.

Lemma empty_cursor_store_ok (max_size : nat) :
  cursor_store_ok (empty_cursor_store max_size).
Proof.
  unfold cursor_store_ok, empty_cursor_store. simpl.
  split; [constructor|]. split; [|lia].
  intros k. split; [congruence | contradiction].
Qed.

(* ----------------------------------------------------------------- *)
(** ** ZScan: going on from the next cursor *)

Lemma cf_seek_suffix (rows : list (ZSetsMemberKey * double))
    (target : ZSetsMemberKey) :
  exists before,
    rows = before ++ cf_seek ZSetsMemberKey_compare rows target.
Proof.
  induction rows as [|[k s] rows IH]; simpl.
  - now exists [].
  - destruct (ZSetsMemberKey_compare k target);
      try (now exists []).
    destruct IH as (before & IH). exists ((k, s) :: before).
    simpl. now rewrite <- IH.
Qed.

Lemma cf_seek_at (before rest : list (ZSetsMemberKey * double))
    (k target : ZSetsMemberKey) (s : double) :
  data_ascending (before ++ (k, s) :: rest) ->
  ZSetsMemberKey_Encode target = ZSetsMemberKey_Encode k ->
  cf_seek ZSetsMemberKey_compare (before ++ (k, s) :: rest) target
  = (k, s) :: rest.
Proof.
  intros Hasc He.
  assert (Hcmp : forall k', ZSetsMemberKey_compare k' target
                            = ZSetsMemberKey_compare k' k)
    by (intros k'; unfold ZSetsMemberKey_compare; now rewrite He).
  induction before as [|[k0 s0] before IH]; simpl in *.
  - rewrite Hcmp. unfold ZSetsMemberKey_compare.
    now rewrite string_compare_refl.
  - destruct Hasc as [Hall Hasc]. rewrite Hcmp.
    rewrite Forall_forall in Hall.
    assert (Hlt : ZSetsMemberKey_compare k0 k = Lt).
    { apply (Hall (k, s)). apply in_or_app. right. now left. }
    rewrite Hlt. now apply IH.
Qed.

Lemma take_while_skipn (A : Type) (f : A -> bool) (l : list A) (n : nat)
    (x : A) :
  hd_error (skipn n (take_while f l)) = Some x ->
  exists before rest,
    l = before ++ x :: rest
    /\ f x = true
    /\ skipn n (take_while f l) = take_while f (x :: rest).
Proof.
  revert n. induction l as [|y l IH]; intros n; cbn [take_while].
  - rewrite skipn_nil. discriminate.
  - destruct (f y) eqn:Hy; [|rewrite skipn_nil; discriminate].
    destruct n as [|n]; cbn [skipn hd_error].
    + intros [= ->]. exists [], l. cbn [app take_while]. now rewrite Hy.
    + intros H. destruct (IH n H) as (before & rest & -> & Hx & Hs).
      exists (y :: before), rest. now repeat split.
Qed.

Lemma firstn_add (A : Type) (n m : nat) (l : list A) :
  firstn (n + m) l = firstn n l ++ firstn m (skipn n l).
Proof.
  revert l. induction n as [|n IH]; intros l; [reflexivity|].
  destruct l as [|x l]; simpl.
  - now rewrite firstn_nil.
  - now rewrite IH.
Qed.

Lemma skipn_add (A : Type) (n m : nat) (l : list A) :
  skipn (n + m) l = skipn m (skipn n l).
Proof.
  revert l. induction n as [|n IH]; intros l; [reflexivity|].
  destruct l as [|x l]; simpl; [now rewrite skipn_nil | apply IH].
Qed.

Section MemberScanResume.
Variable StringMatch : string -> string -> bool.

(** X27.  The pages of ZScan join up.  Let the data family be in the
    store's order and let the rows under the prefix of the set parse back
    to its key and version.  When ZScan on a live key, with a cursor and
    a [count] that are not negative, returns a next cursor other than 0,
    a second call from that cursor, with the cursor store the first call
    left, goes on at the row after the first page: the members of the two pages, one after
    the other, are the members one call with the sum of the two counts
    returns, and the second call ends on the next cursor that call ends
    on. *)
Theorem ZScan_resumes (db : DB) (store : ZScanCursorsStore) (now : Z)
    (key : Slice) (cursor : Z) (pattern : string) (n m : Z)
    (mv : ZSetsMetaValue) :
  0 <= cursor -> 0 <= n -> 0 <= m ->
  Get_meta db key = Some mv ->
  IsStale now mv = false ->
  count mv <> 0 ->
  data_ascending (data_cf db) ->
  prefix_rows_parse db key (version mv) ->
  let first_page := ZScan StringMatch db store now key cursor pattern n in
  let second_page :=
    ZScan StringMatch db (zscan_store first_page) now key
      (zscan_next_cursor first_page) pattern m in
  let both := ZScan StringMatch db store now key cursor pattern (n + m) in
  zscan_next_cursor first_page <> 0 ->
  zscan_members both
  = zscan_members first_page ++ zscan_members second_page
  /\ zscan_next_cursor both = zscan_next_cursor second_page.
Proof.
  intros Hcursor Hn Hm Hget Hstale Hcount Hasc Hparse
    first_page second_page both Hmore.
  unfold both, second_page, first_page in *.
  rewrite (ZScan_live StringMatch db store now key cursor pattern (n + m)
             mv Hcursor Hget Hstale Hcount).
  rewrite (ZScan_live StringMatch db store now key cursor pattern n
             mv Hcursor Hget Hstale Hcount) in *.
  cbn [zscan_members zscan_next_cursor zscan_store] in *.
  assert (Hstart : 0 <= fst (ZScan_start store key pattern cursor)).
  { unfold ZScan_start.
    destruct (GetZScanStartMember store key pattern cursor) as [s [x|]];
      simpl; lia. }
  set (start := ZScan_start store key pattern cursor) in *.
  set (seek := Seek_data db (member_key key (version mv) (snd start))) in *.
  set (set_rows := take_while (in_set_prefix key (version mv)) seek) in *.
  destruct (hd_error (skipn (Z.to_nat n) set_rows)) as [[k s]|] eqn:Hnext;
    [|now contradiction Hmore].
  clear Hmore. cbn [fst].
  destruct (take_while_skipn _ _ _ _ _ Hnext)
    as (page & rest & Hseek & Hk & Hskip).
  destruct (cf_seek_suffix (data_cf db)
              (member_key key (version mv) (snd start)))
    as (before & Hrows).
  fold (Seek_data db (member_key key (version mv) (snd start))) in Hrows.
  fold seek in Hrows. rewrite Hseek, app_assoc in Hrows.
  assert (Hrow : mk_key k = key /\ mk_version k = version mv).
  { unfold prefix_rows_parse in Hparse. rewrite Forall_forall in Hparse.
    apply (Hparse (k, s)); [|exact Hk].
    rewrite Hrows. apply in_or_app. right. now left. }
  assert (Hresume :
    Seek_data db (member_key key (version mv) (mk_member k))
    = (k, s) :: rest).
  { unfold Seek_data. rewrite Hrows.
    apply cf_seek_at; [now rewrite <- Hrows|].
    destruct k as [kk kv km]. simpl in Hrow. destruct Hrow as [-> ->].
    reflexivity. }
  rewrite (ZScan_live StringMatch db _ now key (fst start + n) pattern m
             mv ltac:(lia) Hget Hstale Hcount).
  cbn [zscan_members zscan_next_cursor].
  unfold ZScan_start at 1 2 3. rewrite Store_then_Get. cbn [fst snd].
  rewrite Hresume, <- Hskip.
  replace (Z.to_nat (n + m)) with (Z.to_nat n + Z.to_nat m)%nat by lia.
  rewrite firstn_add, skipn_add, filter_app, map_app. fold set_rows.
  split; [reflexivity|].
  destruct (hd_error (skipn (Z.to_nat m) (skipn (Z.to_nat n) set_rows)));
    [apply Z.add_assoc | reflexivity].
Qed.
End MemberScanResume.

Local Open Scope string_scope.

Lemma ZScan_resumes_witness :
  0 <= 0 /\ 0 <= 1 /\ 0 <= 1
  /\ data_ascending (data_cf pair_db)
  /\ prefix_rows_parse pair_db "k" 100
  /\ zscan_members
       (ZScan glob_match pair_db (empty_cursor_store 5) 101 "k" 0 "*" 2)
     = (zscan_members
          (ZScan glob_match pair_db (empty_cursor_store 5) 101 "k" 0 "*" 1)
        ++ zscan_members
             (ZScan glob_match pair_db
                (zscan_store
                   (ZScan glob_match pair_db (empty_cursor_store 5) 101 "k"
                      0 "*" 1))
                101 "k" 1 "*" 1))%list.
Proof.
  assert (Hasc : data_ascending (data_cf pair_db)).
  { set (rows := data_cf pair_db). vm_compute in rows. subst rows.
    cbn [data_ascending]. repeat split; repeat constructor. }
  assert (Hparse : prefix_rows_parse pair_db "k" 100).
  { unfold prefix_rows_parse.
    set (rows := data_cf pair_db). vm_compute in rows. subst rows.
    repeat (constructor; [intros _; split; reflexivity|]). constructor. }
  split; [lia|]. split; [lia|]. split; [lia|].
  split; [exact Hasc|]. split; [exact Hparse|].
  refine (proj1 (ZScan_resumes glob_match pair_db (empty_cursor_store 5)
                   101 "k" 0 "*" 1 1 pair_meta ltac:(lia) ltac:(lia)
                   ltac:(lia) eq_refl eq_refl ltac:(discriminate)
                   Hasc Hparse _)).
  vm_compute. discriminate.
Defined.

Local Close Scope string_scope.

(* ----------------------------------------------------------------- *)
(** ** The range of the ranks *)

Lemma ZRank_loop_range (iter : list (ZSetsScoreKey * Slice))
    (index stop_index : Z) (m : Slice) (r : Z) :
  ZRank_loop iter index stop_index m = (true, r) ->
  index <= r <= stop_index
  /\ exists row, nth_error iter (Z.to_nat (r - index)) = Some row
                 /\ row_member row = m.
Proof.
  revert index. induction iter as [|[k s] iter IH]; intros index; simpl.
  - discriminate.
  - destruct (Z.leb_spec index stop_index) as [Hle|Hgt]; [|discriminate].
    destruct (String.eqb_spec (sk_member k) m) as [e|Hne].
    + intros [= <-]. split; [lia|].
      rewrite Z.sub_diag. exists (k, s). now split.
    + intros H. destruct (IH _ H) as (Hr & row & Hrow & Hm).
      split; [lia|]. exists row. split; [|exact Hm].
      replace (Z.to_nat (r - index))
        with (S (Z.to_nat (r - (index + 1)))) by lia.
      exact Hrow.
Qed.

Lemma ZRevrank_loop_range (iter : list (ZSetsScoreKey * Slice))
    (left rev_index : Z) (m : Slice) (r : Z) :
  ZRevrank_loop iter left rev_index m = (true, r) ->
  rev_index <= r <= rev_index + left
  /\ exists row, nth_error iter (Z.to_nat (r - rev_index)) = Some row
                 /\ row_member row = m.
Proof.
  revert left rev_index.
  induction iter as [|[k s] iter IH]; intros left rev_index; simpl.
  - discriminate.
  - destruct (Z.geb_spec left 0) as [Hge|Hlt]; [|discriminate].
    destruct (String.eqb_spec (sk_member k) m) as [e|Hne].
    + intros [= <-]. split; [lia|].
      rewrite Z.sub_diag. exists (k, s). now split.
    + intros H. destruct (IH _ _ H) as (Hr & row & Hrow & Hm).
      split; [lia|]. exists row. split; [|exact Hm].
      replace (Z.to_nat (r - rev_index))
        with (S (Z.to_nat (r - (rev_index + 1)))) by lia.
      exact Hrow.
Qed.

(** X28.  The range of the ranks.  ZRank answers OK only on a live key
    that is not empty, with a rank from 0 to [count - 1] that is the
    position, from the forward seek position of the set, of a score row
    holding the member; with any other status the rank is -1.  ZRevrank
    answers OK with a rank from 0 to [count], the position of such a row
    from the backward seek position: its loop runs while [left >= 0]
    from [left = count], one row more than the set holds. *)
Theorem ranks_within_range (db : DB) (now : Z) (key m : Slice) :
  (forall r,
     ZRank db now key m = (OK, r) ->
     exists mv row,
       Get_meta db key = Some mv /\ IsStale now mv = false
       /\ 0 <= r < count mv
       /\ nth_error
            (Seek_score db
               (score_key key (version mv) double_lowest EmptyString))
            (Z.to_nat r) = Some row
       /\ row_member row = m)
  /\ (fst (ZRank db now key m) <> OK -> snd (ZRank db now key m) = -1)
  /\ (forall r,
        ZRevrank db now key m = (OK, r) ->
        exists mv row,
          Get_meta db key = Some mv /\ IsStale now mv = false
          /\ 0 <= r <= count mv
          /\ nth_error
               (SeekForPrev_score db
                  (score_key key (version mv) double_max EmptyString))
               (Z.to_nat r) = Some row
          /\ row_member row = m)
  /\ (fst (ZRevrank db now key m) <> OK ->
      snd (ZRevrank db now key m) = -1).
Proof.
  unfold ZRank, ZRevrank.
  destruct (Get_meta db key) as [mv|];
    [|repeat split; try discriminate; reflexivity].
  destruct (IsStale now mv) eqn:Hstale;
    [repeat split; try discriminate; reflexivity|].
  destruct (count mv =? 0);
    [repeat split; try discriminate; reflexivity|].
  split; [|split; [|split]].
  - intros r.
    destruct (ZRank_loop _ 0 (count mv - 1) m) as [[|] i] eqn:Hloop;
      [|discriminate].
    intros [= <-]. apply ZRank_loop_range in Hloop.
    destruct Hloop as (Hr & row & Hrow & Hm).
    rewrite Z.sub_0_r in Hrow.
    exists mv, row. repeat split; try assumption; lia.
  - destruct (ZRank_loop _ 0 (count mv - 1) m) as [[|] i];
      [intros H; now contradiction H | reflexivity].
  - intros r.
    destruct (ZRevrank_loop _ (count mv) 0 m) as [[|] i] eqn:Hloop;
      [|discriminate].
    intros [= <-]. apply ZRevrank_loop_range in Hloop.
    destruct Hloop as (Hr & row & Hrow & Hm).
    rewrite Z.sub_0_r in Hrow.
    exists mv, row. repeat split; try assumption; lia.
  - destruct (ZRevrank_loop _ (count mv) 0 m) as [[|] i];
      [intros H; now contradiction H | reflexivity].
Qed.
